(** * youtube-trend-collector: the acquisition pipeline, embedded and verified

    A shallow embedding of the yt-dlp search service (the NDJSON stream
    parser, the process-exit classification, the argument builder and the
    record mapper of [services/youtube.ts], in its chunk-safe variant) and of
    the collection orchestrator and trend aggregator of
    [services/collector.ts].

    JavaScript strings are lists of UTF-16 code units, [Buffer]s are lists of
    bytes, values decoded by [JSON.parse] are a tagged union, a [throw] is the
    [Throw] branch of a completion, and the database is a record of tables
    threaded through every operation. *)

From Stdlib Require Import ZArith NArith List Bool Lia.
From Stdlib Require Import Strings.String Strings.Ascii Strings.Byte.
From Stdlib Require Import DecimalString DecimalZ DecimalPos.
Import ListNotations.

Set Implicit Arguments.

(* ================================================================== *)
(** * The host language: strings, buffers, values *)
(* ================================================================== *)

Module JS.

(** A string is a sequence of UTF-16 code units. *)
Definition jsstring := list N.

Definition LF : N := 10.
Definition CR : N := 13.

Fixpoint jsstring_eqb (a b : jsstring) : bool :=
  match a, b with
  | [], [] => true
  | x :: a', y :: b' => N.eqb x y && jsstring_eqb a' b'
  | _, _ => false
  end.

(** [String.prototype.indexOf] for a one-unit needle: the first position, or -1. *)
Fixpoint indexOfFrom (c : N) (s : jsstring) (i : Z) : Z :=
  match s with
  | [] => -1
  | x :: r => if N.eqb x c then i else indexOfFrom c r (i + 1)
  end.

Definition indexOf (s : jsstring) (c : N) : Z := indexOfFrom c s 0.

(** Relative index of [slice]: negative counts from the end, clamped to [0, len]. *)
Definition relIndex (len i : Z) : Z :=
  if (i <? 0)%Z then Z.max (len + i) 0 else Z.min i len.

(** [slice(start, end)] of strings and arrays; [None] is an omitted [end]. *)
Definition slice {A} (s : list A) (start : Z) (end_ : option Z) : list A :=
  let len := Z.of_nat (List.length s) in
  let from := relIndex len start in
  let to := match end_ with None => len | Some e => relIndex len e end in
  firstn (Z.to_nat (to - from)) (skipn (Z.to_nat from) s).

Definition endsWith (s : jsstring) (c : N) : bool :=
  match rev s with
  | x :: _ => N.eqb x c
  | [] => false
  end.

(** WhiteSpace and LineTerminator code units, as [String.prototype.trim] strips them. *)
Definition isTrimmable (c : N) : bool :=
  ((9 <=? c) && (c <=? 13) || (c =? 32) || (c =? 160) || (c =? 5760)
   || ((8192 <=? c) && (c <=? 8202)) || (c =? 8232) || (c =? 8233)
   || (c =? 8239) || (c =? 8287) || (c =? 12288) || (c =? 65279))%N.

Fixpoint trimStart (s : jsstring) : jsstring :=
  match s with
  | c :: r => if isTrimmable c then trimStart r else s
  | [] => []
  end.

Definition trimEnd (s : jsstring) : jsstring := rev (trimStart (rev s)).

Definition trim (s : jsstring) : jsstring := trimStart (trimEnd s).

(** [s.split(/\r?\n/)]: the pieces between the matches of the pattern; a
    carriage return belongs to the separator only when a line feed follows. *)
Fixpoint splitLines (s : jsstring) : list jsstring :=
  match s with
  | [] => [[]]
  | c :: r =>
    if N.eqb c LF then [] :: splitLines r
    else
      match r with
      | d :: r' =>
        if N.eqb c CR && N.eqb d LF then [] :: splitLines r'
        else
          match splitLines r with
          | l :: ls => (c :: l) :: ls
          | [] => [[c]]
          end
      | [] => [[c]]
      end
  end.

(** ** Decoding a [Buffer] as UTF-8 ([Buffer.prototype.toString])

    The decoder of the Encoding standard: an ill-formed or truncated sequence
    becomes U+FFFD, and the byte that ended it is read again as a lead byte. *)

Record Utf8State := {
  codePoint : N;
  bytesNeeded : N;
  lowerBound : N;
  upperBound : N
}.

Definition utf8Start : Utf8State :=
  {| codePoint := 0; bytesNeeded := 0; lowerBound := 128; upperBound := 191 |}.

Definition REPLACEMENT : N := 65533.

(** A code point as UTF-16: one unit, or a surrogate pair above the BMP. *)
Definition utf16 (cp : N) : list N :=
  if (cp <? 65536)%N then [cp]
  else
    let v := (cp - 65536)%N in
    [(55296 + N.shiftr v 10)%N; (56320 + N.land v 1023)%N].

Definition utf8Lead (b : N) : Utf8State * list N :=
  if (b <=? 127)%N then (utf8Start, [b])
  else if ((194 <=? b) && (b <=? 223))%N then
    ({| codePoint := N.land b 31; bytesNeeded := 1;
        lowerBound := 128; upperBound := 191 |}, [])
  else if ((224 <=? b) && (b <=? 239))%N then
    ({| codePoint := N.land b 15; bytesNeeded := 2;
        lowerBound := if (b =? 224)%N then 160 else 128;
        upperBound := if (b =? 237)%N then 159 else 191 |}, [])
  else if ((240 <=? b) && (b <=? 244))%N then
    ({| codePoint := N.land b 7; bytesNeeded := 3;
        lowerBound := if (b =? 240)%N then 144 else 128;
        upperBound := if (b =? 244)%N then 143 else 191 |}, [])
  else (utf8Start, [REPLACEMENT]).

Definition utf8Step (st : Utf8State) (b : N) : Utf8State * list N :=
  if (bytesNeeded st =? 0)%N then utf8Lead b
  else if ((lowerBound st <=? b) && (b <=? upperBound st))%N then
    let cp := (codePoint st * 64 + N.land b 63)%N in
    if (bytesNeeded st =? 1)%N then (utf8Start, utf16 cp)
    else ({| codePoint := cp; bytesNeeded := bytesNeeded st - 1;
             lowerBound := 128; upperBound := 191 |}, [])
  else
    let '(st', out) := utf8Lead b in (st', REPLACEMENT :: out).

Fixpoint utf8Run (st : Utf8State) (bytes : list byte) : jsstring :=
  match bytes with
  | [] => if (bytesNeeded st =? 0)%N then [] else [REPLACEMENT]
  | b :: r =>
    let '(st', out) := utf8Step st (Byte.to_N b) in
    out ++ utf8Run st' r
  end.

Definition utf8Decode (bytes : list byte) : jsstring := utf8Run utf8Start bytes.

(** A string literal of the source: its UTF-8 text as code units. *)
Definition lit (s : string) : jsstring := utf8Decode (list_byte_of_string s).

(** The decoder's state after a run of bytes. *)
Fixpoint utf8After (st : Utf8State) (bytes : list byte) : Utf8State :=
  match bytes with
  | [] => st
  | b :: r => utf8After (fst (utf8Step st (Byte.to_N b))) r
  end.

(** ** Numbers and values

    A number carries the exact decimal value its JSON literal denotes,
    [(-1)^negative * digits * 10^exp10]; the Number value is the double
    nearest to it. *)

Record JSNumber := {
  negative : bool;
  digits : N;
  exp10 : Z
}.

Definition numberOfZ (z : Z) : JSNumber :=
  {| negative := (z <? 0)%Z; digits := Z.to_N (Z.abs z); exp10 := 0 |}.

(** The double nearest to the value is +0 or -0: the value is zero, or at
    most half the least subnormal, 2^-1075. *)
Definition numberIsZero (n : JSNumber) : bool :=
  (digits n =? 0)%N
  || ((exp10 n <? 0)%Z
      && (Z.of_N (digits n) * 2 ^ 1075 <=? 10 ^ (- exp10 n))%Z).

Unset Elimination Schemes.
Inductive JSValue :=
| JUndefined
| JNull
| JBool (b : bool)
| JNumber (n : JSNumber)
| JString (s : jsstring)
| JArray (items : list JSValue)
| JObject (props : list (jsstring * JSValue)).
Set Elimination Schemes.

(** ToBoolean. *)
Definition truthy (v : JSValue) : bool :=
  match v with
  | JUndefined | JNull => false
  | JBool b => b
  | JNumber n => negb (numberIsZero n)
  | JString s => match s with [] => false | _ => true end
  | JArray _ | JObject _ => true
  end.

(** [a || b]. *)
Definition or_else (a b : JSValue) : JSValue := if truthy a then a else b.

(** An own property of an object built by [JSON.parse]: a repeated key keeps
    its last value. *)
Fixpoint lookup (props : list (jsstring * JSValue)) (key : jsstring) : JSValue :=
  match props with
  | [] => JUndefined
  | (k, v) :: rest =>
    match lookup rest key with
    | JUndefined => if jsstring_eqb k key then v else JUndefined
    | later => later
    end
  end.

(** What a [throw] carries: an Error of one of three classes, with its message. *)
Inductive JSError :=
| TypeError (message : jsstring)
| RangeError (message : jsstring)
| Error (message : jsstring).

(** [error.message]. *)
Definition messageOf (e : JSError) : jsstring :=
  match e with
  | TypeError m | RangeError m | Error m => m
  end.

(** The outcome of evaluating code that may throw. *)
Inductive Completion (A : Type) :=
| Normal (a : A)
| Throw (e : JSError).
Arguments Normal {A} a.
Arguments Throw {A} e.

(** [data.key] for one of the keys the service reads: none of them is a
    property of a prototype, so only an object's own properties are found;
    reading from [null] or [undefined] throws. *)
Definition getField (data : JSValue) (key : string) : Completion JSValue :=
  match data with
  | JUndefined =>
    Throw (TypeError (lit "Cannot read properties of undefined"))
  | JNull => Throw (TypeError (lit "Cannot read properties of null"))
  | JObject props => Normal (lookup props (lit key))
  | _ => Normal JUndefined
  end.

(** Decimal text of an integer, as [Number.prototype.toString] prints a
    safe integer (one below 2^53 in magnitude): all its digits, no exponent. *)
Definition textOfZ (z : Z) : jsstring :=
  lit (NilZero.string_of_int (Z.to_int z)).

(** [s.padStart(2, '0')]. *)
Definition padStart2 (s : jsstring) : jsstring :=
  match s with
  | [] => lit "00"
  | [c] => 48%N :: [c]
  | _ => s
  end.

(** The integer a number is, when it is one small enough for the double
    arithmetic on it to be exact. *)
Definition integerOf (n : JSNumber) : option Z :=
  let magnitude :=
    if (0 <=? exp10 n)%Z then Some (Z.of_N (digits n) * 10 ^ exp10 n)%Z
    else
      let d := (10 ^ (- exp10 n))%Z in
      if (Z.of_N (digits n) mod d =? 0)%Z then Some (Z.of_N (digits n) / d)%Z
      else None in
  match magnitude with
  | Some m =>
    if (m <=? 2 ^ 32)%Z then Some (if negative n then (- m)%Z else m) else None
  | None => None
  end.

(** ** Arithmetic on Numbers

    A Number is a double.  The integers the service adds and divides are
    read from 64-bit columns and counted from arrays, so they stay far from
    the ends of the exponent range: a result is the double nearest the exact
    one, a tie going to the even mantissa. *)

(** [p / q] rounded to the nearest integer, a tie to the even one ([0 < q]). *)
Definition roundHalfEven (p q : Z) : Z :=
  let f := (p / q)%Z in
  let r := (p mod q)%Z in
  if (2 * r <? q)%Z then f
  else if (q <? 2 * r)%Z then (f + 1)%Z
  else if Z.even f then f else (f + 1)%Z.

(** The Number an integer is read as: itself up to 2^53, and above that the
    nearest multiple of the spacing of the doubles of its size. *)
Definition numberOfInteger (n : Z) : Z :=
  if (Z.abs n <? 2 ^ 53)%Z then n
  else
    let e := (Z.log2 (Z.abs n) - 52)%Z in
    (Z.sgn n * (roundHalfEven (Z.abs n) (2 ^ e) * 2 ^ e))%Z.

(** [a + b] on Numbers that are integers. *)
Definition add (a b : Z) : Z := numberOfInteger (a + b).

(** A double that need not be an integer: [mantissa * 2 ^ exponent]. *)
Record Double := {
  mantissa : Z;
  exponent : Z
}.

(** The exponent of the double nearest [p / q], for positive [p] and [q]:
    the [e] with [2^52 <= p / q / 2^e < 2^53]. *)
Definition exponentOf (p q : Z) : Z :=
  let k := (Z.log2 p - Z.log2 q)%Z in
  let below :=
    if (0 <=? k)%Z then (p <? q * 2 ^ k)%Z else (p * 2 ^ (- k) <? q)%Z in
  ((if below then k - 1 else k) - 52)%Z.

(** [p / q] on Numbers that are integers, [q] positive. *)
Definition divide (p q : Z) : Double :=
  if (p =? 0)%Z then {| mantissa := 0; exponent := 0 |}
  else
    let a := Z.abs p in
    let e := exponentOf a q in
    let m :=
      if (0 <=? e)%Z then roundHalfEven a (q * 2 ^ e)
      else roundHalfEven (a * 2 ^ (- e)) q in
    {| mantissa := (Z.sgn p * m)%Z; exponent := e |}.

(** [Math.round(x)]: the nearest integer, a tie going up. *)
Definition Math_round (x : Double) : Z :=
  if (0 <=? exponent x)%Z then (mantissa x * 2 ^ exponent x)%Z
  else ((2 * mantissa x + 2 ^ (- exponent x)) / 2 ^ (1 - exponent x))%Z.

(** ** Conversions that can fail

    [ToString] and [ToNumber] of an object first look for a callable
    [toString] (or [valueOf], which an object inherits and which returns the
    object itself).  A value built by [JSON.parse] has no callable property
    of its own, so an object that has an own [toString] key cannot be
    converted: a TypeError.  An array is converted by [join], which converts
    its elements. *)

Definition hasOwn (props : list (jsstring * JSValue)) (key : jsstring) : bool :=
  existsb (fun kv => jsstring_eqb (fst kv) key) props.

Fixpoint convertible (v : JSValue) : bool :=
  match v with
  | JObject props => negb (hasOwn props (lit "toString"))
  | JArray items => forallb convertible items
  | _ => true
  end.

Definition notConvertible : JSError :=
  TypeError (lit "Cannot convert object to primitive value").

End JS.

(* ================================================================== *)
(** * [JSON.parse] *)
(* ================================================================== *)

Module JSON.
Import JS.

Definition isWhite (c : N) : bool :=
  ((c =? 9) || (c =? 10) || (c =? 13) || (c =? 32))%N.

Fixpoint skipWhite (s : jsstring) : jsstring :=
  match s with
  | c :: r => if isWhite c then skipWhite r else s
  | [] => []
  end.

Definition isDigit (c : N) : bool := ((48 <=? c) && (c <=? 57))%N.

Definition hexValue (c : N) : option N :=
  if isDigit c then Some (c - 48)%N
  else if ((97 <=? c) && (c <=? 102))%N then Some (c - 87)%N
  else if ((65 <=? c) && (c <=? 70))%N then Some (c - 55)%N
  else None.

(** The unit a one-letter escape stands for. *)
Definition escapeOf (c : N) : option N :=
  if (c =? 34)%N then Some 34%N          (* quote *)
  else if (c =? 92)%N then Some 92%N     (* backslash *)
  else if (c =? 47)%N then Some 47%N     (* slash *)
  else if (c =? 98)%N then Some 8%N      (* b *)
  else if (c =? 102)%N then Some 12%N    (* f *)
  else if (c =? 110)%N then Some 10%N    (* n *)
  else if (c =? 114)%N then Some 13%N    (* r *)
  else if (c =? 116)%N then Some 9%N     (* t *)
  else None.

(** The characters of a string up to its closing quote, escapes decoded;
    [acc] holds the units read so far, last first. *)
Fixpoint parseChars (s acc : jsstring) : option (jsstring * jsstring) :=
  match s with
  | [] => None
  | c :: r =>
    if (c =? 34)%N then Some (rev acc, r)
    else if (c =? 92)%N then
      match r with
      | e :: r' =>
        if (e =? 117)%N then
          match r' with
          | h1 :: h2 :: h3 :: h4 :: r'' =>
            match hexValue h1, hexValue h2, hexValue h3, hexValue h4 with
            | Some a, Some b, Some c', Some d =>
              parseChars r'' ((((a * 16 + b) * 16 + c') * 16 + d)%N :: acc)
            | _, _, _, _ => None
            end
          | _ => None
          end
        else
          match escapeOf e with
          | Some u => parseChars r' (u :: acc)
          | None => None
          end
      | [] => None
      end
    else if (c <? 32)%N then None
    else parseChars r (c :: acc)
  end.

Fixpoint takeDigits (s : jsstring) : jsstring * jsstring :=
  match s with
  | c :: r =>
    if isDigit c then let '(d, t) := takeDigits r in (c :: d, t) else ([], s)
  | [] => ([], [])
  end.

Definition valueOfDigits (d : jsstring) : N :=
  fold_left (fun a c => (a * 10 + (c - 48))%N) d 0%N.

(** A number literal: [-? int frac? exp?]. *)
Definition parseNumber (s : jsstring) : option (JSValue * jsstring) :=
  let '(neg, s1) :=
    match s with
    | c :: r => if (c =? 45)%N then (true, r) else (false, s)
    | [] => (false, s)
    end in
  let '(int, s2) := takeDigits s1 in
  let leadingZero :=
    match int with
    | c :: _ :: _ => (c =? 48)%N
    | _ => false
    end in
  match int with
  | [] => None
  | _ =>
    if leadingZero then None
    else
      let '(frac, s3, fracOk) :=
        match s2 with
        | c :: r =>
          if (c =? 46)%N then
            let '(f, t) := takeDigits r in
            (f, t, match f with [] => false | _ => true end)
          else ([], s2, true)
        | [] => ([], s2, true)
        end in
      let '(e, s4, expOk) :=
        match s3 with
        | c :: r =>
          if ((c =? 101) || (c =? 69))%N then
            let '(minus, r1) :=
              match r with
              | g :: r' =>
                if (g =? 45)%N then (true, r')
                else if (g =? 43)%N then (false, r')
                else (false, r)
              | [] => (false, r)
              end in
            let '(ed, t) := takeDigits r1 in
            let v := Z.of_N (valueOfDigits ed) in
            ((if minus then - v else v)%Z, t,
             match ed with [] => false | _ => true end)
          else (0%Z, s3, true)
        | [] => (0%Z, s3, true)
        end in
      if fracOk && expOk then
        Some (JNumber {| negative := neg;
                         digits := valueOfDigits (int ++ frac);
                         exp10 := (e - Z.of_nat (List.length frac))%Z |}, s4)
      else None
  end.

(** [s] without the prefix [p], when it starts with it. *)
Fixpoint stripPrefix (p s : jsstring) : option jsstring :=
  match p, s with
  | [], _ => Some s
  | x :: p', y :: s' => if (x =? y)%N then stripPrefix p' s' else None
  | _ :: _, [] => None
  end.

(** One value and the text after it.  Every call reads at least one unit, so
    as many calls as the text has units, and one more, are enough. *)
Fixpoint parseValue (fuel : nat) (s : jsstring) : option (JSValue * jsstring) :=
  match fuel with
  | O => None
  | S fuel' =>
    match skipWhite s with
    | [] => None
    | c :: r =>
      if (c =? 123)%N then                       (* object *)
        match skipWhite r with
        | d :: t =>
          if (d =? 125)%N then Some (JObject [], t)
          else parseMembers fuel' r []
        | [] => None
        end
      else if (c =? 91)%N then                   (* array *)
        match skipWhite r with
        | d :: t =>
          if (d =? 93)%N then Some (JArray [], t)
          else parseElements fuel' r []
        | [] => None
        end
      else if (c =? 34)%N then                   (* string *)
        match parseChars r [] with
        | Some (str, t) => Some (JString str, t)
        | None => None
        end
      else
        match stripPrefix (lit "true") (c :: r),
              stripPrefix (lit "false") (c :: r),
              stripPrefix (lit "null") (c :: r) with
        | Some t, _, _ => Some (JBool true, t)
        | _, Some t, _ => Some (JBool false, t)
        | _, _, Some t => Some (JNull, t)
        | None, None, None => parseNumber (c :: r)
        end
    end
  end
with parseElements (fuel : nat) (s : jsstring) (acc : list JSValue)
  : option (JSValue * jsstring) :=
  match fuel with
  | O => None
  | S fuel' =>
    match parseValue fuel' s with
    | Some (v, t) =>
      match skipWhite t with
      | c :: t' =>
        if (c =? 44)%N then parseElements fuel' t' (v :: acc)
        else if (c =? 93)%N then Some (JArray (rev (v :: acc)), t')
        else None
      | [] => None
      end
    | None => None
    end
  end
with parseMembers (fuel : nat) (s : jsstring) (acc : list (jsstring * JSValue))
  : option (JSValue * jsstring) :=
  match fuel with
  | O => None
  | S fuel' =>
    match skipWhite s with
    | q :: r =>
      if (q =? 34)%N then
        match parseChars r [] with
        | Some (key, t) =>
          match skipWhite t with
          | c :: t' =>
            if (c =? 58)%N then
              match parseValue fuel' t' with
              | Some (v, u) =>
                match skipWhite u with
                | d :: u' =>
                  if (d =? 44)%N then parseMembers fuel' u' ((key, v) :: acc)
                  else if (d =? 125)%N then
                    Some (JObject (rev ((key, v) :: acc)), u')
                  else None
                | [] => None
                end
              | None => None
              end
            else None
          | [] => None
          end
        | None => None
        end
      else None
    | [] => None
    end
  end.

(** [JSON.parse(text)]; [None] is the SyntaxError it throws. *)
Definition parse (text : jsstring) : option JSValue :=
  match parseValue (S (List.length text)) text with
  | Some (v, rest) =>
    match skipWhite rest with
    | [] => Some v
    | _ => None
    end
  | None => None
  end.

End JSON.

(* ================================================================== *)
(** * The search service ([services/youtube.ts]) *)
(* ================================================================== *)

Module Youtube.
Import JS.

Definition bindCompletion {A B} (c : Completion A) (k : A -> Completion B)
  : Completion B :=
  match c with
  | Normal a => k a
  | Throw e => Throw e
  end.

Notation "x <- c ;; k" := (bindCompletion c (fun x => k))
  (at level 61, c at next level, right associativity).

(** ** The record mapper *)

(** [url]: the page URL the tool gave, or the watch URL built from the id,
    [`https://youtube.com/watch?v=${data.id}`]. *)
Inductive VideoUrl :=
| UrlGiven (webpage_url : JSValue)
| UrlWatch (id : JSValue).

(** [new Date(`${year}-${month}-${day}`)], by the three slices it is built from. *)
Inductive UploadDate :=
| DateOfParts (year month day : JSValue).

(** [formatDuration]'s text; [DurationOf seconds] stands for the text the
    same arithmetic yields on a value that is not a small integer. *)
Inductive Duration :=
| DurationText (text : jsstring)
| DurationOf (seconds : JSValue).

Record VideoInfo := {
  id : JSValue;
  title : JSValue;
  url : VideoUrl;
  channel : JSValue;
  channelUrl : JSValue;
  viewCount : JSValue;
  likeCount : JSValue;
  duration : option Duration;
  thumbnail : JSValue;
  publishedAt : option UploadDate;
  description : JSValue
}.

Definition colon : jsstring := lit ":".

(** The body of [formatDuration] on an integer number of seconds: [/] then
    [Math.floor] is the floor quotient, [%] the remainder of the sign of the
    dividend. *)
Definition formatSeconds (seconds : Z) : jsstring :=
  let hrs := (seconds / 3600)%Z in
  let mins := (Z.rem seconds 3600 / 60)%Z in
  let secs := Z.rem seconds 60 in
  if (hrs >? 0)%Z then
    textOfZ hrs ++ colon ++ padStart2 (textOfZ mins)
      ++ colon ++ padStart2 (textOfZ secs)
  else textOfZ mins ++ colon ++ padStart2 (textOfZ secs).

(** [seconds / 3600] converts a truthy value that is not a number, and
    throws when that cannot be converted. *)
Definition formatDuration (seconds : JSValue) : Completion (option Duration) :=
  if negb (truthy seconds) then Normal None
  else
    match seconds with
    | JNumber n =>
      Normal (Some match integerOf n with
                   | Some s => DurationText (formatSeconds s)
                   | None => DurationOf seconds
                   end)
    | _ =>
      if convertible seconds then Normal (Some (DurationOf seconds))
      else Throw notConvertible
    end.

(** The upload-date block: strings and arrays have a [slice]; calling it on
    any other truthy value is a TypeError.  The template converts the three
    slices to text, which for the slices of an array can fail. *)
Definition parseUploadDate (upload_date : JSValue)
  : Completion (option UploadDate) :=
  if truthy upload_date then
    match upload_date with
    | JString s =>
      Normal (Some (DateOfParts (JString (slice s 0 (Some 4%Z)))
                                (JString (slice s 4 (Some 6%Z)))
                                (JString (slice s 6 (Some 8%Z)))))
    | JArray l =>
      let year := JArray (slice l 0 (Some 4%Z)) in
      let month := JArray (slice l 4 (Some 6%Z)) in
      let day := JArray (slice l 6 (Some 8%Z)) in
      if convertible year && convertible month && convertible day then
        Normal (Some (DateOfParts year month day))
      else Throw notConvertible
    | _ => Throw (TypeError (lit "data.upload_date.slice is not a function"))
    end
  else Normal None.

(** [data.webpage_url || `https://youtube.com/watch?v=${data.id}`]: the
    template is evaluated, and [data.id] converted to text, only when there
    is no page URL. *)
Definition urlOf (webpage_url id : JSValue) : Completion VideoUrl :=
  if truthy webpage_url then Normal (UrlGiven webpage_url)
  else if convertible id then Normal (UrlWatch id)
  else Throw notConvertible.

Definition parseVideoInfo (data : JSValue) : Completion VideoInfo :=
  upload_date <- getField data "upload_date" ;;
  publishedAt <- parseUploadDate upload_date ;;
  id <- getField data "id" ;;
  title <- getField data "title" ;;
  webpage_url <- getField data "webpage_url" ;;
  channel <- getField data "channel" ;;
  uploader <- getField data "uploader" ;;
  channel_url <- getField data "channel_url" ;;
  uploader_url <- getField data "uploader_url" ;;
  view_count <- getField data "view_count" ;;
  like_count <- getField data "like_count" ;;
  duration <- getField data "duration" ;;
  thumbnail <- getField data "thumbnail" ;;
  description <- getField data "description" ;;
  url <- urlOf webpage_url id ;;
  duration <- formatDuration duration ;;
  Normal {|
    id := id;
    title := or_else title (JString (lit "Unknown Title"));
    url := url;
    channel := or_else (or_else channel uploader)
                       (JString (lit "Unknown Channel"));
    channelUrl := or_else channel_url uploader_url;
    viewCount := or_else view_count (JNumber (numberOfZ 0));
    likeCount := like_count;
    duration := duration;
    thumbnail := thumbnail;
    publishedAt := publishedAt;
    description := description
  |}.

(** ** The stream parser *)

(** A ['data'] event's payload: [Buffer | string]. *)
Inductive Chunk :=
| OfBuffer (bytes : list byte)
| OfString (text : jsstring).

Definition toString (chunk : Chunk) : jsstring :=
  match chunk with
  | OfBuffer bytes => utf8Decode bytes
  | OfString text => text
  end.

Definition MAX_BUFFER_CHARS : Z := 5000000.

(** The closure state of one search: [buffer] and [videos]. *)
Record Collector := {
  buffer : jsstring;
  videos : list VideoInfo
}.

Definition emptyCollector : Collector := {| buffer := []; videos := [] |}.

(** The text of a stream: what its chunks decode to, end to end. *)
Definition textOf (stdout : list Chunk) : jsstring :=
  List.concat (map toString stdout).

(** ** Lines of a text, for the statements about the parser *)

Definition noLF (s : jsstring) : Prop := ~ In LF s.

(** The complete lines of a text, and what follows its last line feed. *)
Fixpoint frames (s : jsstring) : list jsstring * jsstring :=
  match s with
  | [] => ([], [])
  | c :: r =>
    let '(ls, rest) := frames r in
    if N.eqb c LF then ([] :: ls, rest)
    else
      match ls with
      | [] => ([], c :: rest)
      | l :: ls' => ((c :: l) :: ls', rest)
      end
  end.

(** Lines joined by line feeds, and lines each ended by one. *)
Fixpoint joinLines (lines : list jsstring) : jsstring :=
  match lines with
  | [] => []
  | [l] => l
  | l :: rest => l ++ LF :: joinLines rest
  end.

Definition endLines (lines : list jsstring) : jsstring :=
  List.concat (map (fun l => l ++ [LF]) lines).

(** A payload of complete lines, with or without a final line feed. *)
Definition payloadOf (lines : list jsstring) (finalLF : bool) : jsstring :=
  if finalLF then endLines lines else joinLines lines.

Definition isAscii (b : byte) : bool := (Byte.to_N b <? 128)%N.

Section Parser.

(** [JSON.parse]: the decoded value, or [None] when it throws. *)
Variable JSON_parse : jsstring -> option JSValue.

(** The record a line decodes to, if any: what the [try] block of
    [tryParseLine] pushes. *)
Definition decodeLine (line : jsstring) : option VideoInfo :=
  let trimmed := trim line in
  match trimmed with
  | [] => None
  | _ =>
    match JSON_parse trimmed with
    | Some info =>
      match parseVideoInfo info with
      | Normal video => Some video
      | Throw _ => None
      end
    | None => None
    end
  end.

Definition tryParseLine (line : jsstring) (st : Collector) : Collector :=
  match decodeLine line with
  | Some video => {| buffer := buffer st; videos := videos st ++ [video] |}
  | None => st
  end.

(** The [while (true)] loop of [consumeNdjson]; every turn shortens the
    buffer, so [fuel] above its length reaches the [break]. *)
Fixpoint consumeLoop (fuel : nat) (st : Collector) : Collector :=
  match fuel with
  | O => st
  | S fuel' =>
    let nl := indexOf (buffer st) LF in
    if (nl =? -1)%Z then st
    else
      let line := slice (buffer st) 0 (Some nl) in
      let line := if endsWith line CR then slice line 0 (Some (-1)%Z) else line in
      let st' := {| buffer := slice (buffer st) (nl + 1) None;
                    videos := videos st |} in
      consumeLoop fuel' (tryParseLine line st')
  end.

Definition consumeNdjson (st : Collector) (chunk : Chunk) : Collector :=
  let buffer := buffer st ++ toString chunk in
  if (Z.of_nat (List.length buffer) >? MAX_BUFFER_CHARS)%Z then
    {| buffer := []; videos := videos st |}
  else
    consumeLoop (S (List.length buffer)) {| buffer := buffer; videos := videos st |}.

Definition flushNdjson (st : Collector) : Collector :=
  match buffer st with
  | [] => st
  | _ =>
    fold_left (fun acc line => tryParseLine line acc)
              (splitLines (buffer st))
              {| buffer := []; videos := videos st |}
  end.

(** The records of a list of lines, in order. *)
Definition decodeAll (lines : list jsstring) : list VideoInfo :=
  flat_map (fun l => match decodeLine l with
                     | Some v => [v]
                     | None => []
                     end) lines.

(** ** The process and the promise *)

(** One run of the spawned tool, as the handlers see it: the ['error'] event
    of a failed spawn, with the message of its Error, or the ['data'] events
    of its output followed by ['close'] with the exit code ([None]: killed by
    a signal). *)
Inductive ProcessRun :=
| SpawnFailed (message : jsstring)
| Exited (stdout : list Chunk) (code : option Z).

Definition textOfCode (code : option Z) : jsstring :=
  match code with
  | Some c => textOfZ c
  | None => lit "null"
  end.

(** [s.includes(needle)]. *)
Fixpoint includes (s needle : jsstring) : bool :=
  match JSON.stripPrefix needle s with
  | Some _ => true
  | None =>
    match s with
    | _ :: r => includes r needle
    | [] => false
    end
  end.

Definition notInstalledMessage : jsstring :=
  lit "yt-dlp가 설치되어 있지 않습니다. 먼저 설치해주세요.".

Definition exitMessage (code : option Z) : jsstring :=
  lit "yt-dlp exited with code " ++ textOfCode code.

(** The state of the parser when the stream has been read. *)
Definition drain (stdout : list Chunk) : Collector :=
  fold_left consumeNdjson stdout emptyCollector.

(** What the promise of [searchYouTube] settles to for a run. *)
Definition searchOutcome (run : ProcessRun) : Completion (list VideoInfo) :=
  match run with
  | SpawnFailed message =>
    if includes message (lit "ENOENT") then Throw (Error notInstalledMessage)
    else Throw (Error message)
  | Exited stdout code =>
    let st := flushNdjson (drain stdout) in
    let nonzero := match code with Some 0%Z => false | _ => true end in
    if nonzero && (List.length (videos st) =? 0)%nat then
      Throw (Error (exitMessage code))
    else Normal (videos st)
  end.

(** The records of a stream, read to its end and flushed. *)
Definition parsedRecords (stdout : list Chunk) : list VideoInfo :=
  videos (flushNdjson (drain stdout)).

End Parser.

(** ** Dates

    A time value is a number of milliseconds since the epoch; an invalid
    date is [None]. *)

Definition msPerDay : Z := 86400000.
Definition maxTime : Z := 8640000000000000.

(** Year, month (1 to 12) and day of the month of a day number (days since
    1 January 1970), proleptic Gregorian. *)
Definition civilFromDays (day : Z) : Z * Z * Z :=
  let z := (day + 719468)%Z in
  let era := (z / 146097)%Z in
  let doe := (z - era * 146097)%Z in
  let yoe := ((doe - doe / 1460 + doe / 36524 - doe / 146096) / 365)%Z in
  let doy := (doe - (365 * yoe + yoe / 4 - yoe / 100))%Z in
  let mp := ((5 * doy + 2) / 153)%Z in
  let d := (doy - (153 * mp + 2) / 5 + 1)%Z in
  let m := if (mp <? 10)%Z then (mp + 3)%Z else (mp - 9)%Z in
  let y := (yoe + era * 400 + (if (m <=? 2)%Z then 1 else 0))%Z in
  (y, m, d).

(** The last [width] decimal digits of [n], zero-padded. *)
Fixpoint fixedDecimal (width : nat) (n : Z) : jsstring :=
  match width with
  | O => []
  | S w => fixedDecimal w (n / 10) ++ [Z.to_N (48 + n mod 10)]
  end.

Definition TimeClip (t : Z) : option Z :=
  if (Z.abs t <=? maxTime)%Z then Some t else None.

(** The year of an ISO date: four digits, or a sign and six. *)
Definition isoYear (y : Z) : jsstring :=
  if ((0 <=? y) && (y <=? 9999))%Z then fixedDecimal 4 y
  else (if (y <? 0)%Z then lit "-" else lit "+") ++ fixedDecimal 6 (Z.abs y).

(** The date and the time of day of an ISO timestamp, [YYYY-MM-DD] and
    [HH:mm:ss.sss], from the UTC fields of a time value. *)
Definition isoDate (t : Z) : jsstring :=
  let '(y, m, d) := civilFromDays (t / msPerDay) in
  isoYear y ++ lit "-" ++ fixedDecimal 2 m ++ lit "-" ++ fixedDecimal 2 d.

Definition isoTime (t : Z) : jsstring :=
  let ms := (t mod msPerDay)%Z in
  fixedDecimal 2 (ms / 3600000)
  ++ lit ":" ++ fixedDecimal 2 (ms / 60000 mod 60)
  ++ lit ":" ++ fixedDecimal 2 (ms / 1000 mod 60)
  ++ lit "." ++ fixedDecimal 3 (ms mod 1000).

(** [Date.prototype.toISOString]; a RangeError on an invalid date. *)
Definition toISOString (date : option Z) : Completion jsstring :=
  match date with
  | None => Throw (RangeError (lit "Invalid time value"))
  | Some t => Normal (isoDate t ++ lit "T" ++ isoTime t ++ lit "Z")
  end.

(** [s.replace(/-/g, '')]. *)
Definition removeDashes (s : jsstring) : jsstring :=
  filter (fun c => negb (c =? 45)%N) s.

(** ** The argument list *)

Inductive Sort := SortRelevance | SortUploadDate | SortViewCount | SortRating.

Inductive DateRange := RangeToday | RangeThisWeek | RangeThisMonth | RangeThisYear.

(** An optional property of an options literal: left out, written with the
    value [undefined], or given. *)
Inductive Field (A : Type) :=
| Missing
| Undefined
| Given (a : A).
Arguments Missing {A}.
Arguments Undefined {A}.
Arguments Given {A} a.

(** [SearchOptions]; [maxAgeDays] counts whole days. *)
Record SearchOptions := {
  limit : Field Z;
  sort : Field Sort;
  dateRange : Field DateRange;
  maxAgeDays : Field Z
}.

Definition noOptions : SearchOptions :=
  {| limit := Missing; sort := Missing; dateRange := Missing; maxAgeDays := Missing |}.

(** One property of [{ ...DEFAULT_OPTIONS, ...options }]: an own property of
    [options] wins, even when its value is [undefined]. *)
Definition spread {A} (default : option A) (own : Field A) : option A :=
  match own with
  | Missing => default
  | Undefined => None
  | Given a => Some a
  end.

Definition DEFAULT_limit : option Z := Some 10%Z.
Definition DEFAULT_sort : option Sort := Some SortViewCount.
Definition DEFAULT_dateRange : option DateRange := None.
Definition DEFAULT_maxAgeDays : option Z := Some 7%Z.

(** [`${limit}`] and [String(limit)]. *)
Definition textOfLimit (limit : option Z) : jsstring :=
  match limit with
  | Some n => textOfZ n
  | None => lit "undefined"
  end.

Definition dateFilter (r : DateRange) : jsstring :=
  match r with
  | RangeToday => lit "today"
  | RangeThisWeek => lit "thisweek"
  | RangeThisMonth => lit "thismonth"
  | RangeThisYear => lit "thisyear"
  end.

(** A decimal digit. *)
Definition isDecimalDigit (c : N) : Prop := (48 <= c <= 57)%N.

Section Clock.

(** The host's time zone: the offset of local time from UTC, in
    milliseconds, at a time value given in UTC ([true]) or in local time
    ([false]). *)
Variable LocalTZA : Z -> bool -> Z.

Definition LocalTime (t : Z) : Z := (t + LocalTZA t true)%Z.
Definition UTC (t : Z) : Z := (t - LocalTZA t false)%Z.

(** [date.getDate()]: the day of the month, in local time. *)
Definition getDate (t : Z) : Z :=
  let '(_, _, d) := civilFromDays (LocalTime t / msPerDay) in d.

(** [date.setDate(dt)]: the same month and time of day, local, on day [dt]
    counted from the first of the month (days before 1 or past the end of
    the month run on into the neighbouring months). *)
Definition setDate (t dt : Z) : option Z :=
  let local := LocalTime t in
  let '(_, _, d) := civilFromDays (local / msPerDay) in
  let first := (local / msPerDay - (d - 1))%Z in
  let newLocal := ((first + dt - 1) * msPerDay + local mod msPerDay)%Z in
  TimeClip (UTC newLocal).

(** [date.setHours(0, 0, 0, 0)]: local midnight of the day of [t]. *)
Definition setHoursZero (t : Z) : option Z :=
  let local := LocalTime t in
  TimeClip (UTC (local / msPerDay * msPerDay)).

(** The arguments depend on the clock through the cutoff date. *)

(** The truthy [opts.maxAgeDays], if it is. *)
Definition effectiveMaxAge (options : SearchOptions) : option Z :=
  match spread DEFAULT_maxAgeDays (maxAgeDays options) with
  | Some n => if (n =? 0)%Z then None else Some n
  | None => None
  end.

(** The [YYYYMMDD] text of the day [days] before [now]. *)
Definition cutoffDate (now days : Z) : Completion jsstring :=
  iso <- toISOString (setDate now (getDate now - days)) ;;
  Normal (removeDashes (slice iso 0 (Some 10%Z))).

(** The arguments [searchYouTube] spawns the tool with, at time [now]. *)
Definition searchArgs (now : Z) (keyword : jsstring) (options : SearchOptions)
  : Completion (list jsstring) :=
  let limit := spread DEFAULT_limit (limit options) in
  let sort := spread DEFAULT_sort (sort options) in
  let dateRange := spread DEFAULT_dateRange (dateRange options) in
  let searchPrefix :=
    match effectiveMaxAge options with
    | Some _ => lit "ytsearchdate"
    | None => lit "ytsearch"
    end in
  let searchQuery := searchPrefix ++ textOfLimit limit ++ lit ":" ++ keyword in
  let args := [searchQuery; lit "--dump-json"; lit "--flat-playlist";
               lit "--no-warnings"; lit "--quiet"] in
  let args :=
    match sort with
    | Some SortRelevance | None => args
    | Some _ => args ++ [lit "--playlist-end"; textOfLimit limit]
    end in
  match effectiveMaxAge options with
  | Some days =>
    dateStr <- cutoffDate now days ;;
    Normal (args ++ [lit "--dateafter"; dateStr])
  | None =>
    match dateRange with
    | Some r => Normal (args ++ [lit "--dateafter"; dateFilter r])
    | None => Normal args
    end
  end.

End Clock.

End Youtube.

(* ================================================================== *)
(** * The collector ([services/collector.ts]) *)
(* ================================================================== *)

Module Collector.
Import JS Youtube.

(** ** The tables of [db/schema.ts]

    A nullable column is an [option]; a timestamp column holds whole
    seconds, as the driver stores a [Date]. *)

Module Keyword.
Record Row := {
  id : Z;
  name : jsstring;
  category : option jsstring;
  isActive : option bool;
  createdAt : option Z
}.
End Keyword.

Module Video.
Record Row := {
  id : Z;
  videoId : jsstring;
  keywordId : option Z;
  title : jsstring;
  url : jsstring;
  channelName : option jsstring;
  viewCount : option Z;
  likeCount : option Z;
  duration : option jsstring;
  thumbnail : option jsstring;
  publishedAt : option Z;
  collectedAt : option Z
}.
End Video.

Module Trend.
Record Row := {
  id : Z;
  keywordId : option Z;
  date : Z;
  period : jsstring;
  videoCount : option Z;
  totalViews : option Z;
  avgViews : option Z;
  topVideoId : option Z;
  createdAt : option Z
}.
End Trend.

Inductive Status := success | partial | failed.

Module Log.
Record Row := {
  id : Z;
  startedAt : option Z;
  completedAt : option Z;
  keywordCount : option Z;
  videoCount : option Z;
  status : option Status;
  error : option jsstring
}.
End Log.

Record Database := {
  keywords : list Keyword.Row;
  videos : list Video.Row;
  trends : list Trend.Row;
  collectionLogs : list Log.Row
}.

(** The id an autoincrement key gives the next row: above every id in use
    (the least such id; the sequence of the table may be further on). *)
Definition nextId (ids : list Z) : Z := (fold_right Z.max 0 ids + 1)%Z.

(** A [Date] as a timestamp column stores it. *)
Definition timestamp (ms : Z) : Z := (ms / 1000)%Z.

(** ** The world a run acts on *)

(** The database, the clock, and the argument lists the tool was spawned
    with so far, oldest first. *)
Record World := {
  db : Database;
  now : Z;
  spawned : list (list jsstring)
}.

Definition withDb (w : World) (d : Database) : World :=
  {| db := d; now := now w; spawned := spawned w |}.

Definition sleep (ms : Z) (w : World) : World :=
  {| db := db w; now := (now w + ms)%Z; spawned := spawned w |}.

Record CollectResult := {
  keywordId : Z;
  keywordName : jsstring;
  videosCollected : Z;
  errors : option jsstring
}.

Record CollectAllResult := {
  startedAt : Z;
  completedAt : Z;
  totalKeywords : Z;
  totalVideos : Z;
  results : list CollectResult;
  status : Status
}.

(** The object handed to [db.insert(videos).values(...)]. *)
Record VideoValues := {
  values_videoId : JSValue;
  values_keywordId : Z;
  values_title : JSValue;
  values_url : VideoUrl;
  values_channelName : JSValue;
  values_viewCount : JSValue;
  values_likeCount : JSValue;
  values_duration : option Duration;
  values_thumbnail : JSValue;
  values_publishedAt : option UploadDate
}.

(** [if (result.errors)]: a string is truthy when it is not empty. *)
Definition hasError (r : CollectResult) : bool :=
  match errors r with
  | Some (_ :: _) => true
  | _ => false
  end.

(** The run status [collectAll] logs and returns. *)
Definition classify (hasErrors : bool) (totalVideos : Z) : Status :=
  if hasErrors then partial
  else if (totalVideos >? 0)%Z then success
  else failed.

(** The count in a row's [view_count] column, a NULL counting for none. *)
Definition views (v : Video.Row) : Z :=
  match Video.viewCount v with
  | Some n => n
  | None => 0%Z
  end.

(** [v.viewCount || 0]: the driver hands the 64-bit column over as a Number. *)
Definition viewCountOf (v : Video.Row) : Z := numberOfInteger (views v).

(** [Math.round(a / b)] for a positive [b]: the quotient is a double, rounded
    once by the division and once more to an integer, a half going up. *)
Definition roundDiv (a b : Z) : Z := Math_round (divide a b).

(** [todayVideos.reduce((max, v) => (v.viewCount || 0) > (max.viewCount || 0) ? v : max)]. *)
Definition topOf (first : Video.Row) (rest : list Video.Row) : Video.Row :=
  fold_left (fun max v => if (viewCountOf v >? viewCountOf max)%Z then v else max)
            rest first.

(** The four aggregate columns [updateTrends] writes. *)
Record Aggregate := {
  agg_videoCount : Z;
  agg_totalViews : Z;
  agg_avgViews : Z;
  agg_topVideoId : Z
}.

Definition aggregate (first : Video.Row) (rest : list Video.Row) : Aggregate :=
  let todayVideos := first :: rest in
  let totalViews := fold_left (fun sum v => add sum (viewCountOf v)) todayVideos 0%Z in
  {| agg_videoCount := Z.of_nat (List.length todayVideos);
     agg_totalViews := totalViews;
     agg_avgViews := roundDiv totalViews (Z.of_nat (List.length todayVideos));
     agg_topVideoId := Video.id (topOf first rest) |}.

Definition daily : jsstring := lit "daily".

(** The videos of a keyword collected since [today]. *)
Definition todayVideosOf (today keywordId : Z) (videos : list Video.Row)
  : list Video.Row :=
  filter (fun v =>
            match Video.keywordId v, Video.collectedAt v with
            | Some k, Some at_ => (k =? keywordId)%Z && (timestamp today <=? at_)%Z
            | _, _ => false
            end) videos.

(** The [where] clause of the trend lookup. *)
Definition isDailyTrend (today keywordId : Z) (t : Trend.Row) : bool :=
  match Trend.keywordId t with
  | Some k => (k =? keywordId)%Z
  | None => false
  end
  && (Trend.date t =? timestamp today)%Z
  && jsstring_eqb (Trend.period t) daily.

Definition setAggregate (a : Aggregate) (t : Trend.Row) : Trend.Row :=
  {| Trend.id := Trend.id t;
     Trend.keywordId := Trend.keywordId t;
     Trend.date := Trend.date t;
     Trend.period := Trend.period t;
     Trend.videoCount := Some (agg_videoCount a);
     Trend.totalViews := Some (agg_totalViews a);
     Trend.avgViews := Some (agg_avgViews a);
     Trend.topVideoId := Some (agg_topVideoId a);
     Trend.createdAt := Trend.createdAt t |}.

(** One turn of the loop of [updateTrends]: the trends table after the
    keyword's aggregate has been written at time [at_]. *)
Definition updateTrend (today at_ : Z) (videos : list Video.Row)
  (trends : list Trend.Row) (keyword : Keyword.Row) : list Trend.Row :=
  match todayVideosOf today (Keyword.id keyword) videos with
  | [] => trends
  | first :: rest =>
    let a := aggregate first rest in
    match find (isDailyTrend today (Keyword.id keyword)) trends with
    | Some existing =>
      map (fun t => if (Trend.id t =? Trend.id existing)%Z then setAggregate a t else t)
          trends
    | None =>
      trends ++
      [{| Trend.id := nextId (map Trend.id trends);
          Trend.keywordId := Some (Keyword.id keyword);
          Trend.date := timestamp today;
          Trend.period := daily;
          Trend.videoCount := Some (agg_videoCount a);
          Trend.totalViews := Some (agg_totalViews a);
          Trend.avgViews := Some (agg_avgViews a);
          Trend.topVideoId := Some (agg_topVideoId a);
          Trend.createdAt := Some (timestamp at_) |}]
    end
  end.

(** The loop of [updateTrends] over all keywords, for the day that starts at [today]. *)
Definition updateTrendsAt (today at_ : Z) (d : Database) : Database :=
  {| keywords := keywords d;
     videos := videos d;
     trends := fold_left (updateTrend today at_ (videos d)) (keywords d) (trends d);
     collectionLogs := collectionLogs d |}.

(** ** Notions for the statements about aggregation and runs *)

(** The sum of the views of a list of videos. *)
Definition totalViewsOf (vs : list Video.Row) : Z :=
  fold_right (fun v total => (views v + total)%Z) 0%Z vs.

(** [top] is the first video of [vs] with the most views. *)
Definition firstMax (top : Video.Row) (vs : list Video.Row) : Prop :=
  exists before after,
    vs = before ++ top :: after
    /\ (forall v, In v before -> (views v < views top)%Z)
    /\ (forall v, In v after -> (views v <= views top)%Z).

(** The aggregate [updateTrends] computes for a keyword, if it has videos today. *)
Definition aggregateOf (today : Z) (videos : list Video.Row) (keywordId : Z)
  : option Aggregate :=
  match todayVideosOf today keywordId videos with
  | [] => None
  | first :: rest => Some (aggregate first rest)
  end.

(** The keyword's row for today holds its aggregate. *)
Definition recorded (today : Z) (videos : list Video.Row)
  (trends : list Trend.Row) (keywordId : Z) : Prop :=
  forall a, aggregateOf today videos keywordId = Some a ->
  exists row,
    find (isDailyTrend today keywordId) trends = Some row /\ setAggregate a row = row.

(** The videos the per-keyword results of a run count, in all. *)
Definition sumCollected (rs : list CollectResult) : Z :=
  fold_right (fun r total => (videosCollected r + total)%Z) 0%Z rs.

Section Run.

(** The host the collector runs on: its time zone and [JSON.parse], the
    tool (what the n-th spawn does with its arguments, and how long it
    takes), and the database driver (the row it stores for the values of an
    insert, or what it throws; of the row only the columns that the values
    set are read). *)
Variable LocalTZA : Z -> bool -> Z.
Variable JSON_parse : jsstring -> option JSValue.
Variable ytdlp : nat -> list jsstring -> ProcessRun * Z.
Variable bindRow : VideoValues -> Completion Video.Row.

(** [spawn('yt-dlp', args)], up to the end of the run. *)
Definition spawn (args : list jsstring) (w : World) : ProcessRun * World :=
  let '(run, took) := ytdlp (List.length (spawned w)) args in
  (run, {| db := db w; now := (now w + took)%Z; spawned := spawned w ++ [args] |}).

Definition searchYouTube (keyword : jsstring) (options : SearchOptions) (w : World)
  : Completion (list VideoInfo) * World :=
  match searchArgs LocalTZA (now w) keyword options with
  | Throw e => (Throw e, w)
  | Normal args =>
    let '(run, w') := spawn args w in
    (searchOutcome JSON_parse run, w')
  end.

Definition checkYtDlp (w : World) : bool * World :=
  let '(run, w') := spawn [lit "--version"] w in
  (match run with
   | Exited _ (Some 0%Z) => true
   | _ => false
   end, w').

(** [db.insert(videos).values(...).onConflictDoUpdate(...)]: a video seen
    before has its title, counts and collection time refreshed; a new one is
    added. *)
Definition upsertVideo (values : VideoValues) (w : World) : Completion World :=
  row <- bindRow values ;;
  let collectedAt := Some (timestamp (now w)) in
  let table := videos (db w) in
  let table' :=
    match find (fun v => jsstring_eqb (Video.videoId v) (Video.videoId row)) table with
    | Some _ =>
      map (fun v =>
             if jsstring_eqb (Video.videoId v) (Video.videoId row) then
               {| Video.id := Video.id v;
                  Video.videoId := Video.videoId v;
                  Video.keywordId := Video.keywordId v;
                  Video.title := Video.title row;
                  Video.url := Video.url v;
                  Video.channelName := Video.channelName v;
                  Video.viewCount := Video.viewCount row;
                  Video.likeCount := Video.likeCount row;
                  Video.duration := Video.duration v;
                  Video.thumbnail := Video.thumbnail v;
                  Video.publishedAt := Video.publishedAt v;
                  Video.collectedAt := collectedAt |}
             else v) table
    | None =>
      table ++
      [{| Video.id := nextId (map Video.id table);
          Video.videoId := Video.videoId row;
          Video.keywordId := Video.keywordId row;
          Video.title := Video.title row;
          Video.url := Video.url row;
          Video.channelName := Video.channelName row;
          Video.viewCount := Video.viewCount row;
          Video.likeCount := Video.likeCount row;
          Video.duration := Video.duration row;
          Video.thumbnail := Video.thumbnail row;
          Video.publishedAt := Video.publishedAt row;
          Video.collectedAt := collectedAt |}]
    end in
  Normal (withDb w {| keywords := keywords (db w);
                      videos := table';
                      trends := trends (db w);
                      collectionLogs := collectionLogs (db w) |}).

(** The body of the [for] loop over the search results: a failed save is
    logged and skipped. *)
Definition saveVideo (keyword : Keyword.Row) (acc : Z * World) (video : VideoInfo)
  : Z * World :=
  let '(collectedCount, w) := acc in
  match upsertVideo {| values_videoId := Youtube.id video;
                       values_keywordId := Keyword.id keyword;
                       values_title := Youtube.title video;
                       values_url := Youtube.url video;
                       values_channelName := Youtube.channel video;
                       values_viewCount :=
                         or_else (Youtube.viewCount video) (JNumber (numberOfZ 0));
                       values_likeCount := Youtube.likeCount video;
                       values_duration := Youtube.duration video;
                       values_thumbnail := Youtube.thumbnail video;
                       values_publishedAt := Youtube.publishedAt video |} w with
  | Normal w' => ((collectedCount + 1)%Z, w')
  | Throw _ => (collectedCount, w)
  end.

Definition isActiveTruthy (k : Keyword.Row) : bool :=
  match Keyword.isActive k with
  | Some b => b
  | None => false
  end.

Definition collectByKeyword (keywordId limit : Z) (w : World)
  : Completion (CollectResult * World) :=
  match find (fun k => (Keyword.id k =? keywordId)%Z) (keywords (db w)) with
  | None => Throw (Error (lit "Keyword not found: " ++ textOfZ keywordId))
  | Some keyword =>
    if negb (isActiveTruthy keyword) then
      Normal ({| keywordId := keywordId;
                 keywordName := Keyword.name keyword;
                 videosCollected := 0;
                 errors := Some (lit "Keyword is inactive") |}, w)
    else
      let options := {| limit := Given limit; sort := Missing;
                        dateRange := Missing; maxAgeDays := Missing |} in
      match searchYouTube (Keyword.name keyword) options w with
      | (Normal searchResults, w1) =>
        let '(collectedCount, w2) :=
          fold_left (saveVideo keyword) searchResults (0%Z, w1) in
        Normal ({| keywordId := keywordId;
                   keywordName := Keyword.name keyword;
                   videosCollected := collectedCount;
                   errors := None |}, w2)
      | (Throw error, w1) =>
        Normal ({| keywordId := keywordId;
                   keywordName := Keyword.name keyword;
                   videosCollected := 0;
                   errors := Some (messageOf error) |}, w1)
      end
  end.

(** The variables of the loop of [collectAll]. *)
Record Progress := {
  progress_results : list CollectResult;
  progress_totalVideos : Z;
  progress_hasErrors : bool
}.

(** The sequential [for] loop of [collectAll], with its pause after every keyword. *)
Fixpoint collectLoop (limit : Z) (activeKeywords : list Keyword.Row)
  (p : Progress) (w : World) : Completion (Progress * World) :=
  match activeKeywords with
  | [] => Normal (p, w)
  | keyword :: rest =>
    r <- collectByKeyword (Keyword.id keyword) limit w ;;
    let '(result, w1) := r in
    collectLoop limit rest
      {| progress_results := progress_results p ++ [result];
         progress_totalVideos := (progress_totalVideos p + videosCollected result)%Z;
         progress_hasErrors := progress_hasErrors p || hasError result |}
      (sleep 2000 w1)
  end.

Definition isActiveRow (k : Keyword.Row) : bool :=
  match Keyword.isActive k with
  | Some true => true
  | _ => false
  end.

(** [today]: the local midnight before the clock. *)
Definition startOfToday (t : Z) : Z :=
  UTC LocalTZA (LocalTime LocalTZA t / msPerDay * msPerDay).

Definition updateTrends (w : World) : World :=
  withDb w (updateTrendsAt (startOfToday (now w)) (now w) (db w)).

Definition insertLog (startedAt completedAt keywordCount videoCount : Z)
  (s : Status) (w : World) : World :=
  withDb w {| keywords := keywords (db w);
              videos := videos (db w);
              trends := trends (db w);
              collectionLogs :=
                collectionLogs (db w) ++
                [{| Log.id := nextId (map Log.id (collectionLogs (db w)));
                    Log.startedAt := Some (timestamp startedAt);
                    Log.completedAt := Some (timestamp completedAt);
                    Log.keywordCount := Some keywordCount;
                    Log.videoCount := Some videoCount;
                    Log.status := Some s;
                    Log.error := None |}] |}.

Definition collectAll (limit : Z) (w : World) : Completion (CollectAllResult * World) :=
  let startedAt := now w in
  let '(hasYtDlp, w) := checkYtDlp w in
  if negb hasYtDlp then Throw (Error (lit "yt-dlp is not installed"))
  else
    let activeKeywords := filter isActiveRow (keywords (db w)) in
    match activeKeywords with
    | [] =>
      Normal ({| startedAt := startedAt;
                 completedAt := now w;
                 totalKeywords := 0;
                 totalVideos := 0;
                 results := [];
                 status := success |}, w)
    | _ =>
      r <- collectLoop limit activeKeywords
             {| progress_results := []; progress_totalVideos := 0;
                progress_hasErrors := false |} w ;;
      let '(p, w) := r in
      let completedAt := now w in
      let status := classify (progress_hasErrors p) (progress_totalVideos p) in
      let keywordCount := Z.of_nat (List.length activeKeywords) in
      let w := insertLog startedAt completedAt keywordCount
                         (progress_totalVideos p) status w in
      let w := updateTrends w in
      Normal ({| startedAt := startedAt;
                 completedAt := completedAt;
                 totalKeywords := keywordCount;
                 totalVideos := progress_totalVideos p;
                 results := progress_results p;
                 status := status |}, w)
    end.

End Run.

End Collector.

(* ================================================================== *)
(** * Sample streams, hosts and databases *)
(* ================================================================== *)

Module Sample.
Import JS Youtube Collector.

(** The line [{}], ended by a line feed. *)
Definition oneLine : list byte := list_byte_of_string "{}" ++ [x0a].

(** Five million spaces. *)
Definition padding : list byte := repeat x20 (Z.to_nat 5000000).

(** The line [{}] followed by five million spaces: it decodes, and is longer
    than the buffer may grow. *)
Definition longLine : list byte := list_byte_of_string "{}" ++ padding.

(** The line [{"id":"é"}], whose last letter takes two bytes, cut between them. *)
Definition accentedHead : list byte :=
  list_byte_of_string "{" ++ [x22] ++ list_byte_of_string "id" ++ [x22]
  ++ list_byte_of_string ":" ++ [x22; xc3].
Definition accentedTail : list byte :=
  [xa9; x22] ++ list_byte_of_string "}" ++ [x0a].

(** The object [{"view_count": v}]. *)
Definition counted (v : JSValue) : JSValue := JObject [(lit "view_count", v)].

(** The line [{"id":"<name>"}], ended by a line feed. *)
Definition idLine (name : string) : jsstring :=
  lit "{" ++ [34%N] ++ lit "id" ++ [34%N] ++ lit ":" ++ [34%N] ++ lit name
  ++ [34%N] ++ lit "}" ++ [LF].

(** A host on UTC. *)
Definition utc (_ : Z) (_ : bool) : Z := 0%Z.

(** 1 May 2026, 00:00 UTC. *)
Definition mayFirst : Z := 1777593600000.

(** A tool that answers the version check, finds three videos for the first
    search and fails every later one. *)
Definition tool (n : nat) (_ : list jsstring) : ProcessRun * Z :=
  match n with
  | O => (Exited [OfString (lit "2026.04.01" ++ [LF])] (Some 0%Z), 150%Z)
  | S O =>
    (Exited [OfString (idLine "a" ++ idLine "b"); OfString (idLine "c")] (Some 0%Z),
     4000%Z)
  | _ => (Exited [] (Some 1%Z), 700%Z)
  end.

(** A tool that answers the version check and fails every search. *)
Definition failingTool (n : nat) (_ : list jsstring) : ProcessRun * Z :=
  match n with
  | O => (Exited [OfString (lit "2026.04.01" ++ [LF])] (Some 0%Z), 150%Z)
  | _ => (Exited [] (Some 1%Z), 700%Z)
  end.

Definition textColumn (v : JSValue) : option jsstring :=
  match v with
  | JString s => Some s
  | _ => None
  end.

Definition integerColumn (v : JSValue) : option Z :=
  match v with
  | JNumber n => integerOf n
  | _ => None
  end.

(** A driver that stores strings and integers as they are, and refuses a
    video without an id. *)
Definition driver (values : VideoValues) : Completion Video.Row :=
  match values_videoId values with
  | JString videoId =>
    Normal {| Video.id := 0;
              Video.videoId := videoId;
              Video.keywordId := Some (values_keywordId values);
              Video.title :=
                match textColumn (values_title values) with
                | Some s => s
                | None => []
                end;
              Video.url := [];
              Video.channelName := textColumn (values_channelName values);
              Video.viewCount := integerColumn (values_viewCount values);
              Video.likeCount := integerColumn (values_likeCount values);
              Video.duration := None;
              Video.thumbnail := textColumn (values_thumbnail values);
              Video.publishedAt := None;
              Video.collectedAt := None |}
  | _ => Throw (Error (lit "NOT NULL constraint failed: videos.video_id"))
  end.

Definition keywordRow (id : Z) (name : string) (active : bool) : Keyword.Row :=
  {| Keyword.id := id; Keyword.name := lit name; Keyword.category := None;
     Keyword.isActive := Some active; Keyword.createdAt := None |}.

Definition emptyDatabase (keywords : list Keyword.Row) : Database :=
  {| keywords := keywords; videos := []; trends := []; collectionLogs := [] |}.

(** Two active keywords and one that is switched off. *)
Definition world : World :=
  {| db := emptyDatabase [keywordRow 1 "golang" true; keywordRow 2 "devops" true;
                          keywordRow 3 "nextjs" false];
     now := mayFirst;
     spawned := [] |}.

(** One active keyword. *)
Definition smallWorld : World :=
  {| db := emptyDatabase [keywordRow 1 "golang" true];
     now := mayFirst;
     spawned := [] |}.

Definition videoRow (id : Z) (videoId : string) (viewCount : Z) : Video.Row :=
  {| Video.id := id; Video.videoId := lit videoId; Video.keywordId := Some 1%Z;
     Video.title := lit videoId; Video.url := []; Video.channelName := None;
     Video.viewCount := Some viewCount; Video.likeCount := None;
     Video.duration := None; Video.thumbnail := None; Video.publishedAt := None;
     Video.collectedAt := Some (timestamp (mayFirst + 3600000)) |}.

(** Today's videos of keyword 1, with 100, 300 and 50 views. *)
Definition viewed : Database :=
  {| keywords := [keywordRow 1 "golang" true];
     videos := [videoRow 1 "a" 100; videoRow 2 "b" 300; videoRow 3 "c" 50];
     trends := [];
     collectionLogs := [] |}.

(** Today's videos of keyword 1, with 2^51, 2^51 and 2^51 + 1 views. *)
Definition popular : Database :=
  {| keywords := [keywordRow 1 "golang" true];
     videos := [videoRow 1 "a" (2 ^ 51); videoRow 2 "b" (2 ^ 51);
                videoRow 3 "c" (2 ^ 51 + 1)];
     trends := [];
     collectionLogs := [] |}.

End Sample.

(* ================================================================== *)
(** * The search service as first written ([services/youtube.ts]) *)
(* ================================================================== *)

Module Baseline.
Import JS Youtube.

(** [s.split('\n')]: the pieces between the line feeds. *)
Fixpoint splitLF (s : jsstring) : list jsstring :=
  match s with
  | [] => [[]]
  | c :: r =>
    if N.eqb c LF then [] :: splitLF r
    else
      match splitLF r with
      | l :: ls => (c :: l) :: ls
      | [] => [[c]]
      end
  end.

Section Parser.
Variable JSON_parse : jsstring -> option JSValue.

(** [JSON.parse(text)] mapped by [parseVideoInfo], inside a [try]. *)
Definition decode (text : jsstring) : option VideoInfo :=
  match JSON_parse text with
  | Some info =>
    match parseVideoInfo info with
    | Normal video => Some video
    | Throw _ => None
    end
  | None => None
  end.

(** A line of a ['data'] event: skipped when blank, else parsed as it is. *)
Definition decodeLine (line : jsstring) : option VideoInfo :=
  match trim line with
  | [] => None
  | _ => decode line
  end.

Definition push (videos : list VideoInfo) (v : option VideoInfo) : list VideoInfo :=
  match v with
  | Some video => videos ++ [video]
  | None => videos
  end.

(** The ['data'] handler: all the pieces of the buffer but the last are
    lines; the last is kept ([lines.pop() || '']). *)
Definition onData (st : Collector) (data : Chunk) : Collector :=
  let buffer := buffer st ++ toString data in
  let lines := splitLF buffer in
  {| buffer := last lines [];
     videos := fold_left (fun vs line => push vs (decodeLine line))
                         (removelast lines) (videos st) |}.

(** The first half of the ['close'] handler: what is left in the buffer is
    parsed as one record. *)
Definition onCloseParse (st : Collector) : Collector :=
  match buffer st with
  | [] => st
  | _ => {| buffer := buffer st; videos := push (videos st) (decode (buffer st)) |}
  end.

Definition parsedRecords (stdout : list Chunk) : list VideoInfo :=
  videos (onCloseParse (fold_left onData stdout emptyCollector)).

(** What the promise of [searchYouTube] settles to for a run. *)
Definition searchOutcome (run : ProcessRun) : Completion (list VideoInfo) :=
  match run with
  | SpawnFailed message =>
    if includes message (lit "ENOENT") then Throw (Error notInstalledMessage)
    else Throw (Error message)
  | Exited stdout code =>
    let videos := parsedRecords stdout in
    let nonzero := match code with Some 0%Z => false | _ => true end in
    if nonzero && (List.length videos =? 0)%nat then
      Throw (Error (exitMessage code))
    else Normal videos
  end.

End Parser.

(** The arguments: no maximum age; a named range becomes its token. *)
Definition searchArgs (keyword : jsstring) (options : SearchOptions) : list jsstring :=
  let limit := spread DEFAULT_limit (limit options) in
  let sort := spread DEFAULT_sort (sort options) in
  let dateRange := spread DEFAULT_dateRange (dateRange options) in
  let searchQuery := lit "ytsearch" ++ textOfLimit limit ++ lit ":" ++ keyword in
  let args := [searchQuery; lit "--dump-json"; lit "--flat-playlist";
               lit "--no-warnings"; lit "--quiet"] in
  let args :=
    match sort with
    | Some SortRelevance | None => args
    | Some _ => args ++ [lit "--playlist-end"; textOfLimit limit]
    end in
  match dateRange with
  | Some r => args ++ [lit "--dateafter"; dateFilter r]
  | None => args
  end.

End Baseline.

(* ================================================================== *)
(** * The search service, second version ([services/youtube.v2.ts]) *)
(* ================================================================== *)

Module YoutubeV2.
Import JS Youtube.

(** [a ?? b]. *)
Definition coalesce (a b : JSValue) : JSValue :=
  match a with
  | JUndefined | JNull => b
  | _ => a
  end.

(** [typeof data[k] === 'string' ? data[k] : undefined], and the same for
    numbers. *)
Definition getString (data : JSValue) (k : string) : Completion JSValue :=
  v <- getField data k ;;
  Normal match v with JString _ => v | _ => JUndefined end.

Definition getNumber (data : JSValue) (k : string) : Completion JSValue :=
  v <- getField data k ;;
  Normal match v with JNumber _ => v | _ => JUndefined end.

(** [/^\d{8}$/.test(s)]. *)
Definition isEightDigits (s : jsstring) : bool :=
  (List.length s =? 8)%nat && forallb JSON.isDigit s.

Definition parseVideoInfo (data : JSValue) : Completion VideoInfo :=
  uploadDate <- getString data "upload_date" ;;
  let publishedAt :=
    match uploadDate with
    | JString s =>
      if truthy uploadDate && isEightDigits s then
        Some (DateOfParts (JString (slice s 0 (Some 4%Z)))
                          (JString (slice s 4 (Some 6%Z)))
                          (JString (slice s 6 (Some 8%Z))))
      else None
    | _ => None
    end in
  id0 <- getString data "id" ;;
  let id := coalesce id0 (JString []) in
  title <- getString data "title" ;;
  webpage_url <- getString data "webpage_url" ;;
  channel <- getString data "channel" ;;
  uploader <- getString data "uploader" ;;
  channel_url <- getString data "channel_url" ;;
  uploader_url <- getString data "uploader_url" ;;
  view_count <- getNumber data "view_count" ;;
  like_count <- getNumber data "like_count" ;;
  duration <- getNumber data "duration" ;;
  thumbnail <- getString data "thumbnail" ;;
  description <- getString data "description" ;;
  duration <- formatDuration duration ;;
  Normal {|
    id := id;
    title := coalesce title (JString (lit "Unknown Title"));
    url := match webpage_url with
           | JUndefined | JNull =>
             if truthy id then UrlWatch id
             else UrlGiven (JString (lit "https://youtube.com"))
           | _ => UrlGiven webpage_url
           end;
    channel := coalesce (coalesce channel uploader)
                        (JString (lit "Unknown Channel"));
    channelUrl := coalesce channel_url uploader_url;
    viewCount := coalesce view_count (JNumber (numberOfZ 0));
    likeCount := like_count;
    duration := duration;
    thumbnail := thumbnail;
    publishedAt := publishedAt;
    description := description
  |}.

Section Parser.
Variable JSON_parse : jsstring -> option JSValue.

(** One line in the loops of [consume] and [flush]: skipped when blank, else
    parsed as it is and handed to [onItem]; what either throws goes to
    [onParseError], which ignores it. *)
Definition decodeLine (line : jsstring) : option VideoInfo :=
  match trim line with
  | [] => None
  | _ =>
    match JSON_parse line with
    | Some raw =>
      match parseVideoInfo raw with
      | Normal video => Some video
      | Throw _ => None
      end
    | None => None
    end
  end.

Definition onLines (lines : list jsstring) (videos : list VideoInfo)
  : list VideoInfo :=
  fold_left (fun vs line =>
               match decodeLine line with
               | Some video => vs ++ [video]
               | None => vs
               end) lines videos.

(** [consume]: the pieces of the buffer but the last are lines; the last is
    kept ([lines.pop() ?? '']). *)
Definition consume (st : Collector) (chunk : Chunk) : Collector :=
  let buffer := buffer st ++ toString chunk in
  let lines := splitLines buffer in
  {| buffer := last lines [];
     videos := onLines (removelast lines) (videos st) |}.

Definition flush (st : Collector) : Collector :=
  match buffer st with
  | [] => st
  | _ => {| buffer := []; videos := onLines (splitLines (buffer st)) (videos st) |}
  end.

Definition parsedRecords (stdout : list Chunk) : list VideoInfo :=
  videos (flush (fold_left consume stdout emptyCollector)).

(** What the promise of [searchYouTubeV2] settles to for a run. *)
Definition searchOutcome (run : ProcessRun) : Completion (list VideoInfo) :=
  match run with
  | SpawnFailed message =>
    if includes message (lit "ENOENT") then Throw (Error notInstalledMessage)
    else Throw (Error message)
  | Exited stdout code =>
    let videos := parsedRecords stdout in
    let nonzero := match code with Some 0%Z => false | _ => true end in
    if nonzero && (List.length videos =? 0)%nat then
      Throw (Error (exitMessage code))
    else Normal videos
  end.

End Parser.

Section Clock.
Variable LocalTZA : Z -> bool -> Z.

(** The arguments: the limit falls back to 10 also when it is given as
    [undefined], and the playlist is always cut at the limit. *)
Definition searchArgs (now : Z) (keyword : jsstring) (options : SearchOptions)
  : Completion (list jsstring) :=
  let limit :=
    match spread DEFAULT_limit (limit options) with
    | Some n => n
    | None => 10%Z
    end in
  let dateRange := spread DEFAULT_dateRange (dateRange options) in
  let searchPrefix :=
    match effectiveMaxAge options with
    | Some _ => lit "ytsearchdate"
    | None => lit "ytsearch"
    end in
  let searchQuery := searchPrefix ++ textOfZ limit ++ lit ":" ++ keyword in
  let args := [searchQuery; lit "--dump-json"; lit "--flat-playlist";
               lit "--no-warnings"; lit "--quiet";
               lit "--playlist-end"; textOfZ limit] in
  match effectiveMaxAge options with
  | Some days =>
    dateStr <- cutoffDate LocalTZA now days ;;
    Normal (args ++ [lit "--dateafter"; dateStr])
  | None =>
    match dateRange with
    | Some r => Normal (args ++ [lit "--dateafter"; dateFilter r])
    | None => Normal args
    end
  end.

End Clock.

End YoutubeV2.

(* ================================================================== *)
(** * The summary of recent runs ([getRecentSummary] of [services/collector.ts]) *)
(* ================================================================== *)

Module Summary.
Import JS Youtube Collector.

Record Breakdown := {
  id : Z;
  name : jsstring;
  videosCount : Z
}.

Record RecentSummary := {
  period : jsstring;
  totalVideos : Z;
  totalViews : Z;
  collectionRuns : Z;
  keywordBreakdown : list Breakdown
}.

(** [gte(column, since)] on a timestamp column; a NULL is at or after nothing. *)
Definition atOrAfter (since : Z) (column : option Z) : bool :=
  match column with
  | Some t => (timestamp since <=? t)%Z
  | None => false
  end.

(** A value that fits a 64-bit integer. *)
Definition fits64 (n : Z) : bool := ((- 2 ^ 63 <=? n) && (n <? 2 ^ 63))%Z.

(** SQLite's [sum(view_count)] over integers: the sum of the values that
    are not NULL, and NULL when there is none; the sum is kept in 64 bits row
    after row, and the query fails with [integer overflow] once it no longer
    fits. *)
Definition sumViewCount (rows : list Video.Row) : Completion (option Z) :=
  fold_left (fun acc v =>
               sum <- acc ;;
               match Video.viewCount v, sum with
               | Some n, Some s =>
                 if fits64 (s + n) then Normal (Some (s + n)%Z)
                 else Throw (Error (lit "integer overflow"))
               | Some n, None => Normal (Some n)
               | None, _ => Normal sum
               end) rows (Normal None).

(** The three queries and the object returned, for the recency cutoff
    [since]; the driver hands the 64-bit sum over as a Number. *)
Definition summaryAt (since days : Z) (d : Database) : Completion RecentSummary :=
  let recent := filter (fun v => atOrAfter since (Video.collectedAt v)) (videos d) in
  let recentLogs :=
    filter (fun l => atOrAfter since (Log.startedAt l)) (collectionLogs d) in
  sum <- sumViewCount recent ;;
  Normal
  {| period := textOfZ days ++ lit " days";
     totalVideos := Z.of_nat (List.length recent);
     totalViews := match sum with
                   | Some n => numberOfInteger n
                   | None => 0%Z
                   end;
     collectionRuns := Z.of_nat (List.length recentLogs);
     keywordBreakdown :=
       map (fun k =>
              {| id := Keyword.id k;
                 name := Keyword.name k;
                 videosCount :=
                   Z.of_nat (List.length
                     (filter (fun v =>
                                match Video.keywordId v with
                                | Some kid => (kid =? Keyword.id k)%Z
                                | None => false
                                end) recent)) |})
           (keywords d) |}.

Section Clock.
Variable LocalTZA : Z -> bool -> Z.

(** [getRecentSummary(days)] for a whole number of days, at the time of the
    world; [None] when the cutoff is not a valid date (what the driver does
    with one is not part of the code) and when the sum overflows (the query
    rejects). *)
Definition getRecentSummary (days : Z) (w : World) : option RecentSummary :=
  match setDate LocalTZA (now w) (getDate LocalTZA (now w) - days) with
  | Some since =>
    match summaryAt since days (db w) with
    | Normal summary => Some summary
    | Throw _ => None
    end
  | None => None
  end.

End Clock.

End Summary.

(* ================================================================== *)
(** * The scheduler ([services/scheduler.ts]) *)
(* ================================================================== *)

Module Scheduler.
Import JS.

Definition DEFAULT_SCHEDULE : jsstring := lit "0 9 * * *".

(** A task made by [cron.schedule]: its cron expression and time zone, and
    whether it is still scheduled.  Every task of the module runs the same
    callback, the collection followed by its notification. *)
Record Task := {
  expression : jsstring;
  timezone : jsstring;
  running : bool
}.

(** The state of the module: the tasks made so far, oldest first; the
    variable [scheduledTask], a reference to one of them or [null]; and how
    many times [notifySchedulerStart] was called. *)
Record State := {
  tasks : list Task;
  scheduledTask : option nat;
  startNotices : nat
}.

Definition initial : State :=
  {| tasks := []; scheduledTask := None; startNotices := 0 |}.

(** [task.stop()] on the task at a position. *)
Fixpoint stopAt (i : nat) (ts : list Task) : list Task :=
  match ts, i with
  | [], _ => []
  | t :: rest, O =>
    {| expression := expression t; timezone := timezone t; running := false |} :: rest
  | t :: rest, S j => t :: stopAt j rest
  end.

Definition stopScheduler (st : State) : State :=
  match scheduledTask st with
  | Some i =>
    {| tasks := stopAt i (tasks st); scheduledTask := None;
       startNotices := startNotices st |}
  | None => st
  end.

(** [{ running, schedule }]. *)
Definition getSchedulerStatus (st : State) : bool * option jsstring :=
  match scheduledTask st with
  | Some _ => (true, Some DEFAULT_SCHEDULE)
  | None => (false, None)
  end.

Section Cron.

(** [process.env.TZ], and what [cron.schedule] throws for an expression
    and a time zone it does not accept, if it does. *)
Variable TZ : option jsstring.
Variable rejects : jsstring -> jsstring -> option JSError.

(** [startScheduler(schedule)]; [None] is a call without the argument. *)
Definition startScheduler (schedule : option jsstring) (st : State)
  : Completion nat * State :=
  let schedule :=
    match schedule with
    | Some s => s
    | None => DEFAULT_SCHEDULE
    end in
  let st := stopScheduler st in
  let timezone :=
    match TZ with
    | Some (c :: s) => c :: s
    | _ => lit "Asia/Seoul"
    end in
  match rejects schedule timezone with
  | Some e => (Throw e, st)
  | None =>
    (Normal (List.length (tasks st)),
     {| tasks := tasks st ++ [{| expression := schedule; timezone := timezone;
                                 running := true |}];
        scheduledTask := Some (List.length (tasks st));
        startNotices := S (startNotices st) |})
  end.

(** A call of the module from outside. *)
Inductive Call :=
| Start (schedule : option jsstring)
| Stop.

Definition call (st : State) (c : Call) : State :=
  match c with
  | Start schedule => snd (startScheduler schedule st)
  | Stop => stopScheduler st
  end.

End Cron.

End Scheduler.

(* ================================================================== *)
(** * The collection script ([scripts/collect.ts]) *)
(* ================================================================== *)

Module Script.
Import JS Youtube Collector.

(** [INITIAL_KEYWORDS]: names and categories. *)
Definition INITIAL_KEYWORDS : list (jsstring * jsstring) :=
  [(lit "tech news", lit "technology");
   (lit "programming", lit "development");
   (lit "frontend", lit "development");
   (lit "backend", lit "development");
   (lit "AI coding", lit "technology");
   (lit "devops", lit "development");
   (lit "golang", lit "language");
   (lit "nextjs", lit "framework");
   (lit "OpenClaw", lit "technology")].

(** [db.insert(keywords).values({ name, category })]: the name is unique;
    the row is active and dated by default. *)
Definition insertKeyword (name category : jsstring) (w : World) : Completion World :=
  if existsb (fun k => jsstring_eqb (Keyword.name k) name) (keywords (db w)) then
    Throw (Error (lit "UNIQUE constraint failed: keywords.name"))
  else
    Normal (withDb w
      {| keywords :=
           keywords (db w) ++
           [{| Keyword.id := nextId (map Keyword.id (keywords (db w)));
               Keyword.name := name;
               Keyword.category := Some category;
               Keyword.isActive := Some true;
               Keyword.createdAt := Some (timestamp (now w)) |}];
         videos := videos (db w);
         trends := trends (db w);
         collectionLogs := collectionLogs (db w) |}).

Section Host.

(** [String.prototype.toLowerCase]. *)
Variable toLowerCase : jsstring -> jsstring.

(** The loop of [main] that registers the keywords in [initial] whose
    lower-cased name no keyword of the table has; a failed insert is logged
    and passed over. *)
Definition seedWith (initial : list (jsstring * jsstring)) (w : World) : World :=
  let existingNames := map (fun k => toLowerCase (Keyword.name k)) (keywords (db w)) in
  fold_left (fun w kw =>
               if existsb (jsstring_eqb (toLowerCase (fst kw))) existingNames then w
               else
                 match insertKeyword (fst kw) (snd kw) w with
                 | Normal w' => w'
                 | Throw _ => w
                 end) initial w.

Definition seed (w : World) : World := seedWith INITIAL_KEYWORDS w.

End Host.

End Script.

(* ================================================================== *)
(** * Notions for the statements about the rest of the code *)
(* ================================================================== *)

Module Notions.
Import JS Youtube Collector.

(** The record the mapper returns for a value without any of the keys. *)
Definition placeholder : VideoInfo :=
  {| Youtube.id := JUndefined;
     Youtube.title := JString (lit "Unknown Title");
     Youtube.url := UrlWatch JUndefined;
     Youtube.channel := JString (lit "Unknown Channel");
     Youtube.channelUrl := JUndefined;
     Youtube.viewCount := JNumber (numberOfZ 0);
     Youtube.likeCount := JUndefined;
     Youtube.duration := None;
     Youtube.thumbnail := JUndefined;
     Youtube.publishedAt := None;
     Youtube.description := JUndefined |}.

(** The columns of a stored video that a later upsert does not rewrite. *)
Definition held (v : Video.Row) :=
  (Video.id v, Video.videoId v, Video.keywordId v, Video.url v,
   Video.channelName v, Video.duration v, Video.thumbnail v, Video.publishedAt v).

(** The table [new] has the rows of [old], in their order and with their
    held columns, followed by at most [n] more. *)
Definition keepsRows (old new : list Video.Row) (n : Z) : Prop :=
  exists more,
    map held new = map held old ++ more /\ (Z.of_nat (List.length more) <= n)%Z.

(** The world [w1] differs from [w] in the database by saved videos only:
    the other tables are as they were, the videos kept, at most [n] added,
    and video ids and row ids that were distinct are still. *)
Definition onlySaves (w w1 : World) (n : Z) : Prop :=
  keywords (db w1) = keywords (db w)
  /\ trends (db w1) = trends (db w)
  /\ collectionLogs (db w1) = collectionLogs (db w)
  /\ keepsRows (videos (db w)) (videos (db w1)) n
  /\ (NoDup (map Video.videoId (videos (db w))) ->
      NoDup (map Video.videoId (videos (db w1))))
  /\ (NoDup (map Video.id (videos (db w))) ->
      NoDup (map Video.id (videos (db w1)))).

(** Between [w] and [w1] at most [n] processes were spawned, and the
    earlier ones are on record as they were. *)
Definition spawnsAtMost (w w1 : World) (n : nat) : Prop :=
  exists more, spawned w1 = spawned w ++ more /\ (List.length more <= n)%nat.

(** No run of the tool takes a negative time. *)
Definition toolTakesTime (ytdlp : nat -> list jsstring -> ProcessRun * Z) : Prop :=
  forall n args, (0 <= snd (ytdlp n args))%Z.

(** The world after the version check has run for [took] milliseconds. *)
Definition afterVersionCheck (w : World) (took : Z) : World :=
  {| db := db w; now := (now w + took)%Z;
     spawned := spawned w ++ [[lit "--version"]] |}.

(** The columns of a trend row that the aggregation never rewrites. *)
Definition stamp (t : Trend.Row) :=
  (Trend.id t, Trend.keywordId t, Trend.date t, Trend.period t, Trend.createdAt t).

(** A line without the carriage return it ends with, if it ends with one. *)
Fixpoint chomp (line : jsstring) : jsstring :=
  match line with
  | [] => []
  | [c] => if N.eqb c CR then [] else [c]
  | c :: r => c :: chomp r
  end.

(** The records a decoder gives for a list of lines, in order. *)
Definition recordsOf (decode : jsstring -> option VideoInfo)
  (lines : list jsstring) : list VideoInfo :=
  flat_map (fun l => match decode l with
                     | Some v => [v]
                     | None => []
                     end) lines.

(** A field of the documented shape: left out, or a string that is not
    empty; left out, or a number that is not zero. *)
Definition textField (v : JSValue) : Prop :=
  v = JUndefined \/ exists c s, v = JString (c :: s).

Definition numberField (v : JSValue) : Prop :=
  v = JUndefined \/ exists n, v = JNumber n /\ numberIsZero n = false.

(** An object as the tool documents it: an id, text and number fields of
    the documented shape, and an upload date of eight digits if any. *)
Definition conforming (props : list (jsstring * JSValue)) : Prop :=
  (exists c s, lookup props (lit "id") = JString (c :: s))
  /\ textField (lookup props (lit "title"))
  /\ textField (lookup props (lit "webpage_url"))
  /\ textField (lookup props (lit "channel"))
  /\ textField (lookup props (lit "uploader"))
  /\ textField (lookup props (lit "channel_url"))
  /\ textField (lookup props (lit "uploader_url"))
  /\ textField (lookup props (lit "thumbnail"))
  /\ textField (lookup props (lit "description"))
  /\ numberField (lookup props (lit "view_count"))
  /\ numberField (lookup props (lit "like_count"))
  /\ numberField (lookup props (lit "duration"))
  /\ (lookup props (lit "upload_date") = JUndefined
      \/ exists s, lookup props (lit "upload_date") = JString s
                   /\ YoutubeV2.isEightDigits s = true).

(** The field of an object when it is a string, or a number, and
    [undefined] otherwise: what [getString] and [getNumber] return. *)
Definition stringAt (props : list (jsstring * JSValue)) (k : string) : JSValue :=
  match lookup props (lit k) with
  | JString _ => lookup props (lit k)
  | _ => JUndefined
  end.

Definition numberAt (props : list (jsstring * JSValue)) (k : string) : JSValue :=
  match lookup props (lit k) with
  | JNumber _ => lookup props (lit k)
  | _ => JUndefined
  end.

(** A string or nothing; a number or nothing. *)
Definition stringOrUndefined (v : JSValue) : Prop :=
  v = JUndefined \/ exists s, v = JString s.

Definition numberOrUndefined (v : JSValue) : Prop :=
  v = JUndefined \/ exists n, v = JNumber n.

(** The videos the breakdown of a summary counts, in all. *)
Definition countedVideos (s : Summary.RecentSummary) : Z :=
  fold_right (fun b total => (Summary.videosCount b + total)%Z) 0%Z
             (Summary.keywordBreakdown s).

(** A video of no keyword of the table. *)
Definition orphan (ks : list Keyword.Row) (v : Video.Row) : bool :=
  match Video.keywordId v with
  | Some kid => negb (existsb (fun k => (Keyword.id k =? kid)%Z) ks)
  | None => true
  end.

(** The tasks of the scheduler that are still scheduled are the one its
    variable refers to, if it refers to one. *)
Definition oneTask (st : Scheduler.State) : Prop :=
  (forall i t, nth_error (Scheduler.tasks st) i = Some t ->
     (Scheduler.running t = true <-> Scheduler.scheduledTask st = Some i))
  /\ (forall i, Scheduler.scheduledTask st = Some i ->
      exists t, nth_error (Scheduler.tasks st) i = Some t).

(** The keywords of a list whose lower-cased name is not among [existing]. *)
Definition missing (toLowerCase : jsstring -> jsstring) (existing : list jsstring)
  (initial : list (jsstring * jsstring)) : list (jsstring * jsstring) :=
  filter (fun kw => negb (existsb (jsstring_eqb (toLowerCase (fst kw))) existing))
         initial.

End Notions.

(* ================================================================== *)
(** * More sample worlds *)
(* ================================================================== *)

Module Fixtures.
Import JS Youtube Collector Sample Notions.

(** A database whose only keyword is switched off. *)
Definition idleWorld : World :=
  {| db := emptyDatabase [keywordRow 3 "nextjs" false];
     now := mayFirst;
     spawned := [] |}.

(** One active keyword, once the version check has been run. *)
Definition checkedWorld : World := afterVersionCheck smallWorld 150.

(** Two keywords, and the video [a] stored long ago for the second of them. *)
Definition stockedWorld : World :=
  {| db := {| keywords := [keywordRow 1 "golang" true; keywordRow 2 "devops" false];
              videos := [{| Video.id := 7; Video.videoId := lit "a";
                            Video.keywordId := Some 2%Z; Video.title := lit "old";
                            Video.url := lit "https://youtu.be/a";
                            Video.channelName := None; Video.viewCount := Some 1%Z;
                            Video.likeCount := None; Video.duration := None;
                            Video.thumbnail := None; Video.publishedAt := None;
                            Video.collectedAt := Some 1000%Z |}];
              trends := [];
              collectionLogs := [] |};
     now := mayFirst;
     spawned := [] |}.

(** The sample database of three videos, two hours after they were collected. *)
Definition viewedWorld : World :=
  {| db := viewed; now := (mayFirst + 7200000)%Z; spawned := [] |}.

(** The same two hours later, for the three videos with very many views. *)
Definition popularWorld : World :=
  {| db := popular; now := (mayFirst + 7200000)%Z; spawned := [] |}.

End Fixtures.

(* ================================================================== *)
(** * Facts about the search service *)
(* ================================================================== *)

Import JS Youtube Sample.

(** ** UTF-8: ASCII bytes decode one to one *)

Lemma utf8Run_ascii bytes :
  forallb isAscii bytes = true -> utf8Decode bytes = map Byte.to_N bytes.
Proof.
  unfold utf8Decode. induction bytes as [|b r IH]; simpl; intros H; [reflexivity|].
  apply andb_prop in H. destruct H as [Hb Hr].
  unfold utf8Step. simpl. unfold utf8Lead, isAscii in *.
  apply N.ltb_lt in Hb.
  replace (Byte.to_N b <=? 127)%N with true by (symmetry; apply N.leb_le; lia).
  simpl. rewrite (IH Hr). reflexivity.
Qed.

(** A chunk that ends where the decoder is back at its start decodes apart
    from what follows it. *)
Lemma utf8Run_app a : forall st b,
  utf8After st a = utf8Start ->
  utf8Run st (a ++ b) = utf8Run st a ++ utf8Run utf8Start b.
Proof.
  induction a as [|x a IH]; intros st b H; simpl in *.
  - subst st. reflexivity.
  - destruct (utf8Step st (Byte.to_N x)) as [st' out]. simpl in H.
    rewrite (IH st' b H), app_assoc. reflexivity.
Qed.

Lemma utf8Decode_concat_boundaries chunks :
  Forall (fun c => utf8After utf8Start c = utf8Start) chunks ->
  utf8Decode (List.concat chunks) = List.concat (map utf8Decode chunks).
Proof.
  unfold utf8Decode. induction 1 as [|c cs Hc _ IH]; simpl; [reflexivity|].
  rewrite (utf8Run_app c utf8Start _ Hc), IH. reflexivity.
Qed.

Lemma utf8Decode_concat_ascii chunks :
  Forall (fun c => forallb isAscii c = true) chunks ->
  utf8Decode (List.concat chunks) = List.concat (map utf8Decode chunks).
Proof.
  intros H. rewrite utf8Run_ascii.
  - rewrite concat_map. f_equal. apply map_ext_in. intros c Hc.
    symmetry. apply utf8Run_ascii. rewrite Forall_forall in H. exact (H c Hc).
  - induction H as [|c cs Hc _ IH]; simpl; [reflexivity|].
    rewrite forallb_app, Hc, IH. reflexivity.
Qed.

Section ParserFacts.
Variable JSON_parse : jsstring -> option JSValue.

Local Abbreviation decodeAll := (decodeAll JSON_parse).

Lemma indexOfFrom_none s i :
  (0 <= i)%Z -> indexOfFrom LF s i = (-1)%Z -> noLF s.
Proof.
  revert i. induction s as [|x r IH]; simpl; intros i Hi H.
  - intros [].
  - destruct (N.eqb_spec x LF) as [->|Hx].
    + lia.
    + intros [E|E]; [congruence|]. exact (IH (i + 1)%Z ltac:(lia) H E).
Qed.

Lemma indexOfFrom_some s i n :
  indexOfFrom LF s i = n -> n <> (-1)%Z ->
  exists l t, s = l ++ LF :: t /\ noLF l /\ n = (i + Z.of_nat (List.length l))%Z.
Proof.
  revert i. induction s as [|x r IH]; simpl; intros i H Hn.
  - congruence.
  - destruct (N.eqb_spec x LF) as [->|Hx].
    + exists [], r. repeat split; [intros [] | simpl; lia].
    + destruct (IH _ H Hn) as (l & t & -> & Hl & ->).
      exists (x :: l), t. repeat split.
      * intros [E|E]; [congruence | exact (Hl E)].
      * simpl List.length. lia.
Qed.

Lemma slice_prefix (l t : jsstring) :
  slice (l ++ LF :: t) 0 (Some (Z.of_nat (List.length l))) = l.
Proof.
  unfold slice, relIndex. rewrite length_app. simpl List.length.
  replace (Z.of_nat (List.length l) <? 0)%Z with false by (symmetry; apply Z.ltb_ge; lia).
  change (0 <? 0)%Z with false. cbv iota.
  rewrite !Z.min_l by lia. change (Z.to_nat 0) with 0%nat. cbn [skipn].
  rewrite Z.sub_0_r, Nat2Z.id.
  rewrite firstn_app, Nat.sub_diag, firstn_all. simpl. apply app_nil_r.
Qed.

Lemma slice_suffix (l t : jsstring) :
  slice (l ++ LF :: t) (Z.of_nat (List.length l) + 1) None = t.
Proof.
  unfold slice, relIndex. rewrite length_app. simpl List.length.
  replace (Z.of_nat (List.length l) + 1 <? 0)%Z with false by (symmetry; apply Z.ltb_ge; lia).
  rewrite Z.min_l by lia.
  replace (Z.to_nat (Z.of_nat (List.length l) + 1)) with (List.length l + 1)%nat by lia.
  rewrite skipn_app.
  replace (List.length l + 1 - List.length l)%nat with 1%nat by lia.
  rewrite skipn_all2 by lia. simpl.
  apply firstn_all2. lia.
Qed.

Lemma frames_noLF s : noLF s -> frames s = ([], s).
Proof.
  induction s as [|x r IH]; intros H; simpl; [reflexivity|].
  rewrite IH by (intros E; apply H; right; exact E).
  destruct (N.eqb_spec x LF) as [->|]; [|reflexivity].
  exfalso; apply H; left; reflexivity.
Qed.

Lemma frames_line l t :
  noLF l -> frames (l ++ LF :: t) = (l :: fst (frames t), snd (frames t)).
Proof.
  induction l as [|x l IH]; intros H; simpl.
  - destruct (frames t); reflexivity.
  - rewrite IH by (intros E; apply H; right; exact E).
    destruct (N.eqb_spec x LF) as [->|]; [|reflexivity].
    exfalso; apply H; left; reflexivity.
Qed.

Lemma frames_rest_noLF s : noLF (snd (frames s)).
Proof.
  induction s as [|x r IH]; simpl; [intros []|].
  destruct (frames r) as [ls rest]; simpl in *.
  destruct (N.eqb_spec x LF) as [->|Hx]; [exact IH|].
  destruct ls; simpl; [|exact IH].
  intros [E|E]; [congruence | exact (IH E)].
Qed.

Lemma frames_rest_length s : (List.length (snd (frames s)) <= List.length s)%nat.
Proof.
  induction s as [|x r IH]; simpl; [lia|].
  destruct (frames r) as [ls rest]; simpl in *.
  destruct (N.eqb x LF); [simpl; lia|].
  destruct ls; simpl; lia.
Qed.

Lemma frames_app a b :
  frames (a ++ b) =
  (fst (frames a) ++ fst (frames (snd (frames a) ++ b)),
   snd (frames (snd (frames a) ++ b))).
Proof.
  induction a as [|x a IH]; simpl.
  - destruct (frames b); reflexivity.
  - rewrite IH. destruct (frames a) as [la ra]; simpl.
    destruct (N.eqb_spec x LF) as [->|Hx]; [reflexivity|].
    destruct la as [|l la']; simpl; [|reflexivity].
    destruct (frames (ra ++ b)) as [lb rb]; simpl.
    apply N.eqb_neq in Hx. rewrite Hx. destruct lb; reflexivity.
Qed.

Lemma trimEnd_CR l : trimEnd (l ++ [CR]) = trimEnd l.
Proof. unfold trimEnd. rewrite rev_app_distr. reflexivity. Qed.

Lemma endsWith_inv l c : endsWith l c = true -> exists l', l = l' ++ [c].
Proof.
  unfold endsWith. destruct (rev l) as [|x r] eqn:E; [discriminate|].
  intros H. apply N.eqb_eq in H. subst x.
  exists (rev r). rewrite <- (rev_involutive l), E. reflexivity.
Qed.

Lemma slice_init (l : jsstring) c : slice (l ++ [c]) 0 (Some (-1)%Z) = l.
Proof.
  unfold slice, relIndex. rewrite length_app. simpl List.length.
  change (0 <? 0)%Z with false. change (-1 <? 0)%Z with true. cbv iota.
  rewrite Z.min_l by lia. rewrite Z.max_l by lia.
  replace (Z.to_nat (Z.of_nat (List.length l + 1) + -1 - 0)) with (List.length l) by lia.
  change (Z.to_nat 0) with 0%nat. cbn [skipn].
  rewrite firstn_app, Nat.sub_diag, firstn_all. simpl. apply app_nil_r.
Qed.

(** Dropping the carriage return of a CRLF ending changes nothing for the
    decoder, which trims the line anyway. *)
Lemma decodeLine_CR l :
  decodeLine JSON_parse (if endsWith l CR then slice l 0 (Some (-1)%Z) else l)
  = decodeLine JSON_parse l.
Proof.
  destruct (endsWith l CR) eqn:E; [|reflexivity].
  destruct (endsWith_inv _ _ E) as [l' ->].
  rewrite slice_init. unfold decodeLine, trim. rewrite trimEnd_CR. reflexivity.
Qed.

Lemma tryParseLine_videos line st :
  tryParseLine JSON_parse line st =
  {| buffer := buffer st; videos := videos st ++ decodeAll [line] |}.
Proof.
  unfold tryParseLine, decodeAll. simpl.
  destruct (decodeLine JSON_parse line); simpl.
  - reflexivity.
  - rewrite app_nil_r. destruct st; reflexivity.
Qed.

Lemma decodeAll_app a b : decodeAll (a ++ b) = decodeAll a ++ decodeAll b.
Proof. unfold decodeAll. apply flat_map_app. Qed.

Lemma decodeAll_cons l ls : decodeAll (l :: ls) = decodeAll [l] ++ decodeAll ls.
Proof. apply (decodeAll_app [l] ls). Qed.

(** The loop of [consumeNdjson] reaches its [break]: it leaves what follows
    the last line feed in the buffer and has decoded every complete line. *)
Lemma consumeLoop_frames fuel : forall st,
  (List.length (buffer st) < fuel)%nat ->
  consumeLoop JSON_parse fuel st =
  {| buffer := snd (frames (buffer st));
     videos := videos st ++ decodeAll (fst (frames (buffer st))) |}.
Proof.
  induction fuel as [|fuel IH]; intros st Hlen; [lia|].
  simpl. destruct (Z.eqb_spec (indexOf (buffer st) LF) (-1)) as [E|E].
  - apply indexOfFrom_none in E; [|lia].
    rewrite (frames_noLF E). simpl. rewrite app_nil_r. destruct st; reflexivity.
  - destruct (indexOfFrom_some (buffer st) 0 eq_refl E) as (l & t & Hb & Hl & Hn).
    unfold indexOf in *. rewrite Hn, Hb. simpl (0 + _)%Z.
    rewrite slice_prefix, slice_suffix, tryParseLine_videos.
    rewrite IH.
    + simpl. rewrite (frames_line t Hl). simpl.
      rewrite decodeLine_CR, app_nil_r, <- app_assoc. reflexivity.
    + simpl. rewrite Hb, length_app in Hlen. simpl in Hlen. lia.
Qed.

(** [consumeNdjson] below the bound. *)
Lemma consumeNdjson_frames st chunk :
  (Z.of_nat (List.length (buffer st ++ toString chunk)) <= MAX_BUFFER_CHARS)%Z ->
  consumeNdjson JSON_parse st chunk =
  {| buffer := snd (frames (buffer st ++ toString chunk));
     videos := videos st ++ decodeAll (fst (frames (buffer st ++ toString chunk))) |}.
Proof.
  intros H. unfold consumeNdjson.
  destruct (Z.gtb_spec (Z.of_nat (List.length (buffer st ++ toString chunk))) MAX_BUFFER_CHARS);
    [lia|].
  rewrite consumeLoop_frames by (simpl; lia). reflexivity.
Qed.

(** [consumeNdjson] above the bound: everything buffered is dropped. *)
Lemma consumeNdjson_discard st chunk :
  (MAX_BUFFER_CHARS < Z.of_nat (List.length (buffer st ++ toString chunk)))%Z ->
  consumeNdjson JSON_parse st chunk = {| buffer := []; videos := videos st |}.
Proof.
  intros H. unfold consumeNdjson.
  destruct (Z.gtb_spec (Z.of_nat (List.length (buffer st ++ toString chunk))) MAX_BUFFER_CHARS);
    [reflexivity | lia].
Qed.

(** Below the bound, feeding chunks one after the other frames the
    concatenation of their texts. *)
Lemma fold_consume_frames stdout : forall st,
  noLF (buffer st) ->
  (Z.of_nat (List.length (buffer st ++ textOf stdout)) <= MAX_BUFFER_CHARS)%Z ->
  fold_left (consumeNdjson JSON_parse) stdout st =
  {| buffer := snd (frames (buffer st ++ textOf stdout));
     videos := videos st ++ decodeAll (fst (frames (buffer st ++ textOf stdout))) |}.
Proof.
  induction stdout as [|chunk rest IH]; intros st Hb Hlen.
  - simpl. unfold textOf. simpl. rewrite app_nil_r, (frames_noLF Hb). simpl.
    rewrite app_nil_r. destruct st; reflexivity.
  - simpl. unfold textOf in *. simpl in Hlen.
    rewrite app_assoc in Hlen.
    assert (Hc : (Z.of_nat (List.length (buffer st ++ toString chunk)) <= MAX_BUFFER_CHARS)%Z).
    { rewrite length_app in Hlen. lia. }
    rewrite (consumeNdjson_frames st chunk Hc).
    rewrite IH; simpl.
    + rewrite app_assoc, (frames_app (buffer st ++ toString chunk)). simpl.
      rewrite decodeAll_app, app_assoc. reflexivity.
    + apply frames_rest_noLF.
    + pose proof (frames_rest_length (buffer st ++ toString chunk)).
      rewrite !length_app in *. lia.
Qed.

Lemma drain_frames stdout :
  (Z.of_nat (List.length (textOf stdout)) <= MAX_BUFFER_CHARS)%Z ->
  drain JSON_parse stdout =
  {| buffer := snd (frames (textOf stdout));
     videos := decodeAll (fst (frames (textOf stdout))) |}.
Proof.
  intros H. unfold drain. rewrite fold_consume_frames; simpl; auto.
  intros [].
Qed.

(** Chunks that decode to the same text leave the parser in the same state. *)
Lemma drain_text a b :
  textOf a = textOf b ->
  (Z.of_nat (List.length (textOf b)) <= MAX_BUFFER_CHARS)%Z ->
  drain JSON_parse a = drain JSON_parse b.
Proof.
  intros E H. rewrite (drain_frames b H). rewrite <- E in *. apply drain_frames, H.
Qed.

Lemma fold_tryParseLine lines : forall st,
  fold_left (fun acc line => tryParseLine JSON_parse line acc) lines st =
  {| buffer := buffer st; videos := videos st ++ decodeAll lines |}.
Proof.
  induction lines as [|l ls IH]; intros st; simpl.
  - rewrite app_nil_r. destruct st; reflexivity.
  - rewrite IH, tryParseLine_videos. simpl.
    rewrite <- app_assoc. unfold Youtube.decodeAll. simpl. rewrite app_nil_r.
    reflexivity.
Qed.

(** [flushNdjson]: every piece of the split buffer is decoded, in order. *)
Lemma flushNdjson_split st :
  flushNdjson JSON_parse st =
  {| buffer := []; videos := videos st ++ decodeAll (splitLines (buffer st)) |}.
Proof.
  unfold flushNdjson. destruct (buffer st) as [|c r] eqn:E.
  - simpl. unfold Youtube.decodeAll. simpl. rewrite app_nil_r.
    destruct st; simpl in *; subst; reflexivity.
  - rewrite fold_tryParseLine. reflexivity.
Qed.

Lemma splitLines_noLF l : noLF l -> splitLines l = [l].
Proof.
  induction l as [|c r IH]; intros H; [reflexivity|].
  assert (Hc : N.eqb c LF = false) by (apply N.eqb_neq; intros ->; apply H; left; reflexivity).
  assert (Hr : noLF r) by (intros E; apply H; right; exact E).
  specialize (IH Hr).
  destruct r as [|d r']; simpl; rewrite Hc; [reflexivity|].
  assert (Hd : N.eqb d LF = false)
    by (apply N.eqb_neq; intros ->; apply Hr; left; reflexivity).
  rewrite Hd, andb_false_r. simpl in IH. rewrite Hd in IH.
  rewrite IH. reflexivity.
Qed.

(** The first piece of a split is the first line, less the carriage return
    of a CRLF ending. *)
Lemma splitLines_line l t :
  noLF l ->
  exists l', splitLines (l ++ LF :: t) = l' :: splitLines t
             /\ (l = l' \/ l = l' ++ [CR]).
Proof.
  induction l as [|c r IH]; intros H.
  - exists []. split; [reflexivity | left; reflexivity].
  - assert (Hc : N.eqb c LF = false)
      by (apply N.eqb_neq; intros ->; apply H; left; reflexivity).
    assert (Hr : noLF r) by (intros E; apply H; right; exact E).
    destruct (IH Hr) as (l'' & Hs & Hl).
    destruct r as [|d r'].
    + simpl. rewrite Hc. change (N.eqb LF LF) with true. rewrite andb_true_r.
      destruct (N.eqb_spec c CR) as [->|Hcr].
      * exists []. split; [reflexivity | right; reflexivity].
      * exists [c]. split; [reflexivity | left; reflexivity].
    + assert (Hd : N.eqb d LF = false)
        by (apply N.eqb_neq; intros ->; apply Hr; left; reflexivity).
      change (splitLines ((c :: d :: r') ++ LF :: t))
        with (if N.eqb c LF then [] :: splitLines ((d :: r') ++ LF :: t)
              else if N.eqb c CR && N.eqb d LF then [] :: splitLines (r' ++ LF :: t)
              else match splitLines ((d :: r') ++ LF :: t) with
                   | l :: ls => (c :: l) :: ls
                   | [] => [[c]]
                   end).
      rewrite Hc, Hd, andb_false_r, Hs.
      exists (c :: l''). split; [reflexivity|].
      destruct Hl as [->| ->]; [left | right]; reflexivity.
Qed.

Lemma decodeLine_CR_end l : decodeLine JSON_parse (l ++ [CR]) = decodeLine JSON_parse l.
Proof. unfold decodeLine, trim. rewrite trimEnd_CR. reflexivity. Qed.

(** Splitting joined lines yields the lines, as far as decoding goes. *)
Lemma decodeAll_split_join lines :
  Forall noLF lines ->
  decodeAll (splitLines (joinLines lines)) = decodeAll lines.
Proof.
  induction 1 as [|l ls Hl Hls IH]; [reflexivity|].
  destruct ls as [|l2 ls'].
  - simpl. rewrite (splitLines_noLF Hl). reflexivity.
  - change (joinLines (l :: l2 :: ls')) with (l ++ LF :: joinLines (l2 :: ls')).
    destruct (splitLines_line (joinLines (l2 :: ls')) Hl) as (l' & -> & Hl').
    rewrite (decodeAll_cons l'), (decodeAll_cons l), IH. f_equal.
    unfold Youtube.decodeAll. simpl.
    destruct Hl' as [->| ->]; [reflexivity|]. rewrite decodeLine_CR_end. reflexivity.
Qed.

Lemma frames_endLines lines :
  Forall noLF lines -> frames (endLines lines) = (lines, []).
Proof.
  induction 1 as [|l ls Hl Hls IH]; [reflexivity|].
  unfold endLines in *. simpl. rewrite <- app_assoc. simpl.
  rewrite (frames_line _ Hl), IH. reflexivity.
Qed.

Lemma frames_joinLines lines l :
  Forall noLF lines -> noLF l ->
  frames (joinLines (lines ++ [l])) = (lines, l).
Proof.
  induction 1 as [|x ls Hx Hls IH]; intros Hl.
  - simpl. apply frames_noLF, Hl.
  - change (joinLines ((x :: ls) ++ [l])) with (joinLines (x :: ls ++ [l])).
    destruct (ls ++ [l]) as [|y r] eqn:E; [destruct ls; discriminate|].
    change (joinLines (x :: y :: r)) with (x ++ LF :: joinLines (y :: r)).
    rewrite (frames_line _ Hx), (IH Hl). reflexivity.
Qed.

Lemma decodeAll_Forall2 lines recs :
  Forall2 (fun l r => noLF l /\ decodeLine JSON_parse l = Some r) lines recs ->
  decodeAll lines = recs.
Proof.
  induction 1 as [|l r ls rs [_ Hd] _ IH]; [reflexivity|].
  rewrite decodeAll_cons, IH. unfold Youtube.decodeAll. simpl. rewrite Hd. reflexivity.
Qed.

Lemma Forall2_noLF lines recs :
  Forall2 (fun l r => noLF l /\ decodeLine JSON_parse l = Some r) lines recs ->
  Forall noLF lines.
Proof. induction 1 as [|l r ls rs [H _] _ IH]; constructor; assumption. Qed.


(** C2, amended.  Chunk-size invariance within the bound: when the bytes of
    a payload decode to at most [MAX_BUFFER_CHARS] code units, and its chunks
    decode, each on its own, to the pieces of that text (no chunk ends inside
    a multi-byte character; so for every split of an ASCII payload, one byte
    per chunk included), feeding the chunks one by one and flushing yields
    exactly the records, in order, of feeding the payload as one chunk. *)
Theorem chunk_size_invariance (chunks : list (list byte)) :
  utf8Decode (List.concat chunks) = List.concat (map utf8Decode chunks) ->
  (Z.of_nat (List.length (utf8Decode (List.concat chunks))) <= MAX_BUFFER_CHARS)%Z ->
  parsedRecords JSON_parse (map OfBuffer chunks)
  = parsedRecords JSON_parse [OfBuffer (List.concat chunks)].
Proof.
  intros Htext Hlen. unfold parsedRecords. f_equal. f_equal.
  apply drain_text; unfold textOf; simpl; rewrite app_nil_r.
  - rewrite map_map. simpl. symmetry. exact Htext.
  - exact Hlen.
Qed.

(** C5, amended.  Trailing-delimiter independence within the bound: a
    payload of N lines that each decode, of at most [MAX_BUFFER_CHARS] code
    units, with or without a final line feed, and however it is cut into
    chunks, yields exactly the N records of its lines, in order, once the
    stream is flushed; and a flush decodes every line left in the buffer,
    also when several unterminated lines remain. *)
Theorem trailing_delimiter_independence
  (lines : list jsstring) (recs : list VideoInfo) (finalLF : bool)
  (stdout : list Chunk) :
  Forall2 (fun l r => noLF l /\ decodeLine JSON_parse l = Some r) lines recs ->
  textOf stdout = payloadOf lines finalLF ->
  (Z.of_nat (List.length (payloadOf lines finalLF)) <= MAX_BUFFER_CHARS)%Z ->
  parsedRecords JSON_parse stdout = recs
  /\ List.length (parsedRecords JSON_parse stdout) = List.length lines
  /\ forall st, buffer st = joinLines lines ->
       flushNdjson JSON_parse st = {| buffer := []; videos := videos st ++ recs |}.
Proof.
  intros Hlines Htext Hlen.
  pose proof (Forall2_noLF Hlines) as HnoLF.
  pose proof (decodeAll_Forall2 Hlines) as Hdec.
  assert (Hrecs : parsedRecords JSON_parse stdout = recs).
  { unfold parsedRecords. rewrite <- Htext in Hlen.
    rewrite (drain_frames stdout Hlen), Htext, flushNdjson_split. simpl.
    destruct finalLF; simpl.
    - rewrite (frames_endLines HnoLF). simpl. rewrite app_nil_r. exact Hdec.
    - destruct lines as [|l0 ls] using rev_ind.
      + inversion Hlines; subst. reflexivity.
      + clear IHls. apply Forall_app in HnoLF. destruct HnoLF as [Hinit Hlast].
        inversion Hlast; subst.
        rewrite (frames_joinLines Hinit H1). simpl.
        rewrite (splitLines_noLF H1), <- decodeAll_app. reflexivity. }
  split; [exact Hrecs|]. split.
  - rewrite Hrecs. symmetry. exact (Forall2_length Hlines).
  - intros st Hst. rewrite flushNdjson_split, Hst, (decodeAll_split_join HnoLF), Hdec.
    reflexivity.
Qed.

(** C4.  Exit-outcome classification: with exit code zero the search
    succeeds with whatever records were parsed; with another exit code and at
    least one parsed record it succeeds with exactly the parsed records; with
    another exit code and no parsed record it fails with an error whose
    message carries the exit code, never with an empty success. *)
Theorem exit_outcome_classification (stdout : list Chunk) (code : option Z) :
  (code = Some 0%Z ->
     searchOutcome JSON_parse (Exited stdout code)
     = Normal (parsedRecords JSON_parse stdout))
  /\ (code <> Some 0%Z -> parsedRecords JSON_parse stdout <> [] ->
     searchOutcome JSON_parse (Exited stdout code)
     = Normal (parsedRecords JSON_parse stdout))
  /\ (code <> Some 0%Z -> parsedRecords JSON_parse stdout = [] ->
     searchOutcome JSON_parse (Exited stdout code)
     = Throw (Error (lit "yt-dlp exited with code " ++ textOfCode code))
     /\ searchOutcome JSON_parse (Exited stdout code) <> Normal []).
Proof.
  unfold searchOutcome, parsedRecords, exitMessage.
  set (vs := videos (flushNdjson JSON_parse (drain JSON_parse stdout))).
  split; [|split].
  - intros ->. reflexivity.
  - intros Hc Hv. destruct vs as [|v vs']; [congruence|].
    simpl. rewrite andb_false_r. reflexivity.
  - intros Hc ->. destruct code as [[| |]|]; try (split; [reflexivity | discriminate]).
    congruence.
Qed.

End ParserFacts.


(** ** Concrete streams *)

Lemma padding_ascii : forallb isAscii padding = true.
Proof.
  unfold padding. induction (Z.to_nat 5000000) as [|n IH]; [reflexivity|].
  simpl. exact IH.
Qed.

Lemma padding_length : Z.of_nat (List.length padding) = 5000000%Z.
Proof. unfold padding. rewrite repeat_length. apply Z2Nat.id. lia. Qed.

Lemma longLine_text : utf8Decode longLine = lit "{}" ++ map Byte.to_N padding.
Proof.
  unfold longLine. rewrite utf8Run_ascii.
  - rewrite map_app. reflexivity.
  - rewrite forallb_app, padding_ascii. reflexivity.
Qed.

(** A buffer of ASCII bytes decodes to as many units; so it is over the
    bound when it is longer than the bound. *)
Lemma over_bound_ascii (bytes : list byte) :
  forallb isAscii bytes = true ->
  (5000000 < Z.of_nat (List.length bytes))%Z ->
  (MAX_BUFFER_CHARS
   < Z.of_nat (List.length (buffer emptyCollector ++ toString (OfBuffer bytes))))%Z.
Proof.
  intros Ha Hl. cbn [buffer emptyCollector app toString].
  rewrite (utf8Run_ascii _ Ha), length_map. exact Hl.
Qed.

Lemma longLine_length :
  (MAX_BUFFER_CHARS
   < Z.of_nat (List.length (buffer emptyCollector ++ toString (OfBuffer longLine))))%Z.
Proof.
  apply over_bound_ascii.
  - unfold longLine. rewrite forallb_app, padding_ascii. reflexivity.
  - unfold longLine. rewrite length_app, Nat2Z.inj_add, padding_length.
    change (List.length (list_byte_of_string "{}")) with 2%nat. lia.
Qed.

Lemma trimEnd_trimmable s c : isTrimmable c = true -> trimEnd (s ++ [c]) = trimEnd s.
Proof. intros H. unfold trimEnd. rewrite rev_app_distr. simpl. rewrite H. reflexivity. Qed.

Lemma trimEnd_spaces s n : trimEnd (s ++ repeat 32%N n) = trimEnd s.
Proof.
  induction n as [|n IH]; [rewrite app_nil_r; reflexivity|].
  cbn [repeat]. rewrite repeat_cons, app_assoc, trimEnd_trimmable by reflexivity.
  exact IH.
Qed.

Lemma longLine_decodes :
  decodeLine JSON.parse (utf8Decode longLine) = decodeLine JSON.parse (lit "{}").
Proof.
  rewrite longLine_text. unfold padding. rewrite map_repeat.
  unfold decodeLine, trim. change (Byte.to_N x20) with 32%N.
  rewrite trimEnd_spaces. reflexivity.
Qed.

(** C2, witness: one byte per chunk. *)
Lemma chunk_size_invariance_witness :
  parsedRecords JSON.parse
    (map OfBuffer (map (fun b => [b]) (oneLine ++ list_byte_of_string "[1]")))
  = parsedRecords JSON.parse
      [OfBuffer (List.concat (map (fun b => [b]) (oneLine ++ list_byte_of_string "[1]")))].
Proof.
  apply chunk_size_invariance; [reflexivity | vm_compute; discriminate].
Defined.

(** The long line is a line, and it decodes. *)
Lemma longLine_valid :
  noLF (utf8Decode longLine) /\ decodeLine JSON.parse (utf8Decode longLine) <> None.
Proof.
  split.
  - rewrite longLine_text. intros H. apply in_app_or in H. destruct H as [H|H].
    + vm_compute in H. intuition discriminate.
    + unfold padding in H. rewrite map_repeat in H. apply repeat_spec in H.
      discriminate H.
  - rewrite longLine_decodes. vm_compute. discriminate.
Qed.

Lemma shortLine_valid :
  noLF (lit "{}") /\ decodeLine JSON.parse (lit "{}") <> None.
Proof. split; vm_compute; [intuition discriminate | discriminate]. Qed.

(** C2, counterexample: a payload of two lines that decode, the first longer
    than the bound.  Fed line by line, the first line is dropped and the
    second decoded; fed whole, everything is dropped. *)
Lemma chunk_size_invariance_fails :
  Forall (fun l => noLF l /\ decodeLine JSON.parse l <> None)
         [utf8Decode longLine; lit "{}"]
  /\ parsedRecords JSON.parse (map OfBuffer [longLine; x0a :: oneLine])
     <> parsedRecords JSON.parse [OfBuffer (List.concat [longLine; x0a :: oneLine])].
Proof.
  split.
  - apply Forall_cons; [exact longLine_valid|].
    apply Forall_cons; [exact shortLine_valid | apply Forall_nil].
  - unfold parsedRecords, drain.
    change (List.concat [longLine; x0a :: oneLine]) with (longLine ++ (x0a :: oneLine) ++ []).
    rewrite app_nil_r. cbn [map fold_left].
    rewrite (consumeNdjson_discard JSON.parse emptyCollector (OfBuffer longLine))
      by exact longLine_length.
    rewrite (consumeNdjson_discard JSON.parse emptyCollector
               (OfBuffer (longLine ++ x0a :: oneLine))).
    + assert (H : exists r, consumeNdjson JSON.parse
                              {| buffer := []; videos := videos emptyCollector |}
                              (OfBuffer (x0a :: oneLine))
                            = {| buffer := []; videos := [r] |})
        by (eexists; vm_compute; reflexivity).
      destruct H as [r ->]. simpl. discriminate.
    + apply over_bound_ascii.
      * unfold longLine. rewrite !forallb_app, padding_ascii. reflexivity.
      * unfold longLine. rewrite !length_app, !Nat2Z.inj_add, padding_length.
        change (List.length (list_byte_of_string "{}")) with 2%nat. lia.
Qed.

(** Cutting a stream inside a multi-byte character changes the text, and
    with it the record. *)
Lemma split_character_changes_records :
  parsedRecords JSON.parse (map OfBuffer [accentedHead; accentedTail])
  <> parsedRecords JSON.parse [OfBuffer (accentedHead ++ accentedTail)].
Proof. vm_compute. discriminate. Qed.

Lemma trimStart_spaces s n : trimStart (repeat 32%N n ++ s) = trimStart s.
Proof. induction n as [|n IH]; [reflexivity | exact IH]. Qed.

Lemma trimEnd_kept s c : isTrimmable c = false -> trimEnd (s ++ [c]) = s ++ [c].
Proof.
  intros H. unfold trimEnd. rewrite rev_app_distr. simpl. rewrite H.
  change (c :: rev s) with (rev [c] ++ rev s).
  rewrite <- rev_app_distr. apply rev_involutive.
Qed.

(** C3.  The bound fires on buffered content that holds a line feed: with
    five million spaces buffered (at the bound, so kept), the chunk that
    completes the line, [{}] and a line feed, carries the buffer over the
    bound, and the complete line, which decodes, is dropped unread. *)
Lemma bound_drops_complete_line :
  let st := consumeNdjson JSON.parse emptyCollector (OfBuffer padding) in
  st = {| buffer := map Byte.to_N padding; videos := [] |}
  /\ In LF (buffer st ++ toString (OfBuffer oneLine))
  /\ decodeAll JSON.parse (fst (frames (buffer st ++ toString (OfBuffer oneLine)))) <> []
  /\ consumeNdjson JSON.parse st (OfBuffer oneLine) = emptyCollector.
Proof.
  assert (Ht : toString (OfBuffer padding) = map Byte.to_N padding)
    by (apply utf8Run_ascii, padding_ascii).
  assert (Hn : noLF (map Byte.to_N padding)).
  { unfold padding. rewrite map_repeat. intros H. apply repeat_spec in H. discriminate H. }
  assert (Hst : consumeNdjson JSON.parse emptyCollector (OfBuffer padding)
                = {| buffer := map Byte.to_N padding; videos := [] |}).
  { rewrite consumeNdjson_frames; cbn [buffer videos emptyCollector app]; rewrite Ht.
    - rewrite (frames_noLF Hn). reflexivity.
    - rewrite length_map, padding_length. unfold MAX_BUFFER_CHARS. lia. }
  cbv zeta. rewrite Hst. cbn [buffer].
  assert (Eo : toString (OfBuffer oneLine) = lit "{}" ++ [LF]) by reflexivity.
  rewrite Eo. split; [reflexivity|]. split; [|split].
  - apply in_or_app. right. apply in_or_app. right. left. reflexivity.
  - rewrite app_assoc.
    rewrite frames_line.
    + cbn [fst frames]. unfold padding. rewrite map_repeat.
      change (Byte.to_N x20) with 32%N.
      unfold decodeAll, decodeLine, trim. cbn [flat_map].
      change (lit "{}") with ([123%N] ++ [125%N]).
      rewrite app_assoc, trimEnd_kept by reflexivity.
      rewrite <- app_assoc, trimStart_spaces. vm_compute. discriminate.
    + intros H. apply in_app_or in H. destruct H as [H|H]; [exact (Hn H)|].
      vm_compute in H. intuition discriminate.
  - rewrite consumeNdjson_discard; [reflexivity|].
    cbn [buffer]. rewrite Eo, !length_app, length_map, !Nat2Z.inj_add, padding_length.
    unfold MAX_BUFFER_CHARS. change (List.length (lit "{}")) with 2%nat.
    cbn [List.length]. lia.
Qed.

(** C4, witness: a record and exit code 1; no record and exit code 1. *)
Lemma exit_outcome_classification_witness :
  searchOutcome JSON.parse (Exited [OfBuffer oneLine] (Some 0%Z))
    = Normal (parsedRecords JSON.parse [OfBuffer oneLine])
  /\ searchOutcome JSON.parse (Exited [OfBuffer oneLine] (Some 1%Z))
    = Normal (parsedRecords JSON.parse [OfBuffer oneLine])
  /\ searchOutcome JSON.parse (Exited [] (Some 1%Z))
    = Throw (Error (lit "yt-dlp exited with code " ++ textOfCode (Some 1%Z))).
Proof.
  split; [|split].
  - destruct (exit_outcome_classification JSON.parse [OfBuffer oneLine] (Some 0%Z))
      as (H & _). apply H. reflexivity.
  - destruct (exit_outcome_classification JSON.parse [OfBuffer oneLine] (Some 1%Z))
      as (_ & H & _). apply H; [discriminate | vm_compute; discriminate].
  - destruct (exit_outcome_classification JSON.parse [] (Some 1%Z))
      as (_ & _ & H). apply H; [discriminate | reflexivity].
Defined.

(** C5, witness: two lines, the first with a CRLF ending. *)
Lemma trailing_delimiter_independence_witness :
  parsedRecords JSON.parse [OfString (lit "{}" ++ [CR; LF] ++ lit "[1]")]
  = parsedRecords JSON.parse [OfString (lit "{}" ++ [CR; LF] ++ lit "[1]" ++ [LF])].
Proof.
  assert (H : exists a b,
             Forall2 (fun l r => noLF l /\ decodeLine JSON.parse l = Some r)
                     [lit "{}" ++ [CR]; lit "[1]"] [a; b]).
  { do 2 eexists.
    apply Forall2_cons; [split | apply Forall2_cons; [split | apply Forall2_nil]].
    - vm_compute. intuition discriminate.
    - vm_compute. reflexivity.
    - vm_compute. intuition discriminate.
    - vm_compute. reflexivity. }
  destruct H as (a & b & H).
  assert (H1 : (Z.of_nat (List.length (payloadOf [lit "{}" ++ [CR]; lit "[1]"] false))
                <= MAX_BUFFER_CHARS)%Z) by (vm_compute; discriminate).
  assert (H2 : (Z.of_nat (List.length (payloadOf [lit "{}" ++ [CR]; lit "[1]"] true))
                <= MAX_BUFFER_CHARS)%Z) by (vm_compute; discriminate).
  destruct (trailing_delimiter_independence JSON.parse false
              [OfString (lit "{}" ++ [CR; LF] ++ lit "[1]")] H eq_refl H1) as (E1 & _).
  destruct (trailing_delimiter_independence JSON.parse true
              [OfString (lit "{}" ++ [CR; LF] ++ lit "[1]" ++ [LF])] H eq_refl H2)
    as (E2 & _).
  rewrite E1, E2. reflexivity.
Defined.

(** C5, counterexample: one decodable line, with or without its line feed. *)
Lemma trailing_delimiter_independence_fails :
  noLF (utf8Decode longLine)
  /\ decodeLine JSON.parse (utf8Decode longLine) <> None
  /\ parsedRecords JSON.parse [OfBuffer longLine] = []
  /\ parsedRecords JSON.parse [OfBuffer (longLine ++ [x0a])] = [].
Proof.
  destruct longLine_valid as [H1 H2].
  split; [exact H1|]. split; [exact H2|]. split.
  - unfold parsedRecords, drain. cbn [fold_left].
    rewrite consumeNdjson_discard by exact longLine_length. reflexivity.
  - unfold parsedRecords, drain. cbn [fold_left].
    rewrite consumeNdjson_discard; [reflexivity|].
    apply over_bound_ascii.
    + unfold longLine. rewrite !forallb_app, padding_ascii. reflexivity.
    + unfold longLine. rewrite !length_app, !Nat2Z.inj_add, padding_length.
      change (List.length (list_byte_of_string "{}")) with 2%nat. lia.
Qed.

(** ** The record mapper *)

(** On an object the mapper fails only in the upload-date block and in the
    two conversions, of the id for the watch URL and of the duration. *)
Lemma parseVideoInfo_object props :
  parseVideoInfo (JObject props) =
  (published <- parseUploadDate (lookup props (lit "upload_date")) ;;
   url <- urlOf (lookup props (lit "webpage_url")) (lookup props (lit "id")) ;;
   duration <- formatDuration (lookup props (lit "duration")) ;;
   Normal {|
     id := lookup props (lit "id");
     title := or_else (lookup props (lit "title")) (JString (lit "Unknown Title"));
     url := url;
     channel := or_else (or_else (lookup props (lit "channel"))
                                 (lookup props (lit "uploader")))
                        (JString (lit "Unknown Channel"));
     channelUrl := or_else (lookup props (lit "channel_url"))
                           (lookup props (lit "uploader_url"));
     viewCount := or_else (lookup props (lit "view_count")) (JNumber (numberOfZ 0));
     likeCount := lookup props (lit "like_count");
     duration := duration;
     thumbnail := lookup props (lit "thumbnail");
     publishedAt := published;
     description := lookup props (lit "description")
   |}).
Proof.
  unfold parseVideoInfo, getField. cbn [bindCompletion].
  destruct (parseUploadDate (lookup props (lit "upload_date"))); reflexivity.
Qed.

(** What the mapper returns on an object, when it returns. *)
Lemma parseVideoInfo_returns props video :
  parseVideoInfo (JObject props) = Normal video ->
  exists published link length,
    parseUploadDate (lookup props (lit "upload_date")) = Normal published
    /\ urlOf (lookup props (lit "webpage_url")) (lookup props (lit "id")) = Normal link
    /\ formatDuration (lookup props (lit "duration")) = Normal length
    /\ video = {|
         id := lookup props (lit "id");
         title := or_else (lookup props (lit "title")) (JString (lit "Unknown Title"));
         url := link;
         channel := or_else (or_else (lookup props (lit "channel"))
                                     (lookup props (lit "uploader")))
                            (JString (lit "Unknown Channel"));
         channelUrl := or_else (lookup props (lit "channel_url"))
                               (lookup props (lit "uploader_url"));
         viewCount := or_else (lookup props (lit "view_count")) (JNumber (numberOfZ 0));
         likeCount := lookup props (lit "like_count");
         duration := length;
         thumbnail := lookup props (lit "thumbnail");
         publishedAt := published;
         description := lookup props (lit "description")
       |}.
Proof.
  rewrite parseVideoInfo_object. intros H.
  destruct (parseUploadDate _) as [published|]; [|discriminate].
  destruct (urlOf _ _) as [link|]; [|discriminate].
  destruct (formatDuration _) as [length|]; [|discriminate].
  injection H as <-. exists published, link, length. auto.
Qed.

Lemma jsstring_eqb_eq a : forall b, jsstring_eqb a b = true <-> a = b.
Proof.
  induction a as [|x a IH]; intros [|y b]; simpl; split; intros H;
    try reflexivity; try discriminate.
  - apply andb_prop in H. destruct H as [H1 H2].
    apply N.eqb_eq in H1. apply IH in H2. congruence.
  - inversion H; subst. rewrite N.eqb_refl. apply IH. reflexivity.
Qed.

(** Setting one key leaves the other keys as they were. *)
Lemma lookup_set_other props key key' v :
  key <> key' -> lookup (props ++ [(key', v)]) key = lookup props key.
Proof.
  intros Hk. induction props as [|[k w] rest IH]; simpl.
  - destruct (jsstring_eqb key' key) eqn:E; [|reflexivity].
    apply jsstring_eqb_eq in E. congruence.
  - rewrite IH. reflexivity.
Qed.

(** C9, amended.  View-count defaulting: for every decoded object the
    mapper maps, the record's [viewCount] is the [view_count] field when that
    field is truthy, and zero when it is falsy; so a number is kept (a zero
    as zero), and an absent field gives zero.  Whether the mapper throws
    does not depend on the field: setting it to any value leaves a mapping
    that completes completing, and one that throws throwing. *)
Theorem viewCount_defaulting (props : list (jsstring * JSValue)) :
  let field := lookup props (lit "view_count") in
  (forall video, parseVideoInfo (JObject props) = Normal video ->
     viewCount video = (if truthy field then field else JNumber (numberOfZ 0))
     /\ (forall n, field = JNumber n ->
           viewCount video = JNumber n
           \/ (numberIsZero n = true /\ viewCount video = JNumber (numberOfZ 0)))
     /\ (field = JUndefined -> viewCount video = JNumber (numberOfZ 0)))
  /\ (forall other,
        (exists video, parseVideoInfo (JObject props) = Normal video) <->
        (exists video,
           parseVideoInfo (JObject (props ++ [(lit "view_count", other)]))
           = Normal video)).
Proof.
  intros field. split.
  - intros video H. apply parseVideoInfo_returns in H.
    destruct H as (published & link & length & _ & _ & _ & ->).
    cbn [viewCount]. fold field. unfold or_else.
    split; [reflexivity|]. split.
    + intros n ->. simpl. destruct (numberIsZero n); simpl; auto.
    + intros ->. reflexivity.
  - intros other. rewrite !parseVideoInfo_object.
    rewrite !lookup_set_other by (vm_compute; discriminate).
    destruct (parseUploadDate _); cbn [bindCompletion];
      [|split; intros [v H]; discriminate].
    destruct (urlOf _ _); cbn [bindCompletion];
      [|split; intros [v H]; discriminate].
    destruct (formatDuration _); cbn [bindCompletion];
      split; intros [v H]; try discriminate; eauto.
Qed.

(** C9, witness: a count of 1000 is kept; a count of 0, and a missing
    count, give 0. *)
Lemma viewCount_defaulting_witness :
  (exists video, parseVideoInfo (counted (JNumber (numberOfZ 1000))) = Normal video
                 /\ viewCount video = JNumber (numberOfZ 1000))
  /\ (exists video, parseVideoInfo (JObject []) = Normal video
                    /\ viewCount video = JNumber (numberOfZ 0)).
Proof.
  split.
  - destruct (parseVideoInfo (counted (JNumber (numberOfZ 1000)))) as [video|e] eqn:E;
      [|vm_compute in E; discriminate E].
    exists video. split; [reflexivity|].
    destruct (viewCount_defaulting [(lit "view_count", JNumber (numberOfZ 1000))])
      as [H _].
    destruct (H video E) as (_ & Hn & _).
    destruct (Hn (numberOfZ 1000) eq_refl) as [Hv | [Hz _]];
      [exact Hv | vm_compute in Hz; discriminate Hz].
  - destruct (parseVideoInfo (JObject [])) as [video|e] eqn:E;
      [|vm_compute in E; discriminate E].
    exists video. split; [reflexivity|].
    destruct (viewCount_defaulting []) as [H _].
    destruct (H video E) as (_ & _ & Hu). apply Hu. reflexivity.
Defined.

(** C9, counterexample: the text [{"view_count":"12"}] decodes to an object
    whose count is a string, and the mapper keeps the string. *)
Lemma viewCount_nonnumeric_kept :
  JSON.parse (lit "{" ++ [34%N] ++ lit "view_count" ++ [34%N] ++ lit ":"
              ++ [34%N] ++ lit "12" ++ [34%N] ++ lit "}")
  = Some (counted (JString (lit "12")))
  /\ exists video,
       parseVideoInfo (counted (JString (lit "12"))) = Normal video
       /\ viewCount video = JString (lit "12")
       /\ viewCount video <> JNumber (numberOfZ 0).
Proof.
  split; [vm_compute; reflexivity|].
  eexists. split; [vm_compute; reflexivity|]. split; [reflexivity|]. discriminate.
Qed.

(** ** Dates and arguments *)

Lemma fixedDecimal_length w : forall n, List.length (fixedDecimal w n) = w.
Proof.
  induction w as [|w IH]; intros n; simpl; [reflexivity|].
  rewrite length_app, IH. simpl. lia.
Qed.

Lemma fixedDecimal_digits w : forall n, Forall isDecimalDigit (fixedDecimal w n).
Proof.
  induction w as [|w IH]; intros n; cbn [fixedDecimal]; [constructor|].
  apply Forall_app. split; [apply IH|]. constructor; [|constructor].
  unfold isDecimalDigit. pose proof (Z.mod_pos_bound n 10 ltac:(lia)).
  split; apply N2Z.inj_le; rewrite Z2N.id by lia; lia.
Qed.

Lemma removeDashes_digits s : Forall isDecimalDigit s -> removeDashes s = s.
Proof.
  unfold removeDashes. induction 1 as [|c r Hc _ IH]; simpl; [reflexivity|].
  replace (c =? 45)%N with false.
  - simpl. rewrite IH. reflexivity.
  - symmetry. apply N.eqb_neq. unfold isDecimalDigit in Hc. lia.
Qed.

Lemma removeDashes_app a b : removeDashes (a ++ b) = removeDashes a ++ removeDashes b.
Proof. apply filter_app. Qed.

Lemma removeDashes_dash : removeDashes (lit "-") = [].
Proof. reflexivity. Qed.

Lemma slice_take {A} (p r : list A) :
  slice (p ++ r) 0 (Some (Z.of_nat (List.length p))) = p.
Proof.
  unfold slice, relIndex. rewrite length_app.
  replace (Z.of_nat (List.length p) <? 0)%Z with false by (symmetry; apply Z.ltb_ge; lia).
  change (0 <? 0)%Z with false. cbv iota.
  rewrite !Z.min_l by lia. change (Z.to_nat 0) with 0%nat. cbn [skipn].
  rewrite Z.sub_0_r, Nat2Z.id.
  rewrite firstn_app, Nat.sub_diag, firstn_all. simpl. apply app_nil_r.
Qed.

Section ClockFacts.
Variable LocalTZA : Z -> bool -> Z.

(** [setDate(getDate() - days)] moves the local time back by whole days. *)
Lemma setDate_days now days :
  setDate LocalTZA now (getDate LocalTZA now - days)
  = TimeClip (UTC LocalTZA (LocalTime LocalTZA now - days * msPerDay)).
Proof.
  unfold setDate, getDate.
  destruct (civilFromDays (LocalTime LocalTZA now / msPerDay)) as [[y m] d].
  f_equal. f_equal.
  pose proof (Z.div_mod (LocalTime LocalTZA now) msPerDay ltac:(discriminate)) as H.
  unfold msPerDay in *. lia.
Qed.

(** The cutoff text of a date whose year has four digits. *)
Lemma cutoffDate_text now days t y m d :
  TimeClip (UTC LocalTZA (LocalTime LocalTZA now - days * msPerDay)) = Some t ->
  civilFromDays (t / msPerDay) = (y, m, d) ->
  (0 <= y <= 9999)%Z ->
  cutoffDate LocalTZA now days
  = Normal (fixedDecimal 4 y ++ fixedDecimal 2 m ++ fixedDecimal 2 d).
Proof.
  intros Ht Hc Hy. unfold cutoffDate. rewrite setDate_days, Ht.
  unfold toISOString. cbn [bindCompletion]. f_equal.
  assert (Hd : isoDate t = fixedDecimal 4 y ++ lit "-" ++ fixedDecimal 2 m
                           ++ lit "-" ++ fixedDecimal 2 d).
  { unfold isoDate. rewrite Hc. unfold isoYear.
    replace ((0 <=? y) && (y <=? 9999))%Z with true; [reflexivity|].
    symmetry. apply andb_true_intro. split; apply Z.leb_le; lia. }
  assert (Hl : Z.of_nat (List.length (isoDate t)) = 10%Z).
  { rewrite Hd, !length_app, !fixedDecimal_length. reflexivity. }
  rewrite <- Hl, slice_take, Hd.
  rewrite !removeDashes_app, removeDashes_dash.
  rewrite !removeDashes_digits by apply fixedDecimal_digits.
  reflexivity.
Qed.

(** C8, amended.  Recency-window arguments: with a maximum age in days in
    force (a non-zero one the caller supplies, or the default of 7 when the
    caller supplies none), whatever the named bucket, the arguments end with
    [--dateafter] and the date that many days back, as eight digits
    [YYYYMMDD], provided that date is a valid one of a year from 0 to 9999;
    with the maximum age switched off (supplied as 0 or as [undefined]) and
    a named bucket supplied, they end with [--dateafter] and the bucket's
    token. *)
Theorem recency_window_arguments (now : Z) (keyword : jsstring)
  (options : SearchOptions) :
  (forall days t y m d,
     (maxAgeDays options = Given days /\ days <> 0%Z)
     \/ (maxAgeDays options = Missing /\ days = 7%Z) ->
     TimeClip (UTC LocalTZA (LocalTime LocalTZA now - days * msPerDay)) = Some t ->
     civilFromDays (t / msPerDay) = (y, m, d) ->
     (0 <= y <= 9999)%Z ->
     exists args dateStr,
       searchArgs LocalTZA now keyword options
       = Normal (args ++ [lit "--dateafter"; dateStr])
       /\ dateStr = fixedDecimal 4 y ++ fixedDecimal 2 m ++ fixedDecimal 2 d
       /\ List.length dateStr = 8%nat
       /\ Forall isDecimalDigit dateStr)
  /\ (forall r,
        maxAgeDays options = Given 0%Z \/ maxAgeDays options = Undefined ->
        dateRange options = Given r ->
        exists args,
          searchArgs LocalTZA now keyword options
          = Normal (args ++ [lit "--dateafter"; dateFilter r])).
Proof.
  split.
  - intros days t y m d Hage Ht Hc Hy.
    assert (He : effectiveMaxAge options = Some days).
    { unfold effectiveMaxAge. destruct Hage as [[-> Hd] | [-> ->]]; simpl; [|reflexivity].
      apply Z.eqb_neq in Hd. rewrite Hd. reflexivity. }
    unfold searchArgs. rewrite He, (cutoffDate_text now days Ht Hc Hy).
    cbn [bindCompletion]. eexists. eexists. split; [reflexivity|].
    split; [reflexivity|]. split.
    + rewrite !length_app, !fixedDecimal_length. reflexivity.
    + apply Forall_app; split; [apply fixedDecimal_digits|].
      apply Forall_app; split; apply fixedDecimal_digits.
  - intros r Hage Hr.
    assert (He : effectiveMaxAge options = None).
    { unfold effectiveMaxAge. destruct Hage as [-> | ->]; reflexivity. }
    unfold searchArgs. rewrite He, Hr. cbn [spread]. eexists. reflexivity.
Qed.

End ClockFacts.

(** C8, witness: three days back from 1 May 2026 00:00 UTC, in UTC; and a
    bucket with the maximum age switched off. *)
Lemma recency_window_arguments_witness :
  (exists args,
     searchArgs (fun _ _ => 0%Z) 1777593600000 (lit "news")
       {| limit := Missing; sort := Missing;
          dateRange := Given RangeThisWeek; maxAgeDays := Given 3%Z |}
     = Normal (args ++ [lit "--dateafter"; lit "20260428"]))
  /\ (exists args,
        searchArgs (fun _ _ => 0%Z) 1777593600000 (lit "news")
          {| limit := Missing; sort := Missing;
             dateRange := Given RangeThisWeek; maxAgeDays := Given 0%Z |}
        = Normal (args ++ [lit "--dateafter"; lit "thisweek"])).
Proof.
  split.
  - destruct (recency_window_arguments (fun _ _ => 0%Z) 1777593600000 (lit "news")
                {| limit := Missing; sort := Missing;
                   dateRange := Given RangeThisWeek; maxAgeDays := Given 3%Z |})
      as [H _].
    destruct (H 3%Z 1777334400000%Z 2026%Z 4%Z 28%Z) as (args & dateStr & E & -> & _).
    + left. split; [reflexivity | discriminate].
    + reflexivity.
    + reflexivity.
    + lia.
    + exists args. exact E.
  - destruct (recency_window_arguments (fun _ _ => 0%Z) 1777593600000 (lit "news")
                {| limit := Missing; sort := Missing;
                   dateRange := Given RangeThisWeek; maxAgeDays := Given 0%Z |})
      as [_ H].
    destruct (H RangeThisWeek) as (args & E).
    + left. reflexivity.
    + reflexivity.
    + exists args. exact E.
Defined.

(** C8, counterexample: a bucket alone, the maximum age left out. *)
Lemma bucket_alone_is_ignored :
  searchArgs (fun _ _ => 0%Z) 1777593600000 (lit "news")
    {| limit := Missing; sort := Missing;
       dateRange := Given RangeToday; maxAgeDays := Missing |}
  = Normal [lit "ytsearchdate10:news"; lit "--dump-json"; lit "--flat-playlist";
            lit "--no-warnings"; lit "--quiet"; lit "--playlist-end"; lit "10";
            lit "--dateafter"; lit "20260424"].
Proof. vm_compute. reflexivity. Qed.

(* ================================================================== *)
(** * Facts about the collector *)
(* ================================================================== *)

Import Collector.

Section RunFacts.
Variable LocalTZA : Z -> bool -> Z.
Variable JSON_parse : jsstring -> option JSValue.
Variable ytdlp : nat -> list jsstring -> ProcessRun * Z.
Variable bindRow : VideoValues -> Completion Video.Row.

Local Abbreviation collectByKeyword := (collectByKeyword LocalTZA JSON_parse ytdlp bindRow).
Local Abbreviation collectLoop := (collectLoop LocalTZA JSON_parse ytdlp bindRow).
Local Abbreviation collectAll := (collectAll LocalTZA JSON_parse ytdlp bindRow).
Local Abbreviation searchYouTube := (searchYouTube LocalTZA JSON_parse ytdlp).

(** C7.  Inactive-keyword short-circuit: for a keyword that exists and is
    not active, [collectByKeyword] returns at once with [videosCollected] 0
    and the marker ['Keyword is inactive'], in the world it was called in:
    nothing was spawned, and the database is untouched. *)
Theorem inactive_keyword_short_circuit (keywordId limit : Z) (w : World)
  (keyword : Keyword.Row) :
  find (fun k => (Keyword.id k =? keywordId)%Z) (keywords (db w)) = Some keyword ->
  Keyword.isActive keyword <> Some true ->
  exists result,
    collectByKeyword keywordId limit w = Normal (result, w)
    /\ videosCollected result = 0%Z
    /\ errors result = Some (lit "Keyword is inactive")
    /\ Collector.keywordId result = keywordId
    /\ keywordName result = Keyword.name keyword.
Proof.
  intros Hfind Hinactive. unfold Collector.collectByKeyword. rewrite Hfind.
  assert (E : isActiveTruthy keyword = false).
  { unfold isActiveTruthy. destruct (Keyword.isActive keyword) as [[|]|]; congruence. }
  rewrite E. simpl. eexists. repeat split.
Qed.

Lemma collectByKeyword_id keywordId limit w r w1 :
  collectByKeyword keywordId limit w = Normal (r, w1) ->
  Collector.keywordId r = keywordId.
Proof.
  unfold Collector.collectByKeyword.
  destruct (find _ _) as [keyword|]; [|discriminate].
  destruct (negb (isActiveTruthy keyword)).
  - intros H. injection H as <- _. reflexivity.
  - destruct (Collector.searchYouTube _ _ _ _ _ _) as [[vs|e] w'].
    + destruct (fold_left _ vs _) as [n w2]. intros H. injection H as <- _. reflexivity.
    + intros H. injection H as <- _. reflexivity.
Qed.

(** What the loop of [collectAll] adds to its variables. *)
Lemma collectLoop_progress limit ks : forall p w p' w',
  collectLoop limit ks p w = Normal (p', w') ->
  exists rs,
    progress_results p' = progress_results p ++ rs
    /\ map Collector.keywordId rs = map Keyword.id ks
    /\ progress_totalVideos p' = (progress_totalVideos p + sumCollected rs)%Z
    /\ progress_hasErrors p' = progress_hasErrors p || existsb hasError rs.
Proof.
  induction ks as [|k ks IH]; intros p w p' w' H; simpl in H.
  - injection H as <- <-. exists []. simpl.
    rewrite app_nil_r, Z.add_0_r, orb_false_r. auto.
  - destruct (collectByKeyword (Keyword.id k) limit w) as [[r w1]|e] eqn:E;
      [|discriminate]. simpl in H.
    apply IH in H. destruct H as (rs & H1 & H2 & H3 & H4). simpl in *.
    exists (r :: rs). simpl. rewrite H1, H2, H3, H4, (collectByKeyword_id _ _ _ E).
    rewrite <- app_assoc, orb_assoc. repeat split. lia.
Qed.

Lemma collectAll_inv limit w result w' :
  collectAll limit w = Normal (result, w') ->
  filter isActiveRow (keywords (db w)) <> [] ->
  exists p,
    results result = progress_results p
    /\ totalVideos result = progress_totalVideos p
    /\ status result = classify (progress_hasErrors p) (progress_totalVideos p)
    /\ totalKeywords result
       = Z.of_nat (List.length (filter isActiveRow (keywords (db w))))
    /\ exists rs,
         progress_results p = rs
         /\ map Collector.keywordId rs = map Keyword.id (filter isActiveRow (keywords (db w)))
         /\ progress_totalVideos p = sumCollected rs
         /\ progress_hasErrors p = existsb hasError rs.
Proof.
  unfold Collector.collectAll, checkYtDlp, spawn.
  destruct (ytdlp _ _) as [run took]. cbn [db].
  destruct (negb _); [discriminate|].
  intros H Hactive.
  destruct (filter isActiveRow (keywords (db w))) as [|k ks] eqn:Ek; [congruence|].
  destruct (collectLoop limit (k :: ks) _ _) as [[p w2]|e] eqn:El; [|discriminate].
  cbn [bindCompletion] in H. injection H as <- _. exists p. cbn.
  repeat split.
  apply collectLoop_progress in El. destruct El as (rs & H1 & H2 & H3 & H4).
  simpl in *. exists rs. auto.
Qed.

(** *** A run whose preflight succeeds completes *)

Lemma upsertVideo_keywords values w w1 :
  upsertVideo bindRow values w = Normal w1 -> keywords (db w1) = keywords (db w).
Proof.
  unfold upsertVideo. destruct (bindRow values) as [row|e]; [|discriminate].
  cbn [bindCompletion]. intros H. injection H as <-. reflexivity.
Qed.

Lemma saveVideo_keywords keyword acc video :
  keywords (db (snd (saveVideo bindRow keyword acc video))) = keywords (db (snd acc)).
Proof.
  unfold saveVideo. destruct acc as [n w].
  destruct (upsertVideo bindRow _ w) as [w1|e] eqn:E; [|reflexivity].
  exact (upsertVideo_keywords _ _ E).
Qed.

Lemma fold_saveVideo_keywords keyword vs : forall acc,
  keywords (db (snd (fold_left (saveVideo bindRow keyword) vs acc)))
  = keywords (db (snd acc)).
Proof.
  induction vs as [|v vs IH]; intros acc; simpl; [reflexivity|].
  rewrite IH. apply saveVideo_keywords.
Qed.

Lemma searchYouTube_db keyword options w :
  db (snd (searchYouTube keyword options w)) = db w.
Proof.
  unfold Collector.searchYouTube, spawn.
  destruct (searchArgs _ _ _ _); [|reflexivity].
  destruct (ytdlp _ _). reflexivity.
Qed.

(** A keyword that is in the table is collected without a throw, and the
    table of keywords stays as it is. *)
Lemma collectByKeyword_total keywordId limit w :
  find (fun k => (Keyword.id k =? keywordId)%Z) (keywords (db w)) <> None ->
  exists r w1,
    collectByKeyword keywordId limit w = Normal (r, w1)
    /\ keywords (db w1) = keywords (db w).
Proof.
  intros Hfind. unfold Collector.collectByKeyword.
  destruct (find _ _) as [keyword|]; [|congruence].
  destruct (negb (isActiveTruthy keyword)); [eauto|].
  pose proof (searchYouTube_db (Keyword.name keyword)
                {| limit := Given limit; sort := Missing;
                   dateRange := Missing; maxAgeDays := Missing |} w) as Hdb.
  destruct (Collector.searchYouTube _ _ _ _ _ _) as [[vs|e] w1]; simpl in Hdb.
  - pose proof (fold_saveVideo_keywords keyword vs (0%Z, w1)) as Hk.
    destruct (fold_left _ vs _) as [n w2]. simpl in Hk.
    do 2 eexists. split; [reflexivity|]. rewrite Hk, Hdb. reflexivity.
  - do 2 eexists. split; [reflexivity|]. rewrite Hdb. reflexivity.
Qed.

Lemma find_id_present (k : Keyword.Row) ks :
  In k ks -> find (fun x => (Keyword.id x =? Keyword.id k)%Z) ks <> None.
Proof.
  intros Hin Hnone. apply (find_none _ _ Hnone) in Hin.
  rewrite Z.eqb_refl in Hin. discriminate.
Qed.

Lemma collectLoop_total limit ks : forall p w,
  (forall k, In k ks -> In k (keywords (db w))) ->
  exists p' w', collectLoop limit ks p w = Normal (p', w').
Proof.
  induction ks as [|k ks IH]; intros p w Hin; simpl; [eauto|].
  destruct (collectByKeyword_total (Keyword.id k) limit w) as (r & w1 & -> & Hk).
  { apply find_id_present, Hin. left. reflexivity. }
  cbn [bindCompletion]. apply IH. intros k' Hk'. simpl. rewrite Hk.
  apply Hin. right. exact Hk'.
Qed.

(** Once the version check has succeeded, [collectAll] returns: the
    keywords it walks over are in the table, so none is reported missing. *)
Theorem collectAll_completes (limit : Z) (w : World) :
  fst (checkYtDlp ytdlp w) = true ->
  exists result w', collectAll limit w = Normal (result, w').
Proof.
  unfold Collector.collectAll. destruct (checkYtDlp ytdlp w) as [ok w0] eqn:E.
  simpl. intros ->. simpl.
  destruct (filter isActiveRow (keywords (db w0))) as [|k ks] eqn:Ek; [eauto|].
  destruct (collectLoop_total limit (k :: ks)
              {| progress_results := []; progress_totalVideos := 0;
                 progress_hasErrors := false |} w0) as (p & w1 & ->).
  { intros k' Hk'. rewrite <- Ek in Hk'. apply filter_In in Hk'. tauto. }
  cbn [bindCompletion]. eauto.
Qed.

(** C10.  Result consistency of [collectAll]: in a completed run (the
    preflight succeeded) over a non-empty list of active keywords, the result
    has one entry per active keyword, in the order of the list;
    [totalKeywords] is the number of active keywords and of entries, and
    [totalVideos] is the sum of [videosCollected] over the entries. *)
Theorem collectAll_result_consistent (limit : Z) (w w' : World)
  (result : CollectAllResult) :
  collectAll limit w = Normal (result, w') ->
  filter isActiveRow (keywords (db w)) <> [] ->
  map Collector.keywordId (results result)
    = map Keyword.id (filter isActiveRow (keywords (db w)))
  /\ List.length (results result)
     = List.length (filter isActiveRow (keywords (db w)))
  /\ totalKeywords result = Z.of_nat (List.length (results result))
  /\ totalVideos result = sumCollected (results result).
Proof.
  intros H Hactive.
  destruct (collectAll_inv _ _ H Hactive) as (p & Hr & Hv & _ & Hk & rs & <- & Hids & Hsum & _).
  rewrite Hr, Hv, Hk.
  assert (Hlen : List.length (progress_results p)
                 = List.length (filter isActiveRow (keywords (db w)))).
  { rewrite <- (length_map Collector.keywordId), Hids, length_map. reflexivity. }
  rewrite Hlen. auto.
Qed.

(** C1, amended.  Run classification: in a completed run over a non-empty
    list of active keywords, the status is [partial] when any keyword
    reported an error, whatever the number of videos; [success] when none did
    and more than zero videos were collected; [failed] when none did and zero
    videos were collected. *)
Theorem run_status_classification (limit : Z) (w w' : World)
  (result : CollectAllResult) :
  collectAll limit w = Normal (result, w') ->
  filter isActiveRow (keywords (db w)) <> [] ->
  (existsb hasError (results result) = true -> status result = partial)
  /\ (existsb hasError (results result) = false ->
      (totalVideos result > 0)%Z -> status result = success)
  /\ (existsb hasError (results result) = false ->
      totalVideos result = 0%Z -> status result = failed).
Proof.
  intros H Hactive.
  destruct (collectAll_inv _ _ H Hactive) as (p & Hr & Hv & Hs & _ & rs & <- & _ & _ & He).
  rewrite Hr, Hv, Hs, He. unfold classify.
  repeat split.
  - intros ->. reflexivity.
  - intros -> Hpos. replace (progress_totalVideos p >? 0)%Z with true; [reflexivity|].
    symmetry. apply Z.gtb_lt. lia.
  - intros -> ->. reflexivity.
Qed.

End RunFacts.

(** ** Sample runs *)

(** C1, witness: two active keywords; the tool finds three videos for the
    first and fails for the second. *)
Lemma run_status_classification_witness :
  exists result w',
    collectAll utc JSON.parse tool driver 10 world = Normal (result, w')
    /\ totalVideos result = 3%Z
    /\ existsb hasError (results result) = true
    /\ status result = partial.
Proof.
  assert (E : exists result w',
             collectAll utc JSON.parse tool driver 10 world = Normal (result, w')
             /\ totalVideos result = 3%Z
             /\ existsb hasError (results result) = true)
    by (do 2 eexists; vm_compute; repeat split).
  destruct E as (result & w' & E & Hv & He).
  exists result, w'. split; [exact E|]. split; [exact Hv|]. split; [exact He|].
  assert (Hne : filter isActiveRow (keywords (db world)) <> [])
    by (vm_compute; discriminate).
  destruct (run_status_classification utc JSON.parse tool driver 10 world E Hne)
    as (Hp & _ & _).
  apply Hp, He.
Defined.

(** C1, counterexample: one active keyword, and the tool fails for it: no
    video is collected, and the run is classified partial, not failed. *)
Lemma errors_without_videos_is_partial :
  exists result w',
    collectAll utc JSON.parse failingTool driver 10 smallWorld = Normal (result, w')
    /\ existsb hasError (results result) = true
    /\ totalVideos result = 0%Z
    /\ status result = partial
    /\ status result <> failed.
Proof.
  do 2 eexists. vm_compute. repeat split. discriminate.
Qed.

(** C7, witness: the keyword that is switched off. *)
Lemma inactive_keyword_short_circuit_witness :
  exists result,
    collectByKeyword utc JSON.parse tool driver 3 10 world = Normal (result, world)
    /\ videosCollected result = 0%Z
    /\ errors result = Some (lit "Keyword is inactive").
Proof.
  destruct (inactive_keyword_short_circuit utc JSON.parse tool driver 3 10 world
              (keyword := keywordRow 3 "nextjs" false) eq_refl
              ltac:(discriminate))
    as (result & H1 & H2 & H3 & _).
  exists result. auto.
Defined.

(** C10, witness: the same run of two active keywords. *)
Lemma collectAll_result_consistent_witness :
  exists result w',
    collectAll utc JSON.parse tool driver 10 world = Normal (result, w')
    /\ map Collector.keywordId (results result) = [1%Z; 2%Z]
    /\ List.length (results result) = 2%nat
    /\ totalKeywords result = Z.of_nat (List.length (results result))
    /\ totalVideos result = sumCollected (results result).
Proof.
  assert (E : exists result w',
             collectAll utc JSON.parse tool driver 10 world = Normal (result, w'))
    by (do 2 eexists; vm_compute; reflexivity).
  destruct E as (result & w' & E).
  exists result, w'. split; [exact E|].
  assert (Hne : filter isActiveRow (keywords (db world)) <> [])
    by (vm_compute; discriminate).
  exact (collectAll_result_consistent utc JSON.parse tool driver 10 world E Hne).
Defined.

(** ** Numbers that are exact *)

Section NumberFacts.
Local Open Scope Z_scope.

(** The rounded quotient is within a half of the quotient. *)
Lemma roundHalfEven_near p q :
  0 < q -> 2 * p - q <= 2 * q * roundHalfEven p q <= 2 * p + q.
Proof.
  intros Hq. unfold roundHalfEven.
  pose proof (Z.div_mod p q ltac:(lia)) as E.
  pose proof (Z.mod_pos_bound p q Hq) as B.
  destruct (Z.ltb_spec (2 * (p mod q)) q); [nia|].
  destruct (Z.ltb_spec q (2 * (p mod q))); [nia|].
  destruct (Z.even (p / q)); nia.
Qed.

Lemma numberOfInteger_safe n : Z.abs n < 2 ^ 53 -> numberOfInteger n = n.
Proof.
  intros H. unfold numberOfInteger. apply Z.ltb_lt in H. rewrite H. reflexivity.
Qed.

Lemma exponentOf_small p q :
  0 < p < 2 ^ 52 -> 0 < q ->
  exponentOf p q < 0 /\ q < 2 ^ (- exponentOf p q).
Proof.
  intros Hp Hq.
  assert (Hlp : Z.log2 p < 52) by (apply Z.log2_lt_pow2; lia).
  pose proof (Z.log2_nonneg q) as Hlq.
  pose proof (Z.log2_spec q Hq) as [_ Hq2].
  unfold exponentOf.
  set (k := Z.log2 p - Z.log2 q).
  set (below := if 0 <=? k then _ else _).
  assert (He : (if below then k - 1 else k) - 52 <= k - 52) by (destruct below; lia).
  split; [lia|].
  apply Z.lt_le_trans with (1 := Hq2).
  apply Z.pow_le_mono_r; lia.
Qed.

Lemma roundDiv_exact a b :
  0 <= a < 2 ^ 52 -> 0 < b -> roundDiv a b = (2 * a + b) / (2 * b).
Proof.
  intros Ha Hb. unfold roundDiv, divide.
  destruct (Z.eqb_spec a 0) as [->|Hne].
  - unfold Math_round. cbn [mantissa exponent]. change (0 <=? 0) with true. cbv iota.
    rewrite Z.mul_0_l. symmetry. apply Z.div_small. lia.
  - assert (Hpos : 0 < a < 2 ^ 52) by lia.
    destruct (@exponentOf_small a b Hpos Hb) as [He Hn].
    rewrite Z.abs_eq by lia. rewrite Z.sgn_pos by lia.
    set (e := exponentOf a b) in *.
    assert (E0 : (0 <=? e) = false) by (apply Z.leb_gt; exact He).
    rewrite E0. unfold Math_round. cbn [mantissa exponent]. rewrite E0.
    rewrite Z.mul_1_l.
    set (N' := 2 ^ (- e - 1)).
    assert (HN' : 0 < N') by (apply Z.pow_pos_nonneg; lia).
    assert (EN : 2 ^ (- e) = 2 * N').
    { unfold N'. rewrite <- Z.pow_succ_r by lia. f_equal. lia. }
    assert (EN2 : 2 ^ (1 - e) = 2 * (2 * N')).
    { rewrite <- EN, <- Z.pow_succ_r by lia. f_equal. lia. }
    rewrite EN2, EN in *.
    set (m := roundHalfEven (a * (2 * N')) b).
    pose proof (@roundHalfEven_near (a * (2 * N')) b Hb) as Hm. fold m in Hm.
    set (n := (2 * a + b) / (2 * b)).
    pose proof (Z.div_mod (2 * a + b) (2 * b) ltac:(lia)) as En.
    pose proof (Z.mod_pos_bound (2 * a + b) (2 * b) ltac:(lia)) as Bn.
    fold n in En.
    symmetry. apply (Z.div_unique _ _ n (2 * m + 2 * N' - 2 * (2 * N') * n)); [|lia].
    left.
    assert (L1 : b * (2 * n - 1) <= 2 * a) by lia.
    assert (U1 : 2 * a + 1 <= b * (2 * n + 1)) by lia.
    assert (L2 : b * (N' * (2 * n - 1)) <= a * (2 * N')) by nia.
    assert (U2 : a * (2 * N') + N' <= b * (N' * (2 * n + 1))) by nia.
    assert (L3 : b * (N' * (2 * n - 1)) <= b * m + b - 1) by lia.
    assert (U3 : b * m < b * (N' * (2 * n + 1))) by nia.
    assert (L4 : N' * (2 * n - 1) <= m) by nia.
    assert (U4 : m < N' * (2 * n + 1)) by nia.
    lia.
Qed.

(** Half rounds up: the quotient is within a half of the rounded value. *)
Lemma roundDiv_nearest a b :
  0 <= a < 2 ^ 52 -> 0 < b ->
  2 * a - b < 2 * b * roundDiv a b <= 2 * a + b.
Proof.
  intros Ha Hb. rewrite (@roundDiv_exact a b Ha Hb).
  pose proof (Z.div_mod (2 * a + b) (2 * b) ltac:(lia)) as E.
  pose proof (Z.mod_pos_bound (2 * a + b) (2 * b) ltac:(lia)) as B.
  lia.
Qed.

End NumberFacts.

(** ** Aggregates *)

Lemma totalViewsOf_nonneg vs :
  (forall v, In v vs -> (0 <= views v)%Z) -> (0 <= totalViewsOf vs)%Z.
Proof.
  induction vs as [|v vs IH]; intros H; [cbn; lia|].
  change (totalViewsOf (v :: vs)) with (views v + totalViewsOf vs)%Z.
  pose proof (H v (or_introl eq_refl)).
  assert (0 <= totalViewsOf vs)%Z by (apply IH; intros x Hx; apply H; right; exact Hx).
  lia.
Qed.

(** A count that is not negative is at most the total. *)
Lemma views_below_total vs v :
  (forall x, In x vs -> (0 <= views x)%Z) -> In v vs ->
  (views v <= totalViewsOf vs)%Z.
Proof.
  induction vs as [|x vs IH]; intros H Hin; [contradiction|].
  change (totalViewsOf (x :: vs)) with (views x + totalViewsOf vs)%Z.
  assert (Hvs : forall y, In y vs -> (0 <= views y)%Z)
    by (intros y Hy; apply H; right; exact Hy).
  pose proof (H x (or_introl eq_refl)).
  pose proof (@totalViewsOf_nonneg vs Hvs).
  destruct Hin as [<-|Hin]; [lia|]. specialize (IH Hvs Hin). lia.
Qed.

(** Below 2^53 the counts are read, and added, exactly. *)
Lemma viewCountOf_exact v :
  (0 <= views v < 2 ^ 53)%Z -> viewCountOf v = views v.
Proof. intros H. apply numberOfInteger_safe. lia. Qed.

Lemma fold_sum_views vs : forall acc,
  (0 <= acc)%Z ->
  (forall v, In v vs -> (0 <= views v)%Z) ->
  (acc + totalViewsOf vs < 2 ^ 53)%Z ->
  fold_left (fun sum v => add sum (viewCountOf v)) vs acc = (acc + totalViewsOf vs)%Z.
Proof.
  induction vs as [|v vs IH]; intros acc Hacc Hpos Hsum; cbn [fold_left].
  - cbn. lia.
  - change (totalViewsOf (v :: vs)) with (views v + totalViewsOf vs)%Z in *.
    assert (Hvs : forall y, In y vs -> (0 <= views y)%Z)
      by (intros y Hy; apply Hpos; right; exact Hy).
    pose proof (Hpos v (or_introl eq_refl)) as Hv.
    pose proof (@totalViewsOf_nonneg vs Hvs) as Ht.
    rewrite viewCountOf_exact by lia.
    unfold add. rewrite numberOfInteger_safe by lia.
    rewrite IH by (try assumption; lia). lia.
Qed.

Lemma topOf_firstMax rest : forall cur before after,
  (forall v, In v (cur :: rest) -> viewCountOf v = views v) ->
  (forall v, In v before -> (views v < views cur)%Z) ->
  (forall v, In v after -> (views v <= views cur)%Z) ->
  firstMax (topOf cur rest) (before ++ cur :: after ++ rest).
Proof.
  unfold topOf.
  induction rest as [|v rest IH]; intros cur before after He Hb Ha; cbn [fold_left].
  - rewrite app_nil_r. exists before, after. auto.
  - rewrite (He v) by (right; left; reflexivity).
    rewrite (He cur) by (left; reflexivity).
    destruct (Z.gtb_spec (views v) (views cur)) as [Hgt|Hle].
    + replace (before ++ cur :: after ++ v :: rest)
        with ((before ++ cur :: after) ++ v :: [] ++ rest)
        by (rewrite <- app_assoc; reflexivity).
      apply IH.
      * intros x [<-|Hx]; apply He; [right; left; reflexivity | right; right; exact Hx].
      * intros x Hx. apply in_app_or in Hx. destruct Hx as [Hx|[<-|Hx]].
        -- specialize (Hb x Hx). lia.
        -- lia.
        -- specialize (Ha x Hx). lia.
      * intros x [].
    + replace (before ++ cur :: after ++ v :: rest)
        with (before ++ cur :: (after ++ [v]) ++ rest)
        by (rewrite <- app_assoc; reflexivity).
      apply IH; [|exact Hb|].
      * intros x [<-|Hx]; apply He; [left; reflexivity | right; right; exact Hx].
      * intros x Hx. apply in_app_or in Hx. destruct Hx as [Hx|[<-|[]]].
        -- exact (Ha x Hx).
        -- lia.
Qed.

(** What [aggregate] computes from counts that are not negative and whose
    sum is below 2^52. *)
Lemma aggregate_spec first rest :
  let vs := first :: rest in
  let a := aggregate first rest in
  (forall v, In v vs -> (0 <= views v)%Z) ->
  (totalViewsOf vs < 2 ^ 52)%Z ->
  agg_videoCount a = Z.of_nat (List.length vs)
  /\ agg_totalViews a = totalViewsOf vs
  /\ agg_avgViews a = roundDiv (totalViewsOf vs) (Z.of_nat (List.length vs))
  /\ exists top, agg_topVideoId a = Video.id top /\ firstMax top vs.
Proof.
  intros vs a Hpos Hsum. unfold a, aggregate.
  cbn [agg_videoCount agg_totalViews agg_avgViews agg_topVideoId].
  fold vs. rewrite (@fold_sum_views vs 0) by (try assumption; lia).
  rewrite Z.add_0_l.
  repeat split.
  exists (topOf first rest). split; [reflexivity|].
  apply (@topOf_firstMax rest first [] []); [|intros x []|intros x []].
  intros x Hx. apply viewCountOf_exact.
  pose proof (Hpos x Hx). pose proof (@views_below_total vs x Hpos Hx). lia.
Qed.

(** ** The trends table *)

Section TrendFacts.
Variables today at_ : Z.
Variable videos : list Video.Row.

Local Abbreviation step := (updateTrend today at_ videos).

Local Abbreviation recorded := (recorded today videos).
Local Abbreviation aggregateOf := (aggregateOf today videos).

Lemma find_map_same {A} (p : A -> bool) (f : A -> A) l :
  (forall x, p (f x) = p x) ->
  find p (map f l) = option_map f (find p l).
Proof.
  intros H. induction l as [|x l IH]; simpl; [reflexivity|].
  rewrite H. destruct (p x); [reflexivity | exact IH].
Qed.

Lemma find_app_some {A} (p : A -> bool) l l' x :
  find p l = Some x -> find p (l ++ l') = Some x.
Proof.
  induction l as [|y l IH]; simpl; [discriminate|].
  destruct (p y); [auto | exact IH].
Qed.

Lemma find_app_none {A} (p : A -> bool) l l' :
  find p l = None -> find p (l ++ l') = find p l'.
Proof.
  induction l as [|y l IH]; simpl; [reflexivity|].
  destruct (p y); [discriminate | exact IH].
Qed.

Lemma same_id_same_row (trends : list Trend.Row) x y :
  NoDup (map Trend.id trends) -> In x trends -> In y trends ->
  Trend.id x = Trend.id y -> x = y.
Proof.
  induction trends as [|t ts IH]; simpl; intros Hnd Hx Hy E; [contradiction|].
  inversion Hnd as [|? ? Hnot Hnd']; subst.
  destruct Hx as [<-|Hx], Hy as [<-|Hy]; auto.
  - exfalso. apply Hnot. rewrite E. apply in_map, Hy.
  - exfalso. apply Hnot. rewrite <- E. apply in_map, Hx.
Qed.

Lemma nextId_above ids x : In x ids -> (x < nextId ids)%Z.
Proof.
  unfold nextId. induction ids as [|y ids IH]; simpl; [contradiction|].
  intros [<-|H]; [lia|]. specialize (IH H). lia.
Qed.

Lemma isDailyTrend_keyword k k' t :
  isDailyTrend today k t = true -> isDailyTrend today k' t = true -> k = k'.
Proof.
  unfold isDailyTrend. destruct (Trend.keywordId t) as [x|]; [|discriminate].
  intros H H'. apply andb_prop in H. destruct H as [H _]. apply andb_prop in H. destruct H as [H _].
  apply andb_prop in H'. destruct H' as [H' _]. apply andb_prop in H'. destruct H' as [H' _].
  apply Z.eqb_eq in H. apply Z.eqb_eq in H'. congruence.
Qed.

(** Rows keep their ids, and a new row gets a fresh one. *)
Lemma step_NoDup trends k :
  NoDup (map Trend.id trends) -> NoDup (map Trend.id (step trends k)).
Proof.
  intros Hnd. unfold updateTrend.
  destruct (todayVideosOf _ _ _) as [|first rest]; [exact Hnd|].
  destruct (find _ trends) as [existing|].
  - rewrite map_map.
    replace (map _ trends) with (map Trend.id trends); [exact Hnd|].
    apply map_ext. intros t. destruct (Trend.id t =? Trend.id existing)%Z; reflexivity.
  - rewrite map_app. simpl. apply NoDup_app.
    + exact Hnd.
    + constructor; [intros [] | constructor].
    + intros x Hx [<-|[]]. apply nextId_above in Hx. lia.
Qed.

(** After its turn, a keyword's row holds its aggregate. *)
Lemma step_records trends k :
  recorded (step trends k) (Keyword.id k).
Proof.
  intros a Ha. unfold updateTrend, aggregateOf in *.
  destruct (todayVideosOf _ _ _) as [|first rest]; [discriminate|].
  injection Ha as <-.
  destruct (find _ trends) as [existing|] eqn:E.
  - rewrite (find_map_same _ _ trends).
    + rewrite E. simpl. rewrite Z.eqb_refl. eexists. split; reflexivity.
    + intros t. destruct (Trend.id t =? Trend.id existing)%Z; reflexivity.
  - rewrite (find_app_none _ _ _ E). simpl.
    unfold isDailyTrend. simpl. rewrite !Z.eqb_refl. simpl.
    eexists. split; reflexivity.
Qed.

(** Another keyword's turn leaves a recorded row recorded. *)
Lemma step_keeps trends k kid :
  NoDup (map Trend.id trends) ->
  recorded trends kid -> recorded (step trends k) kid.
Proof.
  intros Hnd Hrec a Ha. destruct (Hrec a Ha) as (row & Hrow & Hfix).
  unfold updateTrend.
  destruct (todayVideosOf today (Keyword.id k) videos) as [|first rest] eqn:Ev;
    [exists row; auto|].
  destruct (find (isDailyTrend today (Keyword.id k)) trends) as [existing|] eqn:E.
  - rewrite (find_map_same _ _ trends).
    + rewrite Hrow. simpl.
      destruct (Z.eqb_spec (Trend.id row) (Trend.id existing)) as [Eid|Nid].
      * apply find_some in Hrow, E. destruct Hrow as [Hin Hp], E as [Hin' Hp'].
        assert (row = existing) by (eapply same_id_same_row; eauto). subst existing.
        assert (kid = Keyword.id k) by (eapply isDailyTrend_keyword; eauto). subst kid.
        unfold aggregateOf in Ha. rewrite Ev in Ha. injection Ha as <-.
        exists (setAggregate (aggregate first rest) row). split; reflexivity.
      * exists row. auto.
    + intros t. destruct (Trend.id t =? Trend.id existing)%Z; reflexivity.
  - exists row. split; [apply find_app_some, Hrow | exact Hfix].
Qed.

(** A keyword whose row is recorded is passed over unchanged. *)
Lemma step_fixed trends k :
  NoDup (map Trend.id trends) ->
  recorded trends (Keyword.id k) -> step trends k = trends.
Proof.
  intros Hnd Hrec. unfold updateTrend.
  destruct (todayVideosOf today (Keyword.id k) videos) as [|first rest] eqn:Ev;
    [reflexivity|].
  destruct (Hrec (aggregate first rest)) as (row & Hrow & Hfix).
  { unfold aggregateOf. rewrite Ev. reflexivity. }
  rewrite Hrow. rewrite <- (map_id trends) at 2. apply map_ext_in.
  intros t Ht. destruct (Z.eqb_spec (Trend.id t) (Trend.id row)) as [Eid|]; [|reflexivity].
  apply find_some in Hrow. destruct Hrow as [Hin _].
  rewrite (same_id_same_row trends t row Hnd Ht Hin Eid). exact Hfix.
Qed.

Lemma fold_step ks : forall trends,
  NoDup (map Trend.id trends) ->
  NoDup (map Trend.id (fold_left step ks trends))
  /\ (forall kid, recorded trends kid -> recorded (fold_left step ks trends) kid)
  /\ (forall k, In k ks -> recorded (fold_left step ks trends) (Keyword.id k)).
Proof.
  induction ks as [|k ks IH]; intros trends Hnd; simpl.
  - split; [exact Hnd|]. split; [auto | contradiction].
  - destruct (IH (step trends k) (step_NoDup trends k Hnd)) as (H1 & H2 & H3).
    split; [exact H1|]. split.
    + intros kid Hk. apply H2, step_keeps; assumption.
    + intros k' [<-|Hin]; [apply H2, step_records | apply H3, Hin].
Qed.

Lemma fold_step_fixed ks : forall trends,
  NoDup (map Trend.id trends) ->
  (forall k, In k ks -> recorded trends (Keyword.id k)) ->
  fold_left step ks trends = trends.
Proof.
  induction ks as [|k ks IH]; intros trends Hnd Hrec; simpl; [reflexivity|].
  rewrite (step_fixed k Hnd (Hrec k (or_introl eq_refl))).
  apply IH; [exact Hnd|]. intros k' Hk'. apply Hrec. right. exact Hk'.
Qed.

End TrendFacts.

(** C6, amended.  Daily trend aggregation, on a trends table whose ids
    are distinct: after [updateTrends], every keyword with at least one video
    collected today, whose view counts are not negative and add up to less
    than 2^52, has a daily row for today whose [videoCount] is the number of
    those videos, whose [totalViews] is the sum of their views, whose
    [avgViews] is the quotient of the two rounded to the nearest integer, and
    whose [topVideoId] is the first video with the most views; and running
    [updateTrends] again later on the same day, whatever the counts, changes
    nothing: the rows are updated in place with the same values, and none is
    added. *)
Theorem daily_trend_aggregation (LocalTZA : Z -> bool -> Z) (w : World) :
  NoDup (map Trend.id (trends (db w))) ->
  let today := startOfToday LocalTZA (now w) in
  let w1 := updateTrends LocalTZA w in
  (forall keyword first rest,
     In keyword (keywords (db w)) ->
     todayVideosOf today (Keyword.id keyword) (Collector.videos (db w)) = first :: rest ->
     let count := Z.of_nat (List.length (first :: rest)) in
     let total := totalViewsOf (first :: rest) in
     (forall v, In v (first :: rest) -> (0 <= views v)%Z) ->
     (total < 2 ^ 52)%Z ->
     exists row avg top,
       find (isDailyTrend today (Keyword.id keyword)) (trends (db w1)) = Some row
       /\ Trend.videoCount row = Some count
       /\ Trend.totalViews row = Some total
       /\ Trend.avgViews row = Some avg
       /\ (2 * total - count < 2 * count * avg <= 2 * total + count)%Z
       /\ Trend.topVideoId row = Some (Video.id top)
       /\ firstMax top (first :: rest))
  /\ (forall ms,
        startOfToday LocalTZA (now w + ms) = today ->
        updateTrends LocalTZA (sleep ms w1) = sleep ms w1).
Proof.
  intros Hnd today w1.
  destruct (@fold_step today (now w) (Collector.videos (db w)) (keywords (db w))
              (trends (db w)) Hnd) as (Hnd1 & _ & Hrec).
  split.
  - intros keyword first rest Hin Hv count total Hpos Hsum.
    destruct (Hrec keyword Hin (aggregate first rest)) as (row & Hrow & Hfix).
    { unfold aggregateOf. rewrite Hv. reflexivity. }
    destruct (@aggregate_spec first rest Hpos Hsum) as (Hc & Ht & Ha & top & Htop & Hmax).
    exists row, (roundDiv total count), top. split; [exact Hrow|].
    rewrite <- Hfix.
    cbn [setAggregate Trend.videoCount Trend.totalViews Trend.avgViews Trend.topVideoId].
    rewrite Hc, Ht, Ha, Htop.
    assert (Hcount : (0 < count)%Z) by (unfold count; cbn [List.length]; lia).
    pose proof (@totalViewsOf_nonneg (first :: rest) Hpos) as Htot.
    pose proof (@roundDiv_nearest total count (conj Htot Hsum) Hcount) as Hr.
    repeat split; try assumption; apply Hr.
  - intros ms Hday. unfold w1, updateTrends, sleep, withDb.
    cbn [db now spawned]. fold today. rewrite Hday. f_equal.
    unfold updateTrendsAt. cbn [keywords Collector.videos trends collectionLogs].
    f_equal. apply fold_step_fixed; assumption.
Qed.

(** C6, witness: videos with 100, 300 and 50 views, aggregated twice, the
    second time a minute after the first. *)
Lemma daily_trend_aggregation_witness :
  (exists row avg top,
     find (isDailyTrend mayFirst 1)
          (trends (db (updateTrends utc Fixtures.viewedWorld))) = Some row
     /\ Trend.videoCount row = Some 3%Z
     /\ Trend.totalViews row = Some 450%Z
     /\ Trend.avgViews row = Some avg
     /\ (2 * 450 - 3 < 2 * 3 * avg <= 2 * 450 + 3)%Z
     /\ Trend.topVideoId row = Some (Video.id top)
     /\ firstMax top (Collector.videos viewed))
  /\ updateTrends utc (sleep 60000 (updateTrends utc Fixtures.viewedWorld))
     = sleep 60000 (updateTrends utc Fixtures.viewedWorld).
Proof.
  destruct (daily_trend_aggregation utc Fixtures.viewedWorld (NoDup_nil Z)) as [H1 H2].
  split; [|exact (H2 60000%Z eq_refl)].
  apply (H1 (keywordRow 1 "golang" true) (videoRow 1 "a" 100)
            [videoRow 2 "b" 300; videoRow 3 "c" 50]).
  - left. reflexivity.
  - reflexivity.
  - intros v [<-|[<-|[<-|[]]]]; cbn; lia.
  - reflexivity.
Defined.

(** The numbers of that example: three videos, 450 views, 150 on average,
    the video with 300 views on top. *)
Lemma viewed_aggregate :
  aggregate (videoRow 1 "a" 100) [videoRow 2 "b" 300; videoRow 3 "c" 50]
  = {| agg_videoCount := 3; agg_totalViews := 450; agg_avgViews := 150;
       agg_topVideoId := 2 |}.
Proof. reflexivity. Qed.

(** C6, counterexample: three videos of today with 2^51, 2^51 and 2^51 + 1
    views.  Their sum, 6755399441055745, is stored exactly.  A third of it
    is 2251799813685248 and one third; the division rounds that to the
    double 2251799813685248.5, and the average stored is 2251799813685249,
    which is not the integer nearest the quotient. *)
Lemma daily_average_misrounded :
  exists row,
    find (isDailyTrend (startOfToday utc (now Fixtures.popularWorld)) 1)
         (trends (db (updateTrends utc Fixtures.popularWorld))) = Some row
    /\ Trend.videoCount row = Some 3%Z
    /\ Trend.totalViews row = Some (totalViewsOf (Collector.videos popular))
    /\ totalViewsOf (Collector.videos popular) = 6755399441055745%Z
    /\ Trend.avgViews row = Some 2251799813685249%Z
    /\ ~ (2 * 6755399441055745 - 3 < 2 * 3 * 2251799813685249
          <= 2 * 6755399441055745 + 3)%Z.
Proof.
  eexists. split; [vm_compute; reflexivity|].
  split; [reflexivity|]. split; [vm_compute; reflexivity|].
  split; [vm_compute; reflexivity|]. split; [vm_compute; reflexivity|].
  lia.
Qed.

Import Notions Fixtures.

(* ================================================================== *)
(** * Further facts about the search service *)
(* ================================================================== *)

(** ** Which lines give a record *)

(** A value that is not an object has none of the keys the mapper reads. *)
Lemma parseVideoInfo_scalar data :
  match data with
  | JBool _ | JNumber _ | JString _ | JArray _ => True
  | _ => False
  end ->
  parseVideoInfo data =
  Normal placeholder.
Proof.
  destruct data; intros H; try contradiction; reflexivity.
Qed.

Section LineFacts.
Variable JSON_parse : jsstring -> option JSValue.

(** Why each of the three failing steps of the mapper fails. *)
Lemma parseUploadDate_throws upload_date :
  (exists e, parseUploadDate upload_date = Throw e) <->
  (truthy upload_date = true
   /\ (forall s, upload_date <> JString s)
   /\ (forall l, upload_date <> JArray l))
  \/ (exists l, upload_date = JArray l
       /\ convertible (JArray (slice l 0 (Some 4%Z)))
          && convertible (JArray (slice l 4 (Some 6%Z)))
          && convertible (JArray (slice l 6 (Some 8%Z))) = false).
Proof.
  unfold parseUploadDate. split.
  - intros [e H]. destruct (truthy upload_date) eqn:Et; [|discriminate].
    destruct upload_date as [| |b|n|s|l|props]; try discriminate;
      try (left; split; [reflexivity|]; split; intros ? ?; discriminate).
    right. exists l. split; [reflexivity|].
    destruct (_ && _); [discriminate | reflexivity].
  - intros [(Ht & Hs & Ha)|(l & -> & Hc)].
    + rewrite Ht.
      destruct upload_date as [| |b|n|s|l|props]; try (eexists; reflexivity).
      * exfalso. exact (Hs s eq_refl).
      * exfalso. exact (Ha l eq_refl).
    + cbn [truthy]. rewrite Hc. eexists. reflexivity.
Qed.

Lemma urlOf_throws webpage_url id :
  (exists e, urlOf webpage_url id = Throw e) <->
  truthy webpage_url = false /\ convertible id = false.
Proof.
  unfold urlOf. destruct (truthy webpage_url), (convertible id); split;
    try (intros [e H]; discriminate); try (intros [H1 H2]; discriminate).
  - intros _. auto.
  - intros _. eexists. reflexivity.
Qed.

Lemma formatDuration_throws seconds :
  (exists e, formatDuration seconds = Throw e) <->
  truthy seconds = true /\ convertible seconds = false.
Proof.
  unfold formatDuration. destruct (truthy seconds) eqn:Et; cbn [negb].
  - destruct seconds as [| |b|n|s|l|props];
      try (split; [intros [e H]; discriminate | intros [_ H]; discriminate]).
    + destruct (convertible (JArray l)); split;
        try (intros [e H]; discriminate); try (intros [_ H]; discriminate).
      * intros _. auto.
      * intros _. eexists. reflexivity.
    + destruct (convertible (JObject props)); split;
        try (intros [e H]; discriminate); try (intros [_ H]; discriminate).
      * intros _. auto.
      * intros _. eexists. reflexivity.
  - split; [intros [e H]; discriminate | intros [H _]; discriminate].
Qed.

(** The mapper throws on an object exactly when one of the three steps does. *)
Lemma parseVideoInfo_throws props :
  (exists e, parseVideoInfo (JObject props) = Throw e) <->
  (exists e, parseUploadDate (lookup props (lit "upload_date")) = Throw e)
  \/ (exists e, urlOf (lookup props (lit "webpage_url")) (lookup props (lit "id"))
                = Throw e)
  \/ (exists e, formatDuration (lookup props (lit "duration")) = Throw e).
Proof.
  rewrite parseVideoInfo_object.
  destruct (parseUploadDate _) as [published|e1]; cbn [bindCompletion].
  2: { split; [intros _; left|intros _]; eexists; reflexivity. }
  destruct (urlOf _ _) as [link|e2]; cbn [bindCompletion].
  2: { split; [intros _; right; left|intros _]; eexists; reflexivity. }
  destruct (formatDuration _) as [length|e3]; cbn [bindCompletion].
  2: { split; [intros _; right; right|intros _]; eexists; reflexivity. }
  split.
  - intros [e H]. discriminate.
  - intros [[e H]|[[e H]|[e H]]]; discriminate.
Qed.

(** X1.  A line is dropped by [tryParseLine] exactly when, trimmed, it is
    empty, or is not JSON, or decodes to [null] (or [undefined]), or decodes
    to an object on which the mapper throws: its [upload_date] is truthy and
    has no [slice] (it is neither a string nor an array), or is an array one
    of whose three slices cannot be converted to text; or it has no truthy
    [webpage_url] and its [id] cannot be converted to text; or its [duration]
    is truthy and cannot be converted to a number.  A value cannot be
    converted when it is an object with a [toString] key of its own, or an
    array that holds one.  Every other line gives one record. *)
Theorem dropped_lines (line : jsstring) :
  decodeLine JSON_parse line = None <->
  trim line = []
  \/ JSON_parse (trim line) = None
  \/ exists v, JSON_parse (trim line) = Some v
       /\ (v = JNull \/ v = JUndefined
           \/ exists props, v = JObject props
                /\ ((truthy (lookup props (lit "upload_date")) = true
                     /\ (forall s, lookup props (lit "upload_date") <> JString s)
                     /\ (forall l, lookup props (lit "upload_date") <> JArray l))
                    \/ (exists l, lookup props (lit "upload_date") = JArray l
                         /\ convertible (JArray (slice l 0 (Some 4%Z)))
                            && convertible (JArray (slice l 4 (Some 6%Z)))
                            && convertible (JArray (slice l 6 (Some 8%Z))) = false)
                    \/ (truthy (lookup props (lit "webpage_url")) = false
                         /\ convertible (lookup props (lit "id")) = false)
                    \/ (truthy (lookup props (lit "duration")) = true
                         /\ convertible (lookup props (lit "duration")) = false))).
Proof.
  unfold decodeLine. destruct (trim line) as [|c r] eqn:Et.
  { split; auto. }
  destruct (JSON_parse (c :: r)) as [v|] eqn:Ep.
  2: { split; auto. }
  split.
  - intros H. right. right. exists v. split; [reflexivity|].
    destruct v as [| |b|n|s|items|props]; auto;
      try (rewrite parseVideoInfo_scalar in H by exact I; discriminate).
    right. right. exists props. split; [reflexivity|].
    assert (Hthrow : exists e, parseVideoInfo (JObject props) = Throw e).
    { destruct (parseVideoInfo (JObject props)) as [video|e]; [discriminate|].
      exists e. reflexivity. }
    apply parseVideoInfo_throws in Hthrow.
    destruct Hthrow as [Hd|[Hu|Hf]].
    + apply parseUploadDate_throws in Hd. destruct Hd as [Hd|Hd]; auto.
    + apply urlOf_throws in Hu. auto.
    + apply formatDuration_throws in Hf. auto.
  - intros [H|[H|(v' & Hv & H)]]; try discriminate.
    injection Hv as <-.
    destruct H as [->|[->|(props & -> & H)]]; try reflexivity.
    assert (Hthrow : exists e, parseVideoInfo (JObject props) = Throw e).
    { apply parseVideoInfo_throws.
      destruct H as [H|[H|[H|H]]].
      - left. apply parseUploadDate_throws. left. exact H.
      - left. apply parseUploadDate_throws. right. exact H.
      - right. left. apply urlOf_throws. exact H.
      - right. right. apply formatDuration_throws. exact H. }
    destruct Hthrow as [e ->]. reflexivity.
Qed.

End LineFacts.

(** ** The fields the mapper fills in *)

Lemma or_else_truthy a b : truthy b = true -> truthy (or_else a b) = true.
Proof. unfold or_else. destruct (truthy a) eqn:E; auto. Qed.

(** X2.  Whatever the mapper returns has a truthy title and a truthy
    channel (the defaults stand in for a missing, null, empty or zero
    field); its URL is the page URL when that is truthy and the watch URL of
    the record's [id] otherwise; its channel is the [channel] field when
    that is truthy, whatever the uploader. *)
Theorem mapper_fills_defaults (data : JSValue) (video : VideoInfo) :
  parseVideoInfo data = Normal video ->
  truthy (Youtube.title video) = true
  /\ truthy (Youtube.channel video) = true
  /\ (Youtube.url video = UrlWatch (Youtube.id video)
      \/ exists page, Youtube.url video = UrlGiven page /\ truthy page = true)
  /\ (forall props, data = JObject props ->
      truthy (lookup props (lit "channel")) = true ->
      Youtube.channel video = lookup props (lit "channel")).
Proof.
  intros H. destruct data as [| |b|n|s|items|props];
    try discriminate;
    try (rewrite parseVideoInfo_scalar in H by exact I; injection H as <-;
         cbn; repeat split; auto; intros; discriminate).
  apply parseVideoInfo_returns in H.
  destruct H as (published & link & length & _ & Hlink & _ & ->).
  cbn [Youtube.title Youtube.channel Youtube.url Youtube.id].
  split; [apply or_else_truthy; reflexivity|].
  split; [apply or_else_truthy; reflexivity|].
  split.
  - unfold urlOf in Hlink.
    destruct (truthy (lookup props (lit "webpage_url"))) eqn:E.
    + injection Hlink as <-. right. eexists. split; [reflexivity | exact E].
    + destruct (convertible _); [|discriminate]. injection Hlink as <-. auto.
  - intros props' Hp Ht. injection Hp as <-. unfold or_else. rewrite Ht, Ht.
    reflexivity.
Qed.

(** X2, witness: an object with an uploader and no channel, title or page
    URL. *)
Lemma mapper_fills_defaults_witness :
  exists video,
    parseVideoInfo (JObject [(lit "id", JString (lit "a"));
                             (lit "uploader", JString (lit "u"))]) = Normal video
    /\ Youtube.title video = JString (lit "Unknown Title")
    /\ Youtube.channel video = JString (lit "u")
    /\ Youtube.url video = UrlWatch (JString (lit "a"))
    /\ truthy (Youtube.title video) = true.
Proof.
  eexists. split; [reflexivity|].
  split; [reflexivity|]. split; [reflexivity|]. split; [reflexivity|].
  exact (proj1 (@mapper_fills_defaults
                  (JObject [(lit "id", JString (lit "a"));
                            (lit "uploader", JString (lit "u"))]) _ eq_refl)).
Defined.

Section ScalarLines.
Variable JSON_parse : jsstring -> option JSValue.

(** X3.  A line that is JSON but not an object (a number, a string, a
    boolean, an array) is not rejected: it gives the placeholder record,
    with no id, the default title and channel and zero views; so it counts
    as a result of the search. *)
Theorem scalar_line_gives_placeholder (line : jsstring) (v : JSValue) :
  trim line <> [] ->
  JSON_parse (trim line) = Some v ->
  match v with
  | JBool _ | JNumber _ | JString _ | JArray _ => True
  | _ => False
  end ->
  decodeLine JSON_parse line = Some placeholder
  /\ forall st, Youtube.videos (tryParseLine JSON_parse line st)
                = Youtube.videos st ++ [placeholder].
Proof.
  intros Ht Hp Hv.
  assert (E : decodeLine JSON_parse line = Some placeholder).
  { unfold decodeLine. destruct (trim line) as [|c r]; [congruence|].
    rewrite Hp, (parseVideoInfo_scalar v Hv). reflexivity. }
  split; [exact E|]. intros st. unfold tryParseLine. rewrite E. reflexivity.
Qed.

End ScalarLines.

(** X3, witness: the line [0]. *)
Lemma scalar_line_gives_placeholder_witness :
  decodeLine JSON.parse (lit "0") = Some placeholder.
Proof.
  refine (proj1 (@scalar_line_gives_placeholder JSON.parse (lit "0")
                   (JNumber (numberOfZ 0)) _ _ I)).
  - vm_compute. discriminate.
  - vm_compute. reflexivity.
Defined.

(** ** Durations *)

(** The decimal text of an integer is ASCII: digits, after a minus sign if
    the integer is negative. *)
Lemma digits_ascii d :
  forallb isAscii (list_byte_of_string (NilEmpty.string_of_uint d)) = true.
Proof. induction d; simpl; auto. Qed.

Lemma textOfZ_bytes z :
  textOfZ z = map Byte.to_N (list_byte_of_string (NilZero.string_of_int (Z.to_int z))).
Proof.
  unfold textOfZ, lit. apply utf8Run_ascii.
  assert (H : forall d, forallb isAscii
                (list_byte_of_string (NilZero.string_of_uint d)) = true).
  { intros d. unfold NilZero.string_of_uint. destruct d; try apply digits_ascii.
    reflexivity. }
  destruct z; simpl; try apply H. reflexivity.
Qed.

Lemma to_N_inj a b : Byte.to_N a = Byte.to_N b -> a = b.
Proof.
  intros H. pose proof (Byte.of_to_N a) as Ha. rewrite H, Byte.of_to_N in Ha.
  congruence.
Qed.

Lemma map_to_N_inj a : forall b, map Byte.to_N a = map Byte.to_N b -> a = b.
Proof.
  induction a as [|x a IH]; intros [|y b] H; try discriminate; [reflexivity|].
  simpl in H. injection H as H1 H2. f_equal; [apply to_N_inj, H1 | apply IH, H2].
Qed.

(** Different integers have different texts. *)
Lemma textOfZ_inj a b : textOfZ a = textOfZ b -> a = b.
Proof.
  rewrite !textOfZ_bytes. intros H. apply map_to_N_inj in H.
  apply (f_equal string_of_list_byte) in H.
  rewrite !string_of_list_byte_of_string in H.
  apply DecimalZ.to_int_inj.
  assert (Hn : forall z, Z.to_int z <> Decimal.Pos Decimal.Nil
                         /\ Z.to_int z <> Decimal.Neg Decimal.Nil).
  { intros [|p|p]; simpl; split; try discriminate;
      intros E; injection E as E; exact (Unsigned.to_uint_nonnil _ E). }
  pose proof (NilZero.isi _ (proj1 (Hn a)) (proj2 (Hn a))) as Ha.
  pose proof (NilZero.isi _ (proj1 (Hn b)) (proj2 (Hn b))) as Hb.
  rewrite H in Ha. congruence.
Qed.

Lemma digits_no_colon d :
  ~ In 58%N (map Byte.to_N (list_byte_of_string (NilEmpty.string_of_uint d))).
Proof.
  induction d; simpl; try tauto; intros [H|H]; try discriminate; tauto.
Qed.

(** No text of an integer holds a colon. *)
Lemma textOfZ_no_colon z : ~ In 58%N (textOfZ z).
Proof.
  rewrite textOfZ_bytes.
  assert (H : forall d, ~ In 58%N (map Byte.to_N
                (list_byte_of_string (NilZero.string_of_uint d)))).
  { intros d. unfold NilZero.string_of_uint.
    destruct d; try apply digits_no_colon. simpl. intros [H|[]]. discriminate. }
  destruct z; simpl; try apply H.
  - intros [E|[]]. discriminate.
  - intros [E|E]; [discriminate|]. exact (H _ E).
Qed.

(** A text is cut at its first colon in one way only. *)
Lemma cut_at_colon (a : jsstring) : forall b x y,
  ~ In 58%N a -> ~ In 58%N b ->
  a ++ 58%N :: x = b ++ 58%N :: y -> a = b /\ x = y.
Proof.
  induction a as [|c a IH]; intros [|d b] x y Ha Hb H; simpl in *.
  - injection H as <-. auto.
  - injection H as <- _. tauto.
  - injection H as -> _. tauto.
  - injection H as <- H. destruct (IH b x y) as [-> ->]; auto.
Qed.

(** Below a hundred, [padStart(2, '0')] of the text is the two-digit form. *)
Lemma padStart2_two x :
  (0 <= x < 100)%Z -> padStart2 (textOfZ x) = fixedDecimal 2 x.
Proof.
  intros H.
  assert (Hin : In x (map Z.of_nat (seq 0 100))).
  { apply in_map_iff. exists (Z.to_nat x). split; [lia|]. apply in_seq. lia. }
  assert (E : forallb (fun x => jsstring_eqb (padStart2 (textOfZ x)) (fixedDecimal 2 x))
                      (map Z.of_nat (seq 0 100)) = true) by (vm_compute; reflexivity).
  rewrite forallb_forall in E. apply jsstring_eqb_eq, E, Hin.
Qed.

Lemma fixedDecimal2_inj x y :
  (0 <= x < 100)%Z -> (0 <= y < 100)%Z ->
  fixedDecimal 2 x = fixedDecimal 2 y -> x = y.
Proof.
  intros Hx Hy H.
  assert (E : forall n, fixedDecimal 2 n
                        = [Z.to_N (48 + (n / 10) mod 10); Z.to_N (48 + n mod 10)])
    by reflexivity.
  rewrite !E in H.
  pose proof (f_equal (fun l => Z.of_N (nth 0 l 0%N)) H) as H1.
  pose proof (f_equal (fun l => Z.of_N (nth 1 l 0%N)) H) as H2.
  cbn [nth] in H1, H2.
  pose proof (Z.mod_pos_bound (x / 10) 10 eq_refl).
  pose proof (Z.mod_pos_bound (y / 10) 10 eq_refl).
  pose proof (Z.mod_pos_bound x 10 eq_refl).
  pose proof (Z.mod_pos_bound y 10 eq_refl).
  rewrite !Z2N.id in H1, H2 by lia.
  Z.div_mod_to_equations. lia.
Qed.

Lemma formatSeconds_inj a b :
  (0 < a)%Z -> (0 < b)%Z -> formatSeconds a = formatSeconds b -> a = b.
Proof.
  intros Ha Hb. unfold formatSeconds, colon.
  change (lit ":") with [58%N].
  rewrite !Z.rem_mod_nonneg by lia.
  assert (Hm : forall s, (0 < s)%Z ->
            (0 <= s mod 3600 / 60 < 100)%Z /\ (0 <= s mod 60 < 100)%Z).
  { intros s Hs. split.
    - pose proof (Z.mod_pos_bound s 3600 eq_refl).
      split; [apply Z.div_pos; lia|]. apply Z.div_lt_upper_bound; lia.
    - pose proof (Z.mod_pos_bound s 60 eq_refl). lia. }
  destruct (Hm a Ha) as [Hma Hsa], (Hm b Hb) as [Hmb Hsb].
  rewrite !padStart2_two by assumption.
  pose proof (textOfZ_no_colon (a / 3600)) as Nha.
  pose proof (textOfZ_no_colon (b / 3600)) as Nhb.
  pose proof (textOfZ_no_colon (a mod 3600 / 60)) as Nma.
  pose proof (textOfZ_no_colon (b mod 3600 / 60)) as Nmb.
  assert (Hlen : forall x, List.length (fixedDecimal 2 x) = 2%nat)
    by (intros; apply fixedDecimal_length).
  assert (Nd : forall x, ~ In 58%N (fixedDecimal 2 x)).
  { intros x Hin. pose proof (fixedDecimal_digits 2 x) as Hd.
    rewrite Forall_forall in Hd. apply Hd in Hin. unfold isDecimalDigit in Hin. lia. }
  destruct (Z.gtb_spec (a / 3600) 0) as [Ga|Ga], (Z.gtb_spec (b / 3600) 0) as [Gb|Gb];
    cbn [app]; intros H.
  - apply cut_at_colon in H; try assumption. destruct H as [H1 H2].
    apply textOfZ_inj in H1.
    apply cut_at_colon in H2; try apply Nd. destruct H2 as [H2 H3].
    apply fixedDecimal2_inj in H2, H3; try assumption.
    clear - H1 H2 H3. Z.div_mod_to_equations. lia.
  - apply cut_at_colon in H; try assumption. destruct H as [_ H].
    apply (f_equal (@List.length N)) in H.
    rewrite length_app in H. cbn [List.length] in H. rewrite !Hlen in H. lia.
  - apply cut_at_colon in H; try assumption. destruct H as [_ H].
    apply (f_equal (@List.length N)) in H.
    rewrite length_app in H. cbn [List.length] in H. rewrite !Hlen in H. lia.
  - apply cut_at_colon in H; try assumption. destruct H as [H1 H2].
    apply textOfZ_inj in H1. apply fixedDecimal2_inj in H2; try assumption.
    assert (a / 3600 = 0)%Z by (pose proof (Z.div_pos a 3600); lia).
    assert (b / 3600 = 0)%Z by (pose proof (Z.div_pos b 3600); lia).
    clear - H H0 H1 H2. Z.div_mod_to_equations. lia.
Qed.

(** On a whole number of seconds the text is that of [formatSeconds]. *)
Lemma formatDuration_whole s :
  (0 < s <= 2 ^ 32)%Z ->
  formatDuration (JNumber (numberOfZ s))
  = Normal (Some (DurationText (formatSeconds s))).
Proof.
  intros H. unfold formatDuration, truthy, numberIsZero, integerOf, numberOfZ.
  cbn [digits exp10 negative].
  replace (Z.to_N (Z.abs s) =? 0)%N with false
    by (symmetry; apply N.eqb_neq; lia).
  change (0 <? 0)%Z with false. change (0 <=? 0)%Z with true. cbn [orb andb negb].
  rewrite Z2N.id by lia. change (10 ^ 0)%Z with 1%Z. rewrite Z.mul_1_r.
  replace (Z.abs s <=? 2 ^ 32)%Z with true by (symmetry; apply Z.leb_le; lia).
  replace (s <? 0)%Z with false by (symmetry; apply Z.ltb_ge; lia).
  rewrite Z.abs_eq by lia. reflexivity.
Qed.

(** The two forms of the text. *)
Lemma formatSeconds_forms s :
  (0 < s)%Z ->
  formatSeconds s
  = if (s <? 3600)%Z then textOfZ (s / 60) ++ lit ":" ++ fixedDecimal 2 (s mod 60)
    else textOfZ (s / 3600) ++ lit ":" ++ fixedDecimal 2 (s mod 3600 / 60)
         ++ lit ":" ++ fixedDecimal 2 (s mod 60).
Proof.
  intros Hs. unfold formatSeconds, colon. rewrite !Z.rem_mod_nonneg by lia.
  assert (Hm : (0 <= s mod 3600 / 60 < 100)%Z).
  { pose proof (Z.mod_pos_bound s 3600 eq_refl).
    split; [apply Z.div_pos; lia|]. apply Z.div_lt_upper_bound; lia. }
  assert (Hc : (0 <= s mod 60 < 100)%Z)
    by (pose proof (Z.mod_pos_bound s 60 eq_refl); lia).
  rewrite !padStart2_two by assumption.
  destruct (Z.ltb_spec s 3600) as [Hlt|Hge].
  - replace (s / 3600 >? 0)%Z with false.
    + rewrite Z.mod_small by lia. reflexivity.
    + rewrite Z.div_small by lia. reflexivity.
  - replace (s / 3600 >? 0)%Z with true; [reflexivity|].
    symmetry. apply Z.gtb_lt. apply Z.div_str_pos. lia.
Qed.

(** X4.  Durations: a whole number of seconds from 1 up gets the text
    [m:ss] below one hour and [h:mm:ss] from one hour on, the minutes after
    an hour and the seconds always on two digits; and two different numbers
    of seconds never get the same text. *)
Theorem formatDuration_injective (a b : Z) :
  (0 < a <= 2 ^ 32)%Z -> (0 < b <= 2 ^ 32)%Z ->
  formatDuration (JNumber (numberOfZ a))
  = Normal (Some (DurationText
            (if (a <? 3600)%Z
             then textOfZ (a / 60) ++ lit ":" ++ fixedDecimal 2 (a mod 60)
             else textOfZ (a / 3600) ++ lit ":" ++ fixedDecimal 2 (a mod 3600 / 60)
                  ++ lit ":" ++ fixedDecimal 2 (a mod 60))))
  /\ (formatDuration (JNumber (numberOfZ a)) = formatDuration (JNumber (numberOfZ b))
      -> a = b).
Proof.
  intros Ha Hb. rewrite !formatDuration_whole by assumption.
  split; [rewrite formatSeconds_forms by lia; reflexivity|].
  intros H. injection H as H. apply formatSeconds_inj in H; lia.
Qed.

(** X4, witness: 59 seconds, and one hour and one second. *)
Lemma formatDuration_injective_witness :
  formatDuration (JNumber (numberOfZ 59)) = Normal (Some (DurationText (lit "0:59")))
  /\ formatDuration (JNumber (numberOfZ 3601))
     = Normal (Some (DurationText (lit "1:00:01")))
  /\ formatDuration (JNumber (numberOfZ 59)) <> formatDuration (JNumber (numberOfZ 3601)).
Proof.
  split; [exact (proj1 (@formatDuration_injective 59 3601 ltac:(lia) ltac:(lia)))|].
  split; [exact (proj1 (@formatDuration_injective 3601 59 ltac:(lia) ltac:(lia)))|].
  intros H.
  apply (proj2 (@formatDuration_injective 59 3601 ltac:(lia) ltac:(lia))) in H.
  discriminate H.
Defined.

(** ** The keyword in the argument list *)

Section ArgumentFacts.
Variable LocalTZA : Z -> bool -> Z.

(** X5.  The keyword reaches the tool inside the first argument only, after
    the prefix [ytsearch...:]: the first argument never starts with a dash,
    whatever the keyword, and the other arguments do not depend on the
    keyword. *)
Theorem keyword_only_in_query (now : Z) (keyword : jsstring)
  (options : SearchOptions) (args : list jsstring) :
  searchArgs LocalTZA now keyword options = Normal args ->
  exists head rest,
    args = (lit "ytsearch" ++ head ++ lit ":" ++ keyword) :: rest
    /\ forall other,
         searchArgs LocalTZA now other options
         = Normal ((lit "ytsearch" ++ head ++ lit ":" ++ other) :: rest).
Proof.
  unfold searchArgs.
  set (limit := textOfLimit (spread DEFAULT_limit (Youtube.limit options))).
  destruct (effectiveMaxAge options) as [days|].
  - destruct (cutoffDate LocalTZA now days) as [dateStr|e]; cbn [bindCompletion];
      [|discriminate].
    intros H. injection H as <-.
    exists (lit "date" ++ limit).
    destruct (spread DEFAULT_sort (sort options)) as [[| | |]|];
      eexists; (split; [reflexivity|]); intros other; reflexivity.
  - destruct (spread DEFAULT_dateRange (dateRange options)) as [r|];
      intros H; injection H as <-; exists limit;
      destruct (spread DEFAULT_sort (sort options)) as [[| | |]|];
      eexists; (split; [reflexivity|]); intros other; reflexivity.
Qed.

End ArgumentFacts.

(** X5, witness: a keyword that looks like an option, searched with the
    defaults on 1 May 2026. *)
Lemma keyword_only_in_query_witness :
  exists head rest,
    searchArgs utc mayFirst (lit "--exec") noOptions
    = Normal ((lit "ytsearch" ++ head ++ lit ":" ++ lit "--exec") :: rest)
    /\ searchArgs utc mayFirst (lit "cats") noOptions
       = Normal ((lit "ytsearch" ++ head ++ lit ":" ++ lit "cats") :: rest).
Proof.
  destruct (@keyword_only_in_query utc mayFirst (lit "--exec") noOptions _ eq_refl)
    as (head & rest & H1 & H2).
  exists head, rest. split; [rewrite <- H1; reflexivity | apply H2].
Defined.

(** ** The cutoff date and the time zone *)

(** X6.  In a time zone of fixed offset the cutoff date does not depend
    on the offset: it is the UTC date of the instant that many times 24
    hours before now (the local date is moved back, and printed in UTC), and
    so are the arguments of the search. *)
Theorem cutoff_is_a_utc_date (offset now days : Z) (keyword : jsstring)
  (options : SearchOptions) :
  cutoffDate (fun _ _ => offset) now days
  = (iso <- toISOString (TimeClip (now - days * msPerDay)) ;;
     Normal (removeDashes (slice iso 0 (Some 10%Z))))
  /\ searchArgs (fun _ _ => offset) now keyword options
     = searchArgs (fun _ _ => 0%Z) now keyword options.
Proof.
  assert (H : forall tz d,
            cutoffDate (fun _ _ => tz) now d
            = (iso <- toISOString (TimeClip (now - d * msPerDay)) ;;
               Normal (removeDashes (slice iso 0 (Some 10%Z))))).
  { intros tz d. unfold cutoffDate. rewrite setDate_days. unfold UTC, LocalTime.
    replace (now + tz - d * msPerDay - tz)%Z with (now - d * msPerDay)%Z by lia.
    reflexivity. }
  split; [apply H|].
  unfold searchArgs. destruct (effectiveMaxAge options) as [d|]; [|reflexivity].
  rewrite !H. reflexivity.
Qed.

(** ** What the stream parser keeps *)

Section StreamFacts.
Variable JSON_parse : jsstring -> option JSValue.

Lemma consumeNdjson_cases st chunk :
  consumeNdjson JSON_parse st chunk = {| buffer := []; Youtube.videos := Youtube.videos st |}
  \/ consumeNdjson JSON_parse st chunk =
     {| buffer := snd (frames (buffer st ++ toString chunk));
        Youtube.videos :=
          Youtube.videos st
          ++ decodeAll JSON_parse (fst (frames (buffer st ++ toString chunk))) |}
     /\ (Z.of_nat (List.length (buffer st ++ toString chunk)) <= MAX_BUFFER_CHARS)%Z.
Proof.
  destruct (Z.le_gt_cases (Z.of_nat (List.length (buffer st ++ toString chunk)))
                          MAX_BUFFER_CHARS) as [H|H].
  - right. split; [apply consumeNdjson_frames, H | exact H].
  - left. apply consumeNdjson_discard, H.
Qed.

(** X7.  After every ['data'] event the buffer holds no line feed and at
    most [MAX_BUFFER_CHARS] code units, whatever it held before and however
    large the chunk; so it does at the end of every stream. *)
Theorem buffer_stays_bounded :
  (forall st chunk,
     noLF (buffer (consumeNdjson JSON_parse st chunk))
     /\ (Z.of_nat (List.length (buffer (consumeNdjson JSON_parse st chunk)))
         <= MAX_BUFFER_CHARS)%Z)
  /\ (forall stdout,
        noLF (buffer (drain JSON_parse stdout))
        /\ (Z.of_nat (List.length (buffer (drain JSON_parse stdout)))
            <= MAX_BUFFER_CHARS)%Z).
Proof.
  assert (Hstep : forall st chunk,
     noLF (buffer (consumeNdjson JSON_parse st chunk))
     /\ (Z.of_nat (List.length (buffer (consumeNdjson JSON_parse st chunk)))
         <= MAX_BUFFER_CHARS)%Z).
  { intros st chunk.
    destruct (consumeNdjson_cases st chunk) as [->|[-> Hlen]]; cbn [buffer].
    - split; [intros []|]. unfold MAX_BUFFER_CHARS. simpl. lia.
    - split; [apply frames_rest_noLF|].
      pose proof (frames_rest_length (buffer st ++ toString chunk)). lia. }
  split; [exact Hstep|].
  intros stdout. unfold drain.
  destruct (rev stdout) as [|c r] eqn:E.
  - apply (f_equal (@rev Chunk)) in E. rewrite rev_involutive in E. subst stdout.
    cbn. split; [intros []|]. unfold MAX_BUFFER_CHARS. lia.
  - apply (f_equal (@rev Chunk)) in E. rewrite rev_involutive in E. subst stdout.
    cbn [rev]. rewrite fold_left_app. cbn [fold_left]. apply Hstep.
Qed.

Lemma fold_consume_grows stdout : forall st,
  exists more,
    Youtube.videos (fold_left (consumeNdjson JSON_parse) stdout st)
    = Youtube.videos st ++ more.
Proof.
  induction stdout as [|c rest IH]; intros st; cbn [fold_left].
  - exists []. rewrite app_nil_r. reflexivity.
  - destruct (IH (consumeNdjson JSON_parse st c)) as (more & ->).
    destruct (consumeNdjson_cases st c) as [->|[-> _]]; cbn [Youtube.videos].
    + eauto.
    + rewrite <- app_assoc. eauto.
Qed.

(** X8.  Records are only ever added at the end: what has been decoded
    after a part of the stream is a prefix of what is decoded after more of
    it, and of the records of the whole stream once flushed, also when the
    buffer is dropped on the way. *)
Theorem records_only_grow (before after : list Chunk) :
  (exists more,
     Youtube.videos (drain JSON_parse (before ++ after))
     = Youtube.videos (drain JSON_parse before) ++ more)
  /\ (exists more,
        parsedRecords JSON_parse (before ++ after)
        = Youtube.videos (drain JSON_parse before) ++ more).
Proof.
  unfold parsedRecords, drain. rewrite fold_left_app.
  destruct (fold_consume_grows after (fold_left (consumeNdjson JSON_parse) before emptyCollector))
    as (more & E).
  split; [eauto|].
  rewrite flushNdjson_split. cbn [Youtube.videos]. rewrite E, <- app_assoc. eauto.
Qed.

End StreamFacts.

(* ================================================================== *)
(** * Further facts about the collector *)
(* ================================================================== *)

Lemma keepsRows_refl vs : keepsRows vs vs 0.
Proof. exists []. rewrite app_nil_r. split; [reflexivity | simpl; lia]. Qed.

Lemma keepsRows_trans a b c n m :
  keepsRows a b n -> keepsRows b c m -> keepsRows a c (n + m).
Proof.
  intros (x & Hx & Hn) (y & Hy & Hm). exists (x ++ y).
  rewrite Hy, Hx, <- app_assoc, length_app. split; [reflexivity | lia].
Qed.

Lemma keepsRows_more a b n m : keepsRows a b n -> (n <= m)%Z -> keepsRows a b m.
Proof. intros (x & Hx & Hn) H. exists x. split; [exact Hx | lia]. Qed.

Lemma NoDup_snoc {A} (l : list A) x : NoDup l -> ~ In x l -> NoDup (l ++ [x]).
Proof.
  induction l as [|y l IH]; intros Hnd Hx; simpl.
  - constructor; [intros []|constructor].
  - inversion Hnd as [|? ? Hy Hl]; subst. constructor.
    + rewrite in_app_iff. simpl. intros [H|[H|[]]]; [tauto|].
      apply Hx. left. symmetry. exact H.
    + apply IH; [exact Hl|]. intros H. apply Hx. right. exact H.
Qed.

Section UpsertFacts.
Variable bindRow : VideoValues -> Completion Video.Row.

(** What one upsert does to the world: only the table of videos changes;
    its rows stay, with their held columns, and at most one is added; video
    ids and row ids stay distinct. *)
Lemma upsertVideo_effect values w w1 :
  upsertVideo bindRow values w = Normal w1 ->
  keywords (db w1) = keywords (db w)
  /\ trends (db w1) = trends (db w)
  /\ collectionLogs (db w1) = collectionLogs (db w)
  /\ now w1 = now w
  /\ spawned w1 = spawned w
  /\ keepsRows (videos (db w)) (videos (db w1)) 1
  /\ (NoDup (map Video.videoId (videos (db w))) ->
      NoDup (map Video.videoId (videos (db w1))))
  /\ (NoDup (map Video.id (videos (db w))) ->
      NoDup (map Video.id (videos (db w1)))).
Proof.
  unfold upsertVideo. destruct (bindRow values) as [row|e]; [|discriminate].
  cbn [bindCompletion]. intros H. injection H as <-. cbn [db withDb keywords trends collectionLogs now spawned videos].
  repeat (split; [reflexivity|]).
  destruct (find _ (videos (db w))) as [hit|] eqn:Ef.
  - assert (Eh : map held (map (fun v =>
             if jsstring_eqb (Video.videoId v) (Video.videoId row) then
               {| Video.id := Video.id v;
                  Video.videoId := Video.videoId v;
                  Video.keywordId := Video.keywordId v;
                  Video.title := Video.title row;
                  Video.url := Video.url v;
                  Video.channelName := Video.channelName v;
                  Video.viewCount := Video.viewCount row;
                  Video.likeCount := Video.likeCount row;
                  Video.duration := Video.duration v;
                  Video.thumbnail := Video.thumbnail v;
                  Video.publishedAt := Video.publishedAt v;
                  Video.collectedAt := Some (timestamp (now w)) |}
             else v) (videos (db w))) = map held (videos (db w))).
    { rewrite map_map. apply map_ext. intros v.
      destruct (jsstring_eqb _ _); reflexivity. }
    split; [|split].
    + exists []. rewrite app_nil_r. split; [exact Eh | simpl; lia].
    + intros Hnd.
      replace (map Video.videoId (map _ (videos (db w))))
        with (map Video.videoId (videos (db w))); [exact Hnd|].
      rewrite map_map. apply map_ext. intros v.
      destruct (jsstring_eqb _ _); reflexivity.
    + intros Hnd.
      replace (map Video.id (map _ (videos (db w))))
        with (map Video.id (videos (db w))); [exact Hnd|].
      rewrite map_map. apply map_ext. intros v.
      destruct (jsstring_eqb _ _); reflexivity.
  - split; [|split].
    + eexists. rewrite map_app. split; [reflexivity | simpl; lia].
    + intros Hnd. rewrite map_app. cbn [map Video.videoId].
      apply NoDup_snoc; [exact Hnd|]. intros Hin.
      apply in_map_iff in Hin. destruct Hin as (v & Ev & Hv).
      apply (find_none _ _ Ef) in Hv. apply not_true_iff_false in Hv. apply Hv.
      apply jsstring_eqb_eq. exact Ev.
    + intros Hnd. rewrite map_app. cbn [map Video.id].
      apply NoDup_snoc; [exact Hnd|]. intros Hin.
      apply nextId_above in Hin. lia.
Qed.

Lemma onlySaves_refl w : onlySaves w w 0.
Proof. unfold onlySaves. repeat split; auto. apply keepsRows_refl. Qed.

Lemma onlySaves_trans w w1 w2 n m :
  onlySaves w w1 n -> onlySaves w1 w2 m -> onlySaves w w2 (n + m).
Proof.
  intros (K1 & T1 & L1 & R1 & V1 & I1) (K2 & T2 & L2 & R2 & V2 & I2).
  unfold onlySaves. rewrite K2, T2, L2.
  repeat split; auto. exact (keepsRows_trans R1 R2).
Qed.

Lemma onlySaves_more w w1 n m : onlySaves w w1 n -> (n <= m)%Z -> onlySaves w w1 m.
Proof.
  intros (K & T & L & R & V & I) H. unfold onlySaves.
  repeat split; auto. exact (keepsRows_more R H).
Qed.

Lemma onlySaves_db w w1 n : db w1 = db w -> (0 <= n)%Z -> onlySaves w w1 n.
Proof.
  intros E H. unfold onlySaves. rewrite E. repeat split; auto.
  apply (keepsRows_more (keepsRows_refl _) H).
Qed.

Lemma spawnsAtMost_refl w n : spawnsAtMost w w n.
Proof. exists []. rewrite app_nil_r. split; [reflexivity | simpl; lia]. Qed.

Lemma spawnsAtMost_same w w1 n : spawned w1 = spawned w -> spawnsAtMost w w1 n.
Proof. intros E. exists []. rewrite app_nil_r. split; [exact E | simpl; lia]. Qed.

Lemma spawnsAtMost_trans w w1 w2 n m :
  spawnsAtMost w w1 n -> spawnsAtMost w1 w2 m -> spawnsAtMost w w2 (n + m).
Proof.
  intros (x & S1 & N1) (y & S2 & N2).
  exists (x ++ y). rewrite S2, S1, <- app_assoc, length_app. split; [reflexivity | lia].
Qed.

(** One turn of the loop over the search results. *)
Lemma saveVideo_effect keyword n w video :
  let '(n', w') := saveVideo bindRow keyword (n, w) video in
  (n <= n' <= n + 1)%Z /\ onlySaves w w' (n' - n)
  /\ now w' = now w /\ spawned w' = spawned w.
Proof.
  unfold saveVideo.
  destruct (upsertVideo bindRow _ w) as [w1|e] eqn:E.
  - apply upsertVideo_effect in E.
    destruct E as (K & T & L & N & S & R & V & I).
    split; [lia|]. split; [|auto].
    replace (n + 1 - n)%Z with 1%Z by lia. unfold onlySaves. repeat split; auto.
  - split; [lia|]. split; [|auto].
    replace (n - n)%Z with 0%Z by lia. apply onlySaves_refl.
Qed.

Lemma fold_saveVideo_effect keyword vs : forall n w,
  let '(n', w') := fold_left (saveVideo bindRow keyword) vs (n, w) in
  (n <= n' <= n + Z.of_nat (List.length vs))%Z /\ onlySaves w w' (n' - n)
  /\ now w' = now w /\ spawned w' = spawned w.
Proof.
  induction vs as [|v vs IH]; intros n w; cbn [fold_left List.length].
  - split; [lia|]. split; [|auto].
    replace (n - n)%Z with 0%Z by lia. apply onlySaves_refl.
  - pose proof (saveVideo_effect keyword n w v) as H1.
    destruct (saveVideo bindRow keyword (n, w) v) as [n1 w1].
    specialize (IH n1 w1).
    destruct (fold_left _ vs (n1, w1)) as [n2 w2].
    destruct H1 as (B1 & O1 & T1 & S1), IH as (B2 & O2 & T2 & S2).
    split; [lia|]. split; [|split; congruence].
    replace (n2 - n)%Z with ((n1 - n) + (n2 - n1))%Z by lia.
    exact (onlySaves_trans O1 O2).
Qed.

End UpsertFacts.

Section RunEffects.
Variable LocalTZA : Z -> bool -> Z.
Variable JSON_parse : jsstring -> option JSValue.
Variable ytdlp : nat -> list jsstring -> ProcessRun * Z.
Variable bindRow : VideoValues -> Completion Video.Row.

Local Abbreviation collectByKeyword := (collectByKeyword LocalTZA JSON_parse ytdlp bindRow).
Local Abbreviation collectLoop := (collectLoop LocalTZA JSON_parse ytdlp bindRow).
Local Abbreviation collectAll := (collectAll LocalTZA JSON_parse ytdlp bindRow).
Local Abbreviation searchYouTube := (searchYouTube LocalTZA JSON_parse ytdlp).

Local Abbreviation toolTakesTime := (toolTakesTime ytdlp).

Lemma searchYouTube_effect keyword options w :
  db (snd (searchYouTube keyword options w)) = db w
  /\ spawnsAtMost w (snd (searchYouTube keyword options w)) 1
  /\ (toolTakesTime -> (now w <= now (snd (searchYouTube keyword options w)))%Z).
Proof.
  unfold Collector.searchYouTube, spawn.
  destruct (searchArgs _ _ _ _) as [args|e]; cbn [snd].
  - pose proof (fun H : toolTakesTime => H (List.length (spawned w)) args) as Ht.
    destruct (ytdlp _ args) as [run took]. cbn [snd db now spawned] in *.
    split; [reflexivity|]. split; [|intros H; specialize (Ht H); lia].
    exists [args]. split; [reflexivity | simpl; lia].
  - split; [reflexivity|]. split; [apply spawnsAtMost_refl | lia].
Qed.

Lemma collectByKeyword_effect keywordId limit w r w1 :
  collectByKeyword keywordId limit w = Normal (r, w1) ->
  (0 <= videosCollected r)%Z
  /\ onlySaves w w1 (videosCollected r)
  /\ spawnsAtMost w w1 1
  /\ (toolTakesTime -> (now w <= now w1)%Z).
Proof.
  unfold Collector.collectByKeyword.
  destruct (find _ _) as [keyword|]; [|discriminate].
  destruct (negb (isActiveTruthy keyword)).
  { intros H. injection H as <- <-. cbn [videosCollected].
    split; [lia|]. split; [apply onlySaves_refl|].
    split; [apply spawnsAtMost_refl | lia]. }
  pose proof (searchYouTube_effect (Keyword.name keyword)
                {| limit := Given limit; sort := Missing;
                   dateRange := Missing; maxAgeDays := Missing |} w) as (Hdb & Hs & Ht).
  destruct (Collector.searchYouTube _ _ _ _ _ _) as [[vs|e] w0]; cbn [snd] in *.
  - pose proof (fold_saveVideo_effect bindRow keyword vs 0 w0) as Hf.
    destruct (fold_left _ vs _) as [n w2].
    destruct Hf as (Bn & O & Tn & Sn).
    intros H. injection H as <- <-. cbn [videosCollected].
    split; [lia|]. rewrite Z.sub_0_r in O.
    split; [|split].
    + replace n with (0 + n)%Z by lia.
      exact (onlySaves_trans (onlySaves_db w w0 Hdb (Z.le_refl 0)) O).
    + destruct Hs as (more & Es & Hl). exists more. rewrite Sn. auto.
    + rewrite Tn. exact Ht.
  - intros H. injection H as <- <-. cbn [videosCollected].
    split; [lia|]. split; [apply onlySaves_db; [exact Hdb | lia]|]. auto.
Qed.

Lemma collectLoop_effect limit ks : forall p w p' w',
  collectLoop limit ks p w = Normal (p', w') ->
  (progress_totalVideos p <= progress_totalVideos p')%Z
  /\ onlySaves w w' (progress_totalVideos p' - progress_totalVideos p)
  /\ spawnsAtMost w w' (List.length ks)
  /\ (toolTakesTime -> (now w + 2000 * Z.of_nat (List.length ks) <= now w')%Z).
Proof.
  induction ks as [|k ks IH]; intros p w p' w' H; cbn [Collector.collectLoop] in H.
  - injection H as <- <-. split; [lia|].
    rewrite Z.sub_diag. split; [apply onlySaves_refl|].
    split; [apply spawnsAtMost_refl | simpl; lia].
  - destruct (collectByKeyword (Keyword.id k) limit w) as [[r w1]|e] eqn:E;
      [|discriminate].
    cbn [bindCompletion] in H. apply IH in H. cbn [progress_totalVideos] in H.
    destruct H as (B & O & S & T).
    apply collectByKeyword_effect in E. destruct E as (B1 & O1 & S1 & T1).
    split; [lia|]. split; [|split].
    + replace (progress_totalVideos p' - progress_totalVideos p)%Z
        with (videosCollected r
              + (progress_totalVideos p' - (progress_totalVideos p + videosCollected r)))%Z
        by lia.
      refine (onlySaves_trans O1 _). exact O.
    + exact (spawnsAtMost_trans S1 S).
    + intros Ht. specialize (T Ht). specialize (T1 Ht).
      cbn [now sleep] in T. cbn [List.length]. lia.
Qed.

(** The two ways a run of [collectAll] returns. *)
Lemma collectAll_shape limit w result w' :
  collectAll limit w = Normal (result, w') ->
  exists out took,
    ytdlp (List.length (spawned w)) [lit "--version"] = (Exited out (Some 0%Z), took)
    /\ let w0 := afterVersionCheck w took in
       let active := filter isActiveRow (keywords (db w)) in
       (active = [] /\ w' = w0
        /\ result = {| startedAt := now w; completedAt := now w0;
                       totalKeywords := 0; totalVideos := 0;
                       results := []; status := success |})
       \/ (active <> []
           /\ exists p w1,
               collectLoop limit active
                 {| progress_results := []; progress_totalVideos := 0;
                    progress_hasErrors := false |} w0 = Normal (p, w1)
               /\ w' = updateTrends LocalTZA
                         (insertLog (now w) (now w1) (Z.of_nat (List.length active))
                            (progress_totalVideos p)
                            (classify (progress_hasErrors p) (progress_totalVideos p)) w1)
               /\ result = {| startedAt := now w; completedAt := now w1;
                              totalKeywords := Z.of_nat (List.length active);
                              totalVideos := progress_totalVideos p;
                              results := progress_results p;
                              status := classify (progress_hasErrors p)
                                                 (progress_totalVideos p) |}).
Proof.
  unfold Collector.collectAll, checkYtDlp, spawn, afterVersionCheck.
  destruct (ytdlp _ _) as [run took].
  destruct run as [m|out [[| |]|]]; try discriminate.
  cbn [negb db]. intros H. exists out, took. split; [reflexivity|].
  cbv zeta.
  destruct (filter isActiveRow (keywords (db w))) as [|k ks] eqn:Ek.
  - left. injection H as <- <-. auto.
  - right. split; [discriminate|].
    destruct (collectLoop limit (k :: ks) _ _) as [[p w1]|e] eqn:El; [|discriminate].
    cbn [bindCompletion] in H. injection H as <- <-.
    exists p, w1. auto.
Qed.

(** X9.  A run of [collectAll] fails in one way only: the version check
    of the tool did not end with exit code 0 (it could not be spawned, or
    exited with another code, or was killed), and the error is then
    ['yt-dlp is not installed'].  Once the check has succeeded the run
    returns a result, whatever happens to the searches and the saves. *)
Theorem collectAll_fails_only_at_preflight (limit : Z) (w : World) :
  ((exists out took,
      ytdlp (List.length (spawned w)) [lit "--version"]
      = (Exited out (Some 0%Z), took))
   /\ exists result w', collectAll limit w = Normal (result, w'))
  \/ ((forall out took,
         ytdlp (List.length (spawned w)) [lit "--version"]
         <> (Exited out (Some 0%Z), took))
      /\ collectAll limit w = Throw (Error (lit "yt-dlp is not installed"))).
Proof.
  destruct (ytdlp (List.length (spawned w)) [lit "--version"]) as [run took] eqn:E.
  assert (Hok : forall out, run = Exited out (Some 0%Z) ->
            exists result w', collectAll limit w = Normal (result, w')).
  { intros out ->. apply collectAll_completes.
    unfold checkYtDlp, spawn. rewrite E. reflexivity. }
  assert (Hko : (forall out, run <> Exited out (Some 0%Z)) ->
            collectAll limit w = Throw (Error (lit "yt-dlp is not installed"))).
  { intros Hrun. unfold Collector.collectAll, checkYtDlp, spawn. rewrite E.
    destruct run as [m|out [[| |]|]]; try reflexivity.
    exfalso. exact (Hrun out eq_refl). }
  destruct run as [m|out [[|c|c]|]];
    try (right; split; [intros ? ? H; discriminate | apply Hko; intros ? H; discriminate]).
  left. split; [eauto | apply (Hok out eq_refl)].
Qed.

(** X10.  With no active keyword a run is a success that leaves no trace:
    it reports zero keywords and zero videos, and the database is as it was
    (no log row is written and no trend is touched); only the version check
    was spawned. *)
Theorem no_active_keyword_no_trace (limit : Z) (w : World)
  (out : list Chunk) (took : Z) :
  ytdlp (List.length (spawned w)) [lit "--version"] = (Exited out (Some 0%Z), took) ->
  filter isActiveRow (keywords (db w)) = [] ->
  collectAll limit w
  = Normal ({| startedAt := now w; completedAt := (now w + took)%Z;
               totalKeywords := 0; totalVideos := 0;
               results := []; status := success |},
            afterVersionCheck w took)
  /\ db (afterVersionCheck w took) = db w
  /\ spawned (afterVersionCheck w took) = spawned w ++ [[lit "--version"]].
Proof.
  intros E Hnone. split; [|split; reflexivity].
  unfold Collector.collectAll, checkYtDlp, spawn. rewrite E. cbn [negb db].
  rewrite Hnone. reflexivity.
Qed.

(** X11.  A run over at least one active keyword appends exactly one row
    to the collection log, under a fresh id: it holds the status, the counts
    and the two times of the result that is returned, and no error text;
    the earlier rows are as they were. *)
Theorem run_is_logged (limit : Z) (w w' : World) (result : CollectAllResult) :
  collectAll limit w = Normal (result, w') ->
  filter isActiveRow (keywords (db w)) <> [] ->
  exists row,
    collectionLogs (db w') = collectionLogs (db w) ++ [row]
    /\ Log.status row = Some (status result)
    /\ Log.videoCount row = Some (totalVideos result)
    /\ Log.keywordCount row = Some (totalKeywords result)
    /\ Log.startedAt row = Some (timestamp (startedAt result))
    /\ Log.completedAt row = Some (timestamp (completedAt result))
    /\ Log.error row = None
    /\ ~ In (Log.id row) (map Log.id (collectionLogs (db w))).
Proof.
  intros H Hactive.
  destruct (collectAll_shape _ _ H) as (out & took & _ & [(Hnone & _)|(_ & p & w1 & El & -> & ->)]);
    [contradiction|].
  apply collectLoop_effect in El. destruct El as (_ & (_ & _ & Hl & _) & _).
  cbn [db updateTrends withDb insertLog updateTrendsAt collectionLogs].
  cbn [afterVersionCheck db] in Hl. rewrite Hl.
  eexists. split; [reflexivity|].
  cbn [Log.status Log.videoCount Log.keywordCount Log.startedAt Log.completedAt
       Log.error Log.id status totalVideos totalKeywords startedAt completedAt].
  repeat (split; [reflexivity|]).
  intros Hin. apply nextId_above in Hin. lia.
Qed.


(** X13.  Video ids stay distinct, and so do row ids: if no two stored
    videos shared one before a run, none do after it. *)
Theorem video_ids_stay_distinct (limit : Z) (w w' : World) (result : CollectAllResult) :
  collectAll limit w = Normal (result, w') ->
  (NoDup (map Video.videoId (videos (db w))) ->
   NoDup (map Video.videoId (videos (db w'))))
  /\ (NoDup (map Video.id (videos (db w))) ->
      NoDup (map Video.id (videos (db w')))).
Proof.
  intros H.
  destruct (collectAll_shape _ _ H)
    as (out & took & _ & [(_ & -> & _)|(_ & p & w1 & El & -> & _)]).
  - cbn. auto.
  - apply collectLoop_effect in El. destruct El as (_ & (_ & _ & _ & _ & V & I) & _).
    cbn [db updateTrends withDb insertLog updateTrendsAt videos].
    split; assumption.
Qed.

(** X14.  Pacing: the searches of a run are at least two seconds apart, so
    a run over [n] active keywords takes at least [2000 n] milliseconds; and
    it spawns the version check first, then at most one search per active
    keyword. *)
Theorem run_is_paced (limit : Z) (w w' : World) (result : CollectAllResult) :
  toolTakesTime ->
  collectAll limit w = Normal (result, w') ->
  (startedAt result + 2000 * totalKeywords result <= completedAt result)%Z
  /\ exists searches,
       spawned w' = spawned w ++ [lit "--version"] :: searches
       /\ (Z.of_nat (List.length searches) <= totalKeywords result)%Z.
Proof.
  intros Ht H.
  destruct (collectAll_shape _ _ H)
    as (out & took & E & [(_ & -> & ->)|(_ & p & w1 & El & -> & ->)]).
  - pose proof (Ht (List.length (spawned w)) [lit "--version"]) as Hp.
    rewrite E in Hp. cbn in Hp |- *. split; [lia|].
    exists []. split; [reflexivity | simpl; lia].
  - apply collectLoop_effect in El. destruct El as (_ & _ & (more & Es & Hn) & T).
    specialize (T Ht).
    pose proof (Ht (List.length (spawned w)) [lit "--version"]) as Hp.
    rewrite E in Hp. cbn [snd] in Hp.
    cbn [startedAt completedAt totalKeywords spawned updateTrends withDb insertLog].
    cbn [afterVersionCheck now spawned] in T, Es.
    split; [lia|]. exists more. rewrite Es, <- app_assoc. split; [reflexivity | lia].
Qed.

(** X15.  [collectByKeyword] throws exactly when no keyword has the id
    asked for, and then with the message ['Keyword not found: <id>']; a
    failing search or save never makes it throw. *)
Theorem unknown_keyword_is_the_only_error (keywordId limit : Z) (w : World) :
  ((forall k, In k (keywords (db w)) -> Keyword.id k <> keywordId)
   <-> collectByKeyword keywordId limit w
       = Throw (Error (lit "Keyword not found: " ++ textOfZ keywordId)))
  /\ (forall e, collectByKeyword keywordId limit w = Throw e ->
      e = Error (lit "Keyword not found: " ++ textOfZ keywordId)).
Proof.
  destruct (find (fun k => (Keyword.id k =? keywordId)%Z) (keywords (db w)))
    as [keyword|] eqn:Ef.
  - destruct (collectByKeyword_total LocalTZA JSON_parse ytdlp bindRow keywordId limit w)
      as (r & w1 & E & _); [congruence|].
    rewrite E. split; [split|]; try discriminate.
    intros Hall. apply find_some in Ef. destruct Ef as [Hin Hid].
    apply Z.eqb_eq in Hid. exfalso. exact (Hall keyword Hin Hid).
  - assert (E : collectByKeyword keywordId limit w
                = Throw (Error (lit "Keyword not found: " ++ textOfZ keywordId))).
    { unfold Collector.collectByKeyword. rewrite Ef. reflexivity. }
    rewrite E. split; [split; [reflexivity|]|].
    + intros _ k Hin Hid. apply (find_none _ _ Ef) in Hin.
      apply Z.eqb_neq in Hin. contradiction.
    + intros e He. injection He as <-. reflexivity.
Qed.

(** X16.  A search that fails is reported, not thrown: when the tool exits
    with a code other than 0 without one decodable record, the keyword's
    result carries the message ['yt-dlp exited with code <code>'] and zero
    videos, and the database is as it was. *)
Theorem failed_search_is_reported (keywordId limit : Z) (w : World)
  (keyword : Keyword.Row) (args : list jsstring) (stdout : list Chunk)
  (code : option Z) (took : Z) :
  find (fun k => (Keyword.id k =? keywordId)%Z) (keywords (db w)) = Some keyword ->
  Keyword.isActive keyword = Some true ->
  searchArgs LocalTZA (now w) (Keyword.name keyword)
    {| limit := Given limit; sort := Missing; dateRange := Missing;
       maxAgeDays := Missing |} = Normal args ->
  ytdlp (List.length (spawned w)) args = (Exited stdout code, took) ->
  code <> Some 0%Z ->
  parsedRecords JSON_parse stdout = [] ->
  collectByKeyword keywordId limit w
  = Normal ({| Collector.keywordId := keywordId;
               keywordName := Keyword.name keyword;
               videosCollected := 0;
               errors := Some (exitMessage code) |},
            {| db := db w; now := (now w + took)%Z;
               spawned := spawned w ++ [args] |}).
Proof.
  intros Hfind Hactive Hargs Hrun Hcode Hnone.
  unfold Collector.collectByKeyword, Collector.searchYouTube, spawn.
  rewrite Hfind. unfold isActiveTruthy. rewrite Hactive. cbn [negb].
  rewrite Hargs, Hrun. unfold searchOutcome.
  unfold parsedRecords in Hnone. rewrite Hnone. cbn [List.length Nat.eqb andb].
  destruct code as [[|c|c]|]; try reflexivity. congruence.
Qed.

End RunEffects.

(** ** The recency window of a collection *)

Section WindowFacts.
Variable LocalTZA : Z -> bool -> Z.
Variable JSON_parse : jsstring -> option JSValue.
Variable ytdlp : nat -> list jsstring -> ProcessRun * Z.
Variable bindRow : VideoValues -> Completion Video.Row.

(** X17.  The collector searches the last seven days, newest first: for an
    active keyword and a limit that is a safe integer (below 2^53 in
    magnitude, so that it is printed with all its digits) it spawns the tool
    once, with the query [ytsearchdate<limit>:<name>], the playlist cut at
    the limit, and [--dateafter] the date seven days back (a valid date of a
    year from 0 to 9999). *)
Theorem collector_searches_a_week (keywordId limit : Z) (w : World)
  (keyword : Keyword.Row) (t y m d : Z) :
  find (fun k => (Keyword.id k =? keywordId)%Z) (keywords (db w)) = Some keyword ->
  Keyword.isActive keyword = Some true ->
  (Z.abs limit < 2 ^ 53)%Z ->
  TimeClip (UTC LocalTZA (LocalTime LocalTZA (now w) - 7 * msPerDay)) = Some t ->
  civilFromDays (t / msPerDay) = (y, m, d) ->
  (0 <= y <= 9999)%Z ->
  exists result w1,
    collectByKeyword LocalTZA JSON_parse ytdlp bindRow keywordId limit w
    = Normal (result, w1)
    /\ spawned w1
       = spawned w ++
         [[lit "ytsearchdate" ++ textOfZ limit ++ lit ":" ++ Keyword.name keyword;
           lit "--dump-json"; lit "--flat-playlist"; lit "--no-warnings";
           lit "--quiet"; lit "--playlist-end"; textOfZ limit;
           lit "--dateafter";
           fixedDecimal 4 y ++ fixedDecimal 2 m ++ fixedDecimal 2 d]].
Proof.
  intros Hfind Hactive Hsafe Ht Hc Hy.
  assert (Eargs : searchArgs LocalTZA (now w) (Keyword.name keyword)
                    {| limit := Given limit; sort := Missing; dateRange := Missing;
                       maxAgeDays := Missing |}
                  = Normal [lit "ytsearchdate" ++ textOfZ limit ++ lit ":"
                              ++ Keyword.name keyword;
                            lit "--dump-json"; lit "--flat-playlist";
                            lit "--no-warnings"; lit "--quiet";
                            lit "--playlist-end"; textOfZ limit; lit "--dateafter";
                            fixedDecimal 4 y ++ fixedDecimal 2 m ++ fixedDecimal 2 d]).
  { assert (He : effectiveMaxAge {| limit := Given limit; sort := Missing;
                                     dateRange := Missing; maxAgeDays := Missing |}
                 = Some 7%Z) by reflexivity.
    unfold searchArgs. rewrite He.
    rewrite (cutoffDate_text LocalTZA (now w) 7 Ht Hc Hy). reflexivity. }
  unfold Collector.collectByKeyword, Collector.searchYouTube, spawn.
  rewrite Hfind. unfold isActiveTruthy. rewrite Hactive. cbn [negb].
  rewrite Eargs.
  destruct (ytdlp _ _) as [run took].
  destruct (searchOutcome JSON_parse run) as [vs|e].
  - match goal with
    | |- context [fold_left _ vs (0%Z, ?w0)] =>
      pose proof (fold_saveVideo_effect bindRow keyword vs 0 w0) as Hf
    end.
    destruct (fold_left _ vs _) as [n w2]. destruct Hf as (_ & _ & _ & Hs).
    do 2 eexists. split; [reflexivity | exact Hs].
  - do 2 eexists. split; reflexivity.
Qed.

End WindowFacts.

(** ** Sample runs *)

(** The sample tool takes time. *)
Lemma tool_takes_time : toolTakesTime tool.
Proof. intros [|[|n]] args; simpl; lia. Qed.

(** X10, witness: the only keyword is switched off. *)
Lemma no_active_keyword_no_trace_witness :
  exists result w',
    collectAll utc JSON.parse tool driver 10 idleWorld = Normal (result, w')
    /\ status result = success
    /\ db w' = db idleWorld.
Proof.
  destruct (@no_active_keyword_no_trace utc JSON.parse tool driver 10 idleWorld
              [OfString (lit "2026.04.01" ++ [LF])] 150 eq_refl eq_refl)
    as (E & Hdb & _).
  do 2 eexists. split; [exact E|]. split; [reflexivity | exact Hdb].
Defined.

(** The run of two active keywords returns. *)
Lemma sample_run :
  exists result w', collectAll utc JSON.parse tool driver 10 world = Normal (result, w').
Proof. do 2 eexists. vm_compute. reflexivity. Defined.

(** X11, witness: the run of two active keywords is logged as partial. *)
Lemma run_is_logged_witness :
  exists result w' row,
    collectAll utc JSON.parse tool driver 10 world = Normal (result, w')
    /\ collectionLogs (db w') = [row]
    /\ Log.status row = Some (status result).
Proof.
  destruct sample_run as (result & w' & E).
  assert (Hne : filter isActiveRow (keywords (db world)) <> [])
    by (vm_compute; discriminate).
  destruct (run_is_logged utc JSON.parse tool driver 10 world E Hne)
    as (row & Hl & Hs & _).
  exists result, w', row. auto.
Defined.

(** The run over the stocked database returns. *)
Lemma stocked_run :
  exists result w',
    collectAll utc JSON.parse tool driver 10 stockedWorld = Normal (result, w').
Proof. do 2 eexists. vm_compute. reflexivity. Defined.


(** X13, witness: the same run. *)
Lemma video_ids_stay_distinct_witness :
  exists result w',
    collectAll utc JSON.parse tool driver 10 stockedWorld = Normal (result, w')
    /\ NoDup (map Video.videoId (videos (db w'))).
Proof.
  destruct stocked_run as (result & w' & E).
  exists result, w'. split; [exact E|].
  apply (proj1 (video_ids_stay_distinct utc JSON.parse tool driver 10 stockedWorld E)).
  repeat constructor. intros [].
Defined.

(** X14, witness: the run of two active keywords takes four seconds at least. *)
Lemma run_is_paced_witness :
  exists result w',
    collectAll utc JSON.parse tool driver 10 world = Normal (result, w')
    /\ (startedAt result + 2000 * totalKeywords result <= completedAt result)%Z.
Proof.
  destruct sample_run as (result & w' & E).
  exists result, w'. split; [exact E|].
  exact (proj1 (run_is_paced utc JSON.parse driver 10 world tool_takes_time E)).
Defined.

(** X16, witness: the search of the only keyword fails with exit code 1. *)
Lemma failed_search_is_reported_witness :
  exists w',
    collectByKeyword utc JSON.parse failingTool driver 1 10 checkedWorld
    = Normal ({| Collector.keywordId := 1;
                 keywordName := lit "golang";
                 videosCollected := 0;
                 errors := Some (lit "yt-dlp exited with code 1") |}, w')
    /\ db w' = db checkedWorld.
Proof.
  eexists. split.
  - refine (@failed_search_is_reported utc JSON.parse failingTool driver 1 10
              checkedWorld (keywordRow 1 "golang" true) _ [] (Some 1%Z) 700
              eq_refl eq_refl _ eq_refl _ eq_refl).
    + vm_compute. reflexivity.
    + discriminate.
  - reflexivity.
Defined.

(** X17, witness: the only keyword, searched on 1 May 2026. *)
Lemma collector_searches_a_week_witness :
  exists result w1,
    collectByKeyword utc JSON.parse tool driver 1 10 checkedWorld = Normal (result, w1)
    /\ spawned w1
       = [[lit "--version"];
          [lit "ytsearchdate10:golang"; lit "--dump-json"; lit "--flat-playlist";
           lit "--no-warnings"; lit "--quiet"; lit "--playlist-end"; lit "10";
           lit "--dateafter"; lit "20260424"]].
Proof.
  exact (@collector_searches_a_week utc JSON.parse tool driver 1 10 checkedWorld
           (keywordRow 1 "golang" true) (mayFirst + 150 - 7 * msPerDay) 2026 4 24
           eq_refl eq_refl eq_refl eq_refl eq_refl ltac:(lia)).
Defined.

(** ** What the aggregation leaves alone *)

Section TrendFrame.
Variables today at_ : Z.
Variable videos : list Video.Row.

Local Abbreviation step := (updateTrend today at_ videos).

Lemma step_stamps trends k :
  exists added,
    map stamp (step trends k) = map stamp trends ++ added
    /\ (List.length added <= 1)%nat.
Proof.
  unfold updateTrend.
  destruct (todayVideosOf _ _ _) as [|first rest].
  { exists []. rewrite app_nil_r. auto. }
  destruct (find _ trends) as [existing|].
  - exists []. rewrite app_nil_r, map_map. split; [|auto].
    apply map_ext. intros t. destruct (Trend.id t =? Trend.id existing)%Z; reflexivity.
  - eexists. rewrite map_app. split; [reflexivity | simpl; lia].
Qed.

Lemma step_leaves trends k t :
  NoDup (map Trend.id trends) ->
  In t trends -> (forall kid, isDailyTrend today kid t = false) ->
  In t (step trends k).
Proof.
  intros Hnd Hin Hnot. unfold updateTrend.
  destruct (todayVideosOf _ _ _) as [|first rest]; [exact Hin|].
  destruct (find _ trends) as [existing|] eqn:E.
  - apply in_map_iff. exists t. split; [|exact Hin].
    destruct (Z.eqb_spec (Trend.id t) (Trend.id existing)) as [Eid|]; [|reflexivity].
    apply find_some in E. destruct E as [Hin' Hp].
    rewrite (same_id_same_row trends t existing Hnd Hin Hin' Eid) in Hnot.
    rewrite Hnot in Hp. discriminate.
  - apply in_or_app. left. exact Hin.
Qed.

Lemma fold_step_frame ks : forall trends,
  (exists added,
     map stamp (fold_left step ks trends) = map stamp trends ++ added
     /\ (List.length added <= List.length ks)%nat)
  /\ (NoDup (map Trend.id trends) ->
      forall t, In t trends -> (forall kid, isDailyTrend today kid t = false) ->
      In t (fold_left step ks trends)).
Proof.
  induction ks as [|k ks IH]; intros trends; cbn [fold_left List.length].
  - split; [|auto]. exists []. rewrite app_nil_r. auto.
  - destruct (IH (step trends k)) as ((added & Ea & Hn) & Hkeep).
    destruct (step_stamps trends k) as (one & E1 & H1).
    split.
    + exists (one ++ added). rewrite Ea, E1, <- app_assoc, length_app.
      split; [reflexivity | lia].
    + intros Hnd t Hin Hnot. apply Hkeep.
      * apply step_NoDup, Hnd.
      * apply step_leaves; assumption.
      * exact Hnot.
Qed.

End TrendFrame.

(** X18.  The aggregation touches today's daily rows only.  Every trend
    row keeps its place, its id, keyword, date, period and creation time;
    at most one row per keyword is added; provided the ids are distinct, a
    row that is not the daily row of today for any keyword (a row of another
    day, or of another period) is left exactly as it was; and the other
    tables are not written. *)
Theorem aggregation_touches_today_only (today at_ : Z) (d : Database) :
  (exists added,
     map stamp (trends (updateTrendsAt today at_ d)) = map stamp (trends d) ++ added
     /\ (List.length added <= List.length (keywords d))%nat)
  /\ (NoDup (map Trend.id (trends d)) ->
      forall t, In t (trends d) ->
      (forall kid, isDailyTrend today kid t = false) ->
      In t (trends (updateTrendsAt today at_ d)))
  /\ keywords (updateTrendsAt today at_ d) = keywords d
  /\ Collector.videos (updateTrendsAt today at_ d) = Collector.videos d
  /\ collectionLogs (updateTrendsAt today at_ d) = collectionLogs d.
Proof.
  destruct (fold_step_frame today at_ (Collector.videos d) (keywords d) (trends d))
    as [H1 H2].
  unfold updateTrendsAt. cbn [trends keywords Collector.videos collectionLogs].
  auto.
Qed.

(* ================================================================== *)
(** * The summary of recent runs *)
(* ================================================================== *)

Lemma filter_length_split {A} (p : A -> bool) l :
  List.length l = (List.length (filter p l) + List.length (filter (fun x => negb (p x)) l))%nat.
Proof.
  induction l as [|x l IH]; [reflexivity|].
  simpl. destruct (p x); simpl; lia.
Qed.

Lemma filter_length_or {A} (p q : A -> bool) l :
  (forall x, p x = true -> q x = false) ->
  List.length (filter (fun x => p x || q x) l)
  = (List.length (filter p l) + List.length (filter q l))%nat.
Proof.
  intros H. induction l as [|x l IH]; [reflexivity|].
  simpl. destruct (p x) eqn:Ep; simpl.
  - rewrite (H x Ep). simpl. lia.
  - destruct (q x); simpl; lia.
Qed.

(** The 64-bit sum, when the query returns one, is the sum. *)
Lemma sumViewCount_fold rows : forall acc sum,
  fold_left (fun acc v =>
               sum <- acc ;;
               match Video.viewCount v, sum with
               | Some n, Some s =>
                 if Summary.fits64 (s + n) then Normal (Some (s + n)%Z)
                 else Throw (Error (lit "integer overflow"))
               | Some n, None => Normal (Some n)
               | None, _ => Normal sum
               end) rows (Normal acc) = Normal sum ->
  match sum with Some n => n | None => 0%Z end
  = (match acc with Some n => n | None => 0 end + totalViewsOf rows)%Z.
Proof.
  induction rows as [|v rows IH]; intros acc sum; cbn [fold_left bindCompletion].
  - intros H. injection H as <-. cbn. lia.
  - change (totalViewsOf (v :: rows)) with (views v + totalViewsOf rows)%Z.
    unfold views.
    destruct (Video.viewCount v) as [n|], acc as [s|].
    + destruct (Summary.fits64 (s + n)).
      * intros H. rewrite (IH _ _ H). lia.
      * intros H. exfalso. clear - H.
        induction rows as [|x rows IHr]; cbn [fold_left bindCompletion] in H;
          [discriminate | auto].
    + intros H. rewrite (IH _ _ H). lia.
    + intros H. rewrite (IH _ _ H). lia.
    + intros H. rewrite (IH _ _ H). lia.
Qed.

Lemma fold_right_map_eq {A B} (g : A -> B) (f : B -> Z -> Z) l :
  fold_right f 0%Z (map g l) = fold_right (fun a total => f (g a) total) 0%Z l.
Proof. induction l as [|a l IH]; [reflexivity|]. simpl. rewrite IH. reflexivity. Qed.

(** The videos of the keywords of a list, counted keyword by keyword. *)
Lemma breakdown_counts (vs : list Video.Row) ks :
  NoDup (map Keyword.id ks) ->
  fold_right (fun k total =>
                (Z.of_nat (List.length
                   (filter (fun v => match Video.keywordId v with
                                     | Some kid => (kid =? Keyword.id k)%Z
                                     | None => false
                                     end) vs)) + total)%Z) 0%Z ks
  = Z.of_nat (List.length (filter (fun v => negb (orphan ks v)) vs)).
Proof.
  induction ks as [|k ks IH]; intros Hnd.
  - cbn [fold_right]. unfold orphan. cbn [existsb].
    replace (filter _ vs) with (@nil Video.Row); [reflexivity|].
    symmetry. induction vs as [|v vs IHv]; [reflexivity|].
    simpl. destruct (Video.keywordId v); exact IHv.
  - inversion Hnd as [|? ? Hnot Hnd']; subst.
    cbn [fold_right]. rewrite (IH Hnd').
    rewrite <- Nat2Z.inj_add, <- filter_length_or.
    + f_equal. f_equal. apply filter_ext. intros v. unfold orphan.
      destruct (Video.keywordId v) as [kid|]; [|reflexivity].
      cbn [existsb]. rewrite !negb_involutive, (Z.eqb_sym kid). reflexivity.
    + intros v Hv. unfold orphan.
      destruct (Video.keywordId v) as [kid|]; [|discriminate].
      apply Z.eqb_eq in Hv. subst kid. rewrite negb_involutive.
      apply not_true_iff_false. intros Hex. apply existsb_exists in Hex.
      destruct Hex as (k' & Hin & Hid). apply Z.eqb_eq in Hid.
      apply Hnot. rewrite <- Hid. apply in_map, Hin.
Qed.

Lemma summaryAt_adds_up (since days : Z) (d : Database) (s : Summary.RecentSummary) :
  NoDup (map Keyword.id (keywords d)) ->
  Summary.summaryAt since days d = Normal s ->
  let recent :=
    filter (fun v => Summary.atOrAfter since (Video.collectedAt v)) (Collector.videos d) in
  Summary.totalVideos s
  = (countedVideos s + Z.of_nat (List.length (filter (orphan (keywords d)) recent)))%Z
  /\ Summary.totalViews s = numberOfInteger (totalViewsOf recent)
  /\ map Summary.id (Summary.keywordBreakdown s) = map Keyword.id (keywords d).
Proof.
  intros Hnd Hs recent. unfold Summary.summaryAt in Hs. fold recent in Hs.
  destruct (Summary.sumViewCount recent) as [sum|e] eqn:Esum;
    cbn [bindCompletion] in Hs; [|discriminate].
  injection Hs as <-. unfold countedVideos.
  cbn [Summary.totalVideos Summary.totalViews Summary.keywordBreakdown].
  split; [|split].
  - rewrite fold_right_map_eq. cbn [Summary.videosCount].
    rewrite (@breakdown_counts recent _ Hnd), (filter_length_split (orphan (keywords d)) recent).
    lia.
  - unfold Summary.sumViewCount in Esum.
    pose proof (sumViewCount_fold recent None Esum) as E. rewrite Z.add_0_l in E.
    rewrite <- E. destruct sum; reflexivity.
  - rewrite map_map. reflexivity.
Qed.

(** X19.  The summary adds up, whenever it is returned.  Its breakdown has
    one entry per keyword, in the order of the table; when the keyword ids
    are distinct, the total number of recent videos is the sum of the counts
    of the breakdown plus the number of recent videos that belong to no
    keyword of the table; and the total of views is the sum of the views of
    the recent videos, a missing count being zero, as a Number: the sum
    itself when it is below 2^53 in magnitude, and the double nearest to it
    above.  Recent means collected at or after the time of the call moved
    back by the number of days. *)
Theorem summary_adds_up (LocalTZA : Z -> bool -> Z) (days : Z) (w : World)
  (s : Summary.RecentSummary) :
  NoDup (map Keyword.id (keywords (db w))) ->
  Summary.getRecentSummary LocalTZA days w = Some s ->
  exists since,
    setDate LocalTZA (now w) (getDate LocalTZA (now w) - days) = Some since
    /\ let recent :=
         filter (fun v => Summary.atOrAfter since (Video.collectedAt v))
                (Collector.videos (db w)) in
       Summary.totalVideos s
       = (countedVideos s
          + Z.of_nat (List.length (filter (orphan (keywords (db w))) recent)))%Z
       /\ Summary.totalViews s = numberOfInteger (totalViewsOf recent)
       /\ ((Z.abs (totalViewsOf recent) < 2 ^ 53)%Z ->
           Summary.totalViews s = totalViewsOf recent)
       /\ map Summary.id (Summary.keywordBreakdown s) = map Keyword.id (keywords (db w)).
Proof.
  intros Hnd. unfold Summary.getRecentSummary.
  destruct (setDate _ _ _) as [since|]; [|discriminate].
  destruct (Summary.summaryAt since days (db w)) as [summary|e] eqn:Es; [|discriminate].
  intros H. injection H as <-. exists since. split; [reflexivity|].
  destruct (summaryAt_adds_up since days (db w) Hnd Es) as (H1 & H2 & H3).
  split; [exact H1|]. split; [exact H2|]. split; [|exact H3].
  intros Hsafe. rewrite H2. apply numberOfInteger_safe. exact Hsafe.
Qed.

(** X19, witness: the three videos of the sample database, all of keyword
    1, seen from two hours after they were collected. *)
Lemma summary_adds_up_witness :
  exists s,
    Summary.getRecentSummary utc 7 viewedWorld = Some s
    /\ Summary.totalVideos s = (countedVideos s + 0)%Z
    /\ Summary.totalViews s = 450%Z.
Proof.
  assert (E : exists s, Summary.getRecentSummary utc 7 viewedWorld = Some s)
    by (eexists; vm_compute; reflexivity).
  destruct E as (s & E). exists s. split; [exact E|].
  assert (Hnd : NoDup (map Keyword.id (keywords (db viewedWorld))))
    by (repeat constructor; intros []).
  destruct (summary_adds_up utc 7 viewedWorld Hnd E) as (since & Hs & H1 & H2 & _).
  assert (Es : since = (mayFirst + 7200000 - 7 * msPerDay)%Z).
  { vm_compute in Hs. injection Hs as <-. reflexivity. }
  subst since. split; [exact H1 | exact H2].
Defined.

(* ================================================================== *)
(** * The other versions of the search service *)
(* ================================================================== *)

(** ** Splitting a text and framing it *)

Lemma chomp_cons c f : f <> [] \/ c <> CR -> chomp (c :: f) = c :: chomp f.
Proof.
  intros H. destruct f as [|d f']; [|reflexivity].
  destruct H as [H|H]; [congruence|].
  simpl. destruct (N.eqb_spec c CR); [contradiction | reflexivity].
Qed.

(** The pieces of [split(/\r?\n/)] are the complete lines, each without its
    carriage return, and what follows the last line feed. *)
Lemma splitLines_frames s :
  splitLines s = map chomp (fst (frames s)) ++ [snd (frames s)].
Proof.
  induction s as [|c r IH]; [reflexivity|].
  destruct r as [|d r'].
  - simpl. destruct (N.eqb c LF); reflexivity.
  - change (splitLines (c :: d :: r'))
      with (if N.eqb c LF then [] :: splitLines (d :: r')
            else if N.eqb c CR && N.eqb d LF then [] :: splitLines r'
            else match splitLines (d :: r') with
                 | l :: ls => (c :: l) :: ls
                 | [] => [[c]]
                 end).
    change (frames (c :: d :: r'))
      with (let '(ls, rest) := frames (d :: r') in
            if N.eqb c LF then ([] :: ls, rest)
            else match ls with
                 | [] => ([], c :: rest)
                 | l :: ls' => ((c :: l) :: ls', rest)
                 end).
    destruct (N.eqb_spec c LF) as [->|Hc].
    { rewrite IH. destruct (frames (d :: r')); reflexivity. }
    destruct (N.eqb_spec d LF) as [->|Hd].
    + (* the next unit is a line feed *)
      change (splitLines (LF :: r')) with ([] :: splitLines r') in *.
      change (frames (LF :: r'))
        with (let '(ls, rest) := frames r' in ([] :: ls, rest)) in *.
      destruct (frames r') as [ls rest]. cbn [fst snd map chomp app] in *.
      injection IH as IH.
      destruct (N.eqb_spec c CR) as [->|Hcr]; cbn [andb].
      * rewrite IH. reflexivity.
      * rewrite IH. reflexivity.
    + rewrite andb_false_r, IH.
      destruct (frames (d :: r')) as [[|l ls] rest] eqn:Ef; cbn [fst snd map app].
      * reflexivity.
      * rewrite chomp_cons; [reflexivity|]. left. intros ->.
        simpl in Ef. destruct (frames r') as [ls' rest'].
        apply N.eqb_neq in Hd. rewrite Hd in Ef.
        destruct ls'; discriminate.
Qed.

Lemma splitLF_frames s :
  Baseline.splitLF s = fst (frames s) ++ [snd (frames s)].
Proof.
  induction s as [|c r IH]; [reflexivity|].
  simpl. rewrite IH. destruct (frames r) as [ls rest]. cbn [fst snd].
  destruct (N.eqb c LF); [reflexivity|].
  destruct ls; reflexivity.
Qed.

Lemma recordsOf_app decode a b :
  recordsOf decode (a ++ b) = recordsOf decode a ++ recordsOf decode b.
Proof. apply flat_map_app. Qed.

Lemma trim_chomp l : trim (chomp l) = trim l.
Proof.
  assert (H : chomp l = l \/ l = chomp l ++ [CR]).
  { induction l as [|c r IH]; [auto|].
    destruct r as [|d r'].
    - simpl. destruct (N.eqb_spec c CR) as [->|]; auto.
    - rewrite chomp_cons by (left; discriminate).
      destruct IH as [->| E]; [auto|]. right. rewrite E at 1. reflexivity. }
  destruct H as [->|E]; [reflexivity|].
  rewrite E at 2. unfold trim. rewrite trimEnd_CR. reflexivity.
Qed.

Lemma recordsOf_ext d1 d2 lines :
  (forall l, In l lines -> d1 l = d2 l) -> recordsOf d1 lines = recordsOf d2 lines.
Proof.
  induction lines as [|l ls IH]; intros H; [reflexivity|].
  unfold recordsOf in *. cbn [flat_map]. rewrite (H l (or_introl eq_refl)), IH; [reflexivity|].
  intros x Hx. apply H. right. exact Hx.
Qed.

(** A parser that, at every chunk, decodes the complete lines of its buffer
    and keeps what follows the last line feed, has decoded the complete
    lines of the whole text at the end of the stream. *)
Lemma fold_framed (step : Collector -> Chunk -> Collector)
  (decode : jsstring -> option VideoInfo) (pre : jsstring -> jsstring) :
  (forall st chunk,
     step st chunk =
     {| buffer := snd (frames (buffer st ++ toString chunk));
        Youtube.videos :=
          Youtube.videos st
          ++ recordsOf decode (map pre (fst (frames (buffer st ++ toString chunk)))) |}) ->
  forall stdout st,
    noLF (buffer st) ->
    fold_left step stdout st =
    {| buffer := snd (frames (buffer st ++ textOf stdout));
       Youtube.videos :=
         Youtube.videos st
         ++ recordsOf decode (map pre (fst (frames (buffer st ++ textOf stdout)))) |}.
Proof.
  intros Hstep. induction stdout as [|chunk rest IH]; intros st Hb.
  - cbn [fold_left]. unfold textOf. cbn [map List.concat].
    rewrite app_nil_r, (frames_noLF Hb). cbn [fst snd map recordsOf flat_map].
    rewrite app_nil_r. destruct st; reflexivity.
  - cbn [fold_left]. rewrite Hstep, IH by (cbn [buffer]; apply frames_rest_noLF).
    cbn [buffer Youtube.videos]. unfold textOf. cbn [map List.concat].
    rewrite (app_assoc (buffer st)), (frames_app (buffer st ++ toString chunk)).
    cbn [fst snd]. rewrite map_app, recordsOf_app, app_assoc. reflexivity.
Qed.

Section VersionFacts.
Variable JSON_parse : jsstring -> option JSValue.

(** ** The second version: [createNdjsonCollector] *)

Lemma onLines_records lines : forall vs,
  YoutubeV2.onLines JSON_parse lines vs
  = vs ++ recordsOf (YoutubeV2.decodeLine JSON_parse) lines.
Proof.
  unfold YoutubeV2.onLines, recordsOf.
  induction lines as [|l ls IH]; intros vs; cbn [fold_left flat_map].
  - rewrite app_nil_r. reflexivity.
  - rewrite IH. destruct (YoutubeV2.decodeLine JSON_parse l).
    + rewrite <- app_assoc. reflexivity.
    + reflexivity.
Qed.

Lemma consume_frames st chunk :
  YoutubeV2.consume JSON_parse st chunk =
  {| buffer := snd (frames (buffer st ++ toString chunk));
     Youtube.videos :=
       Youtube.videos st
       ++ recordsOf (YoutubeV2.decodeLine JSON_parse)
            (map chomp (fst (frames (buffer st ++ toString chunk)))) |}.
Proof.
  unfold YoutubeV2.consume. rewrite splitLines_frames, last_last, removelast_last.
  rewrite onLines_records. reflexivity.
Qed.

Lemma v2_frames (stdout : list Chunk) :
  YoutubeV2.parsedRecords JSON_parse stdout
  = recordsOf (YoutubeV2.decodeLine JSON_parse) (splitLines (textOf stdout)).
Proof.
  unfold YoutubeV2.parsedRecords.
  rewrite (fold_framed (YoutubeV2.consume JSON_parse) _ chomp consume_frames)
    by (intros []).
  cbn [buffer app Youtube.videos emptyCollector].
  rewrite splitLines_frames, recordsOf_app.
  pose proof (frames_rest_noLF (textOf stdout)) as Hr.
  unfold YoutubeV2.flush. cbn [buffer Youtube.videos].
  destruct (snd (frames (textOf stdout))) as [|c r] eqn:E.
  - cbn. rewrite app_nil_r. reflexivity.
  - rewrite onLines_records, (splitLines_noLF Hr). reflexivity.
Qed.

(** X20.  The second version of the parser, whatever the chunks: the
    records of a stream, once flushed, are those of the pieces of
    [split(/\r?\n/)] of its whole text, in order.  It has no bound on the
    buffer; so two streams with the same text give the same records, and
    settle the promise of the search in the same way. *)
Theorem v2_records_of_the_text (stdout : list Chunk) :
  YoutubeV2.parsedRecords JSON_parse stdout
  = recordsOf (YoutubeV2.decodeLine JSON_parse) (splitLines (textOf stdout))
  /\ (forall other code,
        textOf other = textOf stdout ->
        YoutubeV2.searchOutcome JSON_parse (Exited other code)
        = YoutubeV2.searchOutcome JSON_parse (Exited stdout code)).
Proof.
  split; [apply v2_frames|].
  intros other code E. unfold YoutubeV2.searchOutcome.
  rewrite !v2_frames, E. reflexivity.
Qed.

(** ** The first version: the ['data'] and ['close'] handlers *)

Lemma onData_frames st chunk :
  Baseline.onData JSON_parse st chunk =
  {| buffer := snd (frames (buffer st ++ toString chunk));
     Youtube.videos :=
       Youtube.videos st
       ++ recordsOf (Baseline.decodeLine JSON_parse)
            (map (fun l => l) (fst (frames (buffer st ++ toString chunk)))) |}.
Proof.
  unfold Baseline.onData. rewrite splitLF_frames, last_last, removelast_last.
  f_equal. rewrite map_id.
  generalize (fst (frames (buffer st ++ toString chunk))) as lines.
  generalize (Youtube.videos st) as vs.
  intros vs lines. revert vs.
  induction lines as [|l ls IH]; intros vs; cbn [fold_left].
  - unfold recordsOf. cbn. rewrite app_nil_r. reflexivity.
  - rewrite IH. unfold recordsOf, Baseline.push. cbn [flat_map].
    destruct (Baseline.decodeLine JSON_parse l).
    + rewrite <- app_assoc. reflexivity.
    + reflexivity.
Qed.

Lemma baseline_frames (stdout : list Chunk) :
  Baseline.parsedRecords JSON_parse stdout
  = recordsOf (Baseline.decodeLine JSON_parse) (fst (frames (textOf stdout)))
    ++ match snd (frames (textOf stdout)) with
       | [] => []
       | rest => recordsOf (Baseline.decode JSON_parse) [rest]
       end.
Proof.
  unfold Baseline.parsedRecords.
  rewrite (fold_framed (Baseline.onData JSON_parse) _ (fun l => l) onData_frames)
    by (intros []).
  cbn [buffer app Youtube.videos emptyCollector]. rewrite map_id.
  unfold Baseline.onCloseParse. cbn [buffer Youtube.videos].
  destruct (snd (frames (textOf stdout))) as [|c r].
  - cbn [Youtube.videos]. rewrite app_nil_r. reflexivity.
  - cbn [Youtube.videos]. unfold Baseline.push, recordsOf. cbn [flat_map].
    destruct (Baseline.decode JSON_parse (c :: r)); rewrite ?app_nil_r; reflexivity.
Qed.

(** X21.  The first version of the parser, whatever the chunks: the
    records of a stream are those of the pieces of [split('\n')] of its
    whole text but the last, blank ones skipped, followed by the record of
    the last piece, if that is not empty.  So two streams with the same
    text give the same records, and settle the promise of the search in the
    same way. *)
Theorem baseline_records_of_the_text (stdout : list Chunk) :
  Baseline.parsedRecords JSON_parse stdout
  = recordsOf (Baseline.decodeLine JSON_parse)
              (removelast (Baseline.splitLF (textOf stdout)))
    ++ match last (Baseline.splitLF (textOf stdout)) [] with
       | [] => []
       | rest => recordsOf (Baseline.decode JSON_parse) [rest]
       end
  /\ (forall other code,
        textOf other = textOf stdout ->
        Baseline.searchOutcome JSON_parse (Exited other code)
        = Baseline.searchOutcome JSON_parse (Exited stdout code)).
Proof.
  split.
  - rewrite splitLF_frames, last_last, removelast_last. apply baseline_frames.
  - intros other code E. unfold Baseline.searchOutcome.
    rewrite !baseline_frames, E. reflexivity.
Qed.

Lemma hardened_frames (stdout : list Chunk) :
  (Z.of_nat (List.length (textOf stdout)) <= MAX_BUFFER_CHARS)%Z ->
  Youtube.parsedRecords JSON_parse stdout
  = recordsOf (Youtube.decodeLine JSON_parse) (fst (frames (textOf stdout)))
    ++ recordsOf (Youtube.decodeLine JSON_parse) [snd (frames (textOf stdout))].
Proof.
  intros Hlen. unfold Youtube.parsedRecords.
  rewrite (drain_frames JSON_parse stdout Hlen), flushNdjson_split.
  cbn [buffer Youtube.videos].
  rewrite (splitLines_noLF (frames_rest_noLF (textOf stdout))). reflexivity.
Qed.

(** X22.  The chunk-safe parser changes nothing for ordinary output: on a
    stream of at most [MAX_BUFFER_CHARS] code units, each of whose lines
    [JSON.parse] reads the same trimmed or not, it yields exactly the
    records of the first version, and the promise of the search settles in
    the same way whatever the exit code. *)
Theorem hardening_keeps_the_records (stdout : list Chunk) :
  (Z.of_nat (List.length (textOf stdout)) <= MAX_BUFFER_CHARS)%Z ->
  JSON_parse [] = None ->
  Forall (fun l => JSON_parse l = JSON_parse (trim l))
         (Baseline.splitLF (textOf stdout)) ->
  Youtube.parsedRecords JSON_parse stdout = Baseline.parsedRecords JSON_parse stdout
  /\ forall code,
       Youtube.searchOutcome JSON_parse (Exited stdout code)
       = Baseline.searchOutcome JSON_parse (Exited stdout code).
Proof.
  intros Hlen Hempty Hsame.
  assert (E : Youtube.parsedRecords JSON_parse stdout
              = Baseline.parsedRecords JSON_parse stdout).
  { rewrite baseline_frames, (hardened_frames stdout Hlen).
    rewrite splitLF_frames, Forall_app in Hsame. destruct Hsame as [Hf Hr].
    rewrite Forall_forall in Hf. inversion Hr as [|? ? Hrest _]; subst.
    f_equal.
    - apply recordsOf_ext. intros l Hl.
      unfold Youtube.decodeLine, Baseline.decodeLine, Baseline.decode.
      rewrite (Hf l Hl). destruct (trim l); reflexivity.
    - unfold recordsOf, Youtube.decodeLine, Baseline.decode. cbn [flat_map].
      destruct (snd (frames (textOf stdout))) as [|c r] eqn:E; [reflexivity|].
      rewrite Hrest. destruct (trim (c :: r)); [rewrite Hempty|]; reflexivity. }
  split; [exact E|]. intros code.
  unfold Youtube.searchOutcome, Baseline.searchOutcome.
  change (Youtube.videos (flushNdjson JSON_parse (drain JSON_parse stdout)))
    with (Youtube.parsedRecords JSON_parse stdout).
  rewrite E. reflexivity.
Qed.

End VersionFacts.

(** X22, witness: three lines in two chunks, the last line without its line
    feed and the second ended by CR LF. *)
Lemma hardening_keeps_the_records_witness :
  Youtube.parsedRecords JSON.parse
    [OfString (idLine "a" ++ lit "{}" ++ [CR]); OfString ([LF] ++ lit "{}")]
  = Baseline.parsedRecords JSON.parse
      [OfString (idLine "a" ++ lit "{}" ++ [CR]); OfString ([LF] ++ lit "{}")].
Proof.
  refine (proj1 (@hardening_keeps_the_records JSON.parse _ _ eq_refl _)).
  - vm_compute. discriminate.
  - repeat constructor.
Defined.

(** ** The argument lists of the three versions *)

(** X23.  The versions build the same arguments where their options
    overlap: with the maximum age switched off (given as 0 or as
    [undefined]) the chunk-safe version builds those of the first version;
    and, the limit not given as [undefined] and the sort neither
    [relevance] nor [undefined], the second version builds those of the
    chunk-safe one. *)
Theorem argument_builders_agree (LocalTZA : Z -> bool -> Z) (now : Z)
  (keyword : jsstring) (options : SearchOptions) :
  (effectiveMaxAge options = None ->
   Youtube.searchArgs LocalTZA now keyword options
   = Normal (Baseline.searchArgs keyword options))
  /\ (limit options <> Undefined ->
      sort options <> Undefined -> sort options <> Given SortRelevance ->
      YoutubeV2.searchArgs LocalTZA now keyword options
      = Youtube.searchArgs LocalTZA now keyword options).
Proof.
  split.
  - intros He. unfold Youtube.searchArgs, Baseline.searchArgs. rewrite He.
    destruct (spread DEFAULT_dateRange (dateRange options)); reflexivity.
  - intros Hl Hs Hr. unfold YoutubeV2.searchArgs, Youtube.searchArgs.
    destruct (limit options) as [| |n]; [|congruence|];
      destruct (sort options) as [| |[| | |]]; try congruence;
      cbn [spread DEFAULT_limit DEFAULT_sort textOfLimit]; reflexivity.
Qed.

(** ** The second version: the record mapper *)

Lemma stringAt_cases props k : stringOrUndefined (stringAt props k).
Proof.
  unfold stringAt, stringOrUndefined.
  destruct (lookup props (lit k)); eauto.
Qed.

Lemma numberAt_cases props k : numberOrUndefined (numberAt props k).
Proof.
  unfold numberAt, numberOrUndefined.
  destruct (lookup props (lit k)); eauto.
Qed.

(** A number, or nothing, has a duration text: no conversion is needed. *)
Lemma formatDuration_number v :
  numberOrUndefined v -> exists length, formatDuration v = Normal length.
Proof.
  intros [->|(n & ->)]; unfold formatDuration; [eexists; reflexivity|].
  destruct (negb _); eexists; reflexivity.
Qed.

Lemma v2_parseVideoInfo_steps props :
  YoutubeV2.parseVideoInfo (JObject props) =
  (length <- formatDuration (numberAt props "duration") ;;
  let id := YoutubeV2.coalesce (stringAt props "id") (JString []) in
  Normal {|
    Youtube.id := id;
    Youtube.title := YoutubeV2.coalesce (stringAt props "title")
                                        (JString (lit "Unknown Title"));
    Youtube.url := match stringAt props "webpage_url" with
                   | JUndefined | JNull =>
                     if truthy id then UrlWatch id
                     else UrlGiven (JString (lit "https://youtube.com"))
                   | _ => UrlGiven (stringAt props "webpage_url")
                   end;
    Youtube.channel :=
      YoutubeV2.coalesce (YoutubeV2.coalesce (stringAt props "channel")
                                             (stringAt props "uploader"))
                         (JString (lit "Unknown Channel"));
    Youtube.channelUrl := YoutubeV2.coalesce (stringAt props "channel_url")
                                             (stringAt props "uploader_url");
    Youtube.viewCount := YoutubeV2.coalesce (numberAt props "view_count")
                                            (JNumber (numberOfZ 0));
    Youtube.likeCount := numberAt props "like_count";
    Youtube.duration := length;
    Youtube.thumbnail := stringAt props "thumbnail";
    Youtube.publishedAt :=
      match stringAt props "upload_date" with
      | JString s =>
        if truthy (stringAt props "upload_date") && YoutubeV2.isEightDigits s then
          Some (DateOfParts (JString (slice s 0 (Some 4%Z)))
                            (JString (slice s 4 (Some 6%Z)))
                            (JString (slice s 6 (Some 8%Z))))
        else None
      | _ => None
      end;
    Youtube.description := stringAt props "description"
  |}).
Proof. reflexivity. Qed.

(** On an object the second mapper reads its fields and does not throw. *)
Lemma v2_parseVideoInfo_object props :
  exists length,
    formatDuration (numberAt props "duration") = Normal length
    /\ YoutubeV2.parseVideoInfo (JObject props) =
  let id := YoutubeV2.coalesce (stringAt props "id") (JString []) in
  Normal {|
    Youtube.id := id;
    Youtube.title := YoutubeV2.coalesce (stringAt props "title")
                                        (JString (lit "Unknown Title"));
    Youtube.url := match stringAt props "webpage_url" with
                   | JUndefined | JNull =>
                     if truthy id then UrlWatch id
                     else UrlGiven (JString (lit "https://youtube.com"))
                   | _ => UrlGiven (stringAt props "webpage_url")
                   end;
    Youtube.channel :=
      YoutubeV2.coalesce (YoutubeV2.coalesce (stringAt props "channel")
                                             (stringAt props "uploader"))
                         (JString (lit "Unknown Channel"));
    Youtube.channelUrl := YoutubeV2.coalesce (stringAt props "channel_url")
                                             (stringAt props "uploader_url");
    Youtube.viewCount := YoutubeV2.coalesce (numberAt props "view_count")
                                            (JNumber (numberOfZ 0));
    Youtube.likeCount := numberAt props "like_count";
    Youtube.duration := length;
    Youtube.thumbnail := stringAt props "thumbnail";
    Youtube.publishedAt :=
      match stringAt props "upload_date" with
      | JString s =>
        if truthy (stringAt props "upload_date") && YoutubeV2.isEightDigits s then
          Some (DateOfParts (JString (slice s 0 (Some 4%Z)))
                            (JString (slice s 4 (Some 6%Z)))
                            (JString (slice s 6 (Some 8%Z))))
        else None
      | _ => None
      end;
    Youtube.description := stringAt props "description"
  |}.
Proof.
  destruct (formatDuration_number (numberAt_cases props "duration")) as [length E].
  exists length. split; [exact E|].
  rewrite v2_parseVideoInfo_steps, E. reflexivity.
Qed.

(** On a value that is not an object, and not [null], every field is missing. *)
Lemma v2_parseVideoInfo_scalar data :
  match data with
  | JBool _ | JNumber _ | JString _ | JArray _ => True
  | _ => False
  end ->
  YoutubeV2.parseVideoInfo data = YoutubeV2.parseVideoInfo (JObject []).
Proof. destruct data; intros H; try contradiction; reflexivity. Qed.

Lemma coalesce_string a b :
  stringOrUndefined a -> (exists s, YoutubeV2.coalesce a (JString b) = JString s).
Proof. intros [->|(s & ->)]; cbn; eauto. Qed.

(** X24.  The second mapper throws on [null] (and [undefined]) only, and
    what it returns is typed: [id], [title] and [channel] are strings,
    [viewCount] is a number, and every other field is of its type or
    undefined.  The view count is the [view_count] field when that is a
    number, and zero when it is anything else or missing. *)
Theorem v2_mapper_is_typed (data : JSValue) :
  ((exists e, YoutubeV2.parseVideoInfo data = Throw e)
   <-> data = JNull \/ data = JUndefined)
  /\ (forall video, YoutubeV2.parseVideoInfo data = Normal video ->
      (exists s, Youtube.id video = JString s)
      /\ (exists s, Youtube.title video = JString s)
      /\ (exists s, Youtube.channel video = JString s)
      /\ (exists n, Youtube.viewCount video = JNumber n)
      /\ numberOrUndefined (Youtube.likeCount video)
      /\ stringOrUndefined (Youtube.channelUrl video)
      /\ stringOrUndefined (Youtube.thumbnail video)
      /\ stringOrUndefined (Youtube.description video)
      /\ (forall props, data = JObject props ->
          Youtube.viewCount video
          = match lookup props (lit "view_count") with
            | JNumber n => JNumber n
            | _ => JNumber (numberOfZ 0)
            end)).
Proof.
  split.
  - split.
    + intros (e & H). destruct data as [| |b|n|s|items|props]; auto;
        try (rewrite v2_parseVideoInfo_scalar in H by exact I;
             destruct (v2_parseVideoInfo_object []) as (length & _ & E));
        try (destruct (v2_parseVideoInfo_object props) as (length & _ & E));
        rewrite E in H; discriminate.
    + intros [->| ->]; eexists; reflexivity.
  - intros video H.
    assert (Ho : exists props, YoutubeV2.parseVideoInfo (JObject props) = Normal video
                 /\ forall props', data = JObject props' -> props' = props).
    { destruct data as [| |b|n|s|items|props]; try discriminate;
        try (rewrite v2_parseVideoInfo_scalar in H by exact I;
             exists []; split; [exact H | intros; discriminate]).
      exists props. split; [exact H | intros ? E; injection E; auto]. }
    destruct Ho as (props & Hp & Hsame).
    destruct (v2_parseVideoInfo_object props) as (length & _ & Eobj).
    rewrite Eobj in Hp. cbv zeta in Hp. injection Hp as <-.
    cbn [Youtube.id Youtube.title Youtube.channel Youtube.viewCount Youtube.likeCount
         Youtube.channelUrl Youtube.thumbnail Youtube.description].
    split; [apply coalesce_string, stringAt_cases|].
    split; [apply coalesce_string, stringAt_cases|].
    split.
    { destruct (stringAt_cases props "channel") as [->|(s & ->)]; cbn [YoutubeV2.coalesce].
      - apply coalesce_string, stringAt_cases.
      - eauto. }
    split.
    { destruct (numberAt_cases props "view_count") as [->|(n & ->)]; cbn; eauto. }
    split; [apply numberAt_cases|].
    split.
    { destruct (stringAt_cases props "channel_url") as [->|(s & ->)]; cbn [YoutubeV2.coalesce].
      - apply stringAt_cases.
      - right. eauto. }
    split; [apply stringAt_cases|].
    split; [apply stringAt_cases|].
    intros props' Ep. rewrite (Hsame props' Ep). unfold numberAt.
    destruct (lookup props (lit "view_count")); reflexivity.
Qed.

(** ** The two mappers on an object of the documented shape *)

Lemma textField_stringAt props k :
  textField (lookup props (lit k)) -> stringAt props k = lookup props (lit k).
Proof. unfold stringAt. intros [->|(c & s & ->)]; reflexivity. Qed.

Lemma numberField_numberAt props k :
  numberField (lookup props (lit k)) -> numberAt props k = lookup props (lit k).
Proof. unfold numberAt. intros [->|(n & -> & _)]; reflexivity. Qed.

Lemma textField_coalesce v d : textField v -> YoutubeV2.coalesce v d = or_else v d.
Proof. intros [->|(c & s & ->)]; reflexivity. Qed.

Lemma numberField_coalesce v d : numberField v -> YoutubeV2.coalesce v d = or_else v d.
Proof.
  intros [->|(n & -> & Hn)]; [reflexivity|].
  unfold or_else, truthy. rewrite Hn. reflexivity.
Qed.

Lemma or_else_textField a b : textField a -> textField b -> textField (or_else a b).
Proof.
  intros [->|(c & s & ->)] Hb; [exact Hb|]. right. exists c, s. reflexivity.
Qed.

(** X25.  On an object of the documented shape (an id, text fields that
    are strings and not empty, counts and a duration that are numbers and
    not zero, an upload date of eight digits, each field possibly left out
    except the id) the two versions of the mapper return the same record. *)
Theorem mappers_agree_on_documented_objects (props : list (jsstring * JSValue)) :
  conforming props ->
  YoutubeV2.parseVideoInfo (JObject props) = Youtube.parseVideoInfo (JObject props)
  /\ exists video, Youtube.parseVideoInfo (JObject props) = Normal video.
Proof.
  intros ((ci & si & Hid) & Htitle & Hpage & Hchannel & Huploader & Hcurl & Huurl
          & Hthumb & Hdesc & Hviews & Hlikes & Hdur & Hdate).
  destruct (v2_parseVideoInfo_object props) as (length & Elen & E2).
  rewrite E2, parseVideoInfo_object. clear E2. cbv zeta.
  rewrite (numberField_numberAt props "duration" Hdur) in Elen.
  rewrite (textField_stringAt props "title" Htitle),
          (textField_stringAt props "webpage_url" Hpage),
          (textField_stringAt props "channel" Hchannel),
          (textField_stringAt props "uploader" Huploader),
          (textField_stringAt props "channel_url" Hcurl),
          (textField_stringAt props "uploader_url" Huurl),
          (textField_stringAt props "thumbnail" Hthumb),
          (textField_stringAt props "description" Hdesc),
          (numberField_numberAt props "view_count" Hviews),
          (numberField_numberAt props "like_count" Hlikes).
  assert (Eid : stringAt props "id" = lookup props (lit "id"))
    by (unfold stringAt; rewrite Hid; reflexivity).
  assert (Edate : stringAt props "upload_date" = lookup props (lit "upload_date")).
  { unfold stringAt. destruct Hdate as [->|(s & -> & _)]; reflexivity. }
  rewrite Eid, Edate.
  rewrite (textField_coalesce _ Htitle), (textField_coalesce _ Hcurl),
          (numberField_coalesce _ Hviews).
  rewrite (textField_coalesce (lookup props (lit "uploader")) Hchannel).
  rewrite (textField_coalesce _ (or_else_textField Hchannel Huploader)).
  assert (Epub : parseUploadDate (lookup props (lit "upload_date"))
                 = Normal match lookup props (lit "upload_date") with
                          | JString s =>
                            if truthy (lookup props (lit "upload_date"))
                               && YoutubeV2.isEightDigits s
                            then Some (DateOfParts (JString (slice s 0 (Some 4%Z)))
                                                   (JString (slice s 4 (Some 6%Z)))
                                                   (JString (slice s 6 (Some 8%Z))))
                            else None
                          | _ => None
                          end).
  { destruct Hdate as [->|(s & -> & H8)]; [reflexivity|].
    unfold parseUploadDate. rewrite H8.
    destruct s as [|c s]; [discriminate|]. reflexivity. }
  assert (Elink : urlOf (lookup props (lit "webpage_url")) (lookup props (lit "id"))
                  = Normal (if truthy (lookup props (lit "webpage_url"))
                            then UrlGiven (lookup props (lit "webpage_url"))
                            else UrlWatch (lookup props (lit "id")))).
  { unfold urlOf. destruct (truthy (lookup props (lit "webpage_url"))); [reflexivity|].
    rewrite Hid. reflexivity. }
  rewrite Epub, Elink, Elen. cbn [bindCompletion].
  assert (Eurl : match lookup props (lit "webpage_url") with
                 | JUndefined | JNull =>
                   if truthy (YoutubeV2.coalesce (lookup props (lit "id")) (JString []))
                   then UrlWatch (YoutubeV2.coalesce (lookup props (lit "id")) (JString []))
                   else UrlGiven (JString (lit "https://youtube.com"))
                 | _ => UrlGiven (lookup props (lit "webpage_url"))
                 end
                 = if truthy (lookup props (lit "webpage_url"))
                   then UrlGiven (lookup props (lit "webpage_url"))
                   else UrlWatch (lookup props (lit "id"))).
  { rewrite Hid. destruct Hpage as [->|(c & s & ->)]; reflexivity. }
  rewrite Eurl.
  assert (Eid' : YoutubeV2.coalesce (lookup props (lit "id")) (JString [])
                 = lookup props (lit "id")) by (rewrite Hid; reflexivity).
  rewrite Eid'. split; [reflexivity | eauto].
Qed.

(** X25, witness: an object with an id, a title, a view count and an upload
    date. *)
Lemma mappers_agree_on_documented_objects_witness :
  YoutubeV2.parseVideoInfo
    (JObject [(lit "id", JString (lit "a")); (lit "title", JString (lit "t"));
              (lit "view_count", JNumber (numberOfZ 12));
              (lit "upload_date", JString (lit "20260501"))])
  = Youtube.parseVideoInfo
      (JObject [(lit "id", JString (lit "a")); (lit "title", JString (lit "t"));
                (lit "view_count", JNumber (numberOfZ 12));
                (lit "upload_date", JString (lit "20260501"))]).
Proof.
  refine (proj1 (@mappers_agree_on_documented_objects _ _)).
  unfold conforming, textField, numberField.
  split; [do 2 eexists; reflexivity|].
  split; [right; do 2 eexists; reflexivity|].
  do 7 (split; [left; reflexivity|]).
  split; [right; eexists; split; reflexivity|].
  do 2 (split; [left; reflexivity|]).
  right. eexists. split; reflexivity.
Defined.

(* ================================================================== *)
(** * The scheduler *)
(* ================================================================== *)

Section SchedulerFacts.
Import Scheduler.
Variable TZ : option jsstring.
Variable rejects : jsstring -> jsstring -> option JSError.

Local Abbreviation startScheduler := (startScheduler TZ rejects).
Local Abbreviation call := (call TZ rejects).

Lemma stopAt_nth ts : forall i j,
  nth_error (stopAt i ts) j
  = if (j =? i)%nat then
      option_map (fun t => {| expression := expression t; timezone := timezone t;
                              running := false |}) (nth_error ts j)
    else nth_error ts j.
Proof.
  induction ts as [|t ts IH]; intros i j.
  - destruct i, j; cbn [stopAt nth_error]; destruct (_ =? _)%nat; reflexivity.
  - destruct i as [|i], j as [|j]; try reflexivity.
    cbn [stopAt nth_error]. rewrite IH. reflexivity.
Qed.

Lemma stopScheduler_oneTask st :
  oneTask st -> oneTask (stopScheduler st) /\ scheduledTask (stopScheduler st) = None.
Proof.
  intros H. pose proof H as [Hrun Href]. unfold stopScheduler.
  destruct (scheduledTask st) as [i|] eqn:E; [|split; [exact H | exact E]].
  split; [|reflexivity]. split; cbn [tasks scheduledTask]; [|discriminate].
  intros j t Hj. rewrite stopAt_nth in Hj.
  destruct (Nat.eqb_spec j i) as [->|Hne].
  - destruct (nth_error (tasks st) i); [|discriminate].
    injection Hj as <-. cbn. split; discriminate.
  - split; [|discriminate]. intros Ht. apply (Hrun j t Hj) in Ht. congruence.
Qed.

Lemma call_oneTask st c : oneTask st -> oneTask (call st c).
Proof.
  intros H. destruct c as [schedule|]; [|apply stopScheduler_oneTask, H].
  unfold Scheduler.call, Scheduler.startScheduler.
  destruct (stopScheduler_oneTask H) as [[Hrun Href] Hnone].
  destruct (rejects _ _); cbn [snd]; [split; assumption|].
  split; cbn [tasks scheduledTask].
  - intros j t Hj.
    destruct (Nat.lt_ge_cases j (List.length (tasks (stopScheduler st)))) as [Hlt|Hge].
    + rewrite nth_error_app1 in Hj by exact Hlt.
      split.
      * intros Ht. apply (Hrun j t Hj) in Ht. congruence.
      * intros E. injection E as E. lia.
    + rewrite nth_error_app2 in Hj by exact Hge.
      destruct (j - List.length (tasks (stopScheduler st)))%nat as [|k] eqn:Ek.
      * injection Hj as <-. cbn. split; [intros _; f_equal; lia | reflexivity].
      * destruct k; discriminate.
  - intros i E. injection E as <-. rewrite nth_error_app2, Nat.sub_diag by lia.
    eexists. reflexivity.
Qed.

(** X26.  However the module is called, at most one of the tasks it has
    made is still scheduled, and it is the one [scheduledTask] refers to:
    starting again stops the task started before, also when the new
    expression is rejected. *)
Theorem one_task_at_most (calls : list Call) :
  let st := fold_left call calls initial in
  (forall i t, nth_error (tasks st) i = Some t ->
     (running t = true <-> scheduledTask st = Some i))
  /\ (forall i, scheduledTask st = Some i -> exists t, nth_error (tasks st) i = Some t).
Proof.
  cbv zeta. change (oneTask (fold_left call calls initial)).
  assert (H : oneTask initial).
  { split; cbn; [|discriminate]. intros [|i] t E; discriminate. }
  revert H. generalize initial as st.
  induction calls as [|c calls IH]; intros st H; cbn [fold_left]; [exact H|].
  apply IH, call_oneTask, H.
Qed.

(** X27.  The status names the default schedule, not the one in force:
    once a task has been started with any expression, [getSchedulerStatus]
    reports that it runs, on ['0 9 * * *'], while the task that runs has the
    expression it was started with; after [stopScheduler] it reports that
    nothing runs, and no schedule. *)
Theorem status_names_the_default (schedule : jsstring) (st : State) (task : nat) :
  fst (startScheduler (Some schedule) st) = Normal task ->
  let st' := snd (startScheduler (Some schedule) st) in
  getSchedulerStatus st' = (true, Some DEFAULT_SCHEDULE)
  /\ scheduledTask st' = Some task
  /\ (exists t, nth_error (tasks st') task = Some t
                /\ expression t = schedule /\ running t = true)
  /\ getSchedulerStatus (stopScheduler st') = (false, None).
Proof.
  unfold Scheduler.startScheduler. destruct (rejects _ _); [discriminate|].
  cbn [fst snd]. intros E. injection E as <-.
  split; [reflexivity|]. split; [reflexivity|]. split; [|reflexivity].
  cbn [tasks]. rewrite nth_error_app2, Nat.sub_diag by lia.
  eexists. split; [reflexivity|]. split; reflexivity.
Qed.

End SchedulerFacts.

(** X27, witness: a task started to run every five minutes. *)
Lemma status_names_the_default_witness :
  Scheduler.getSchedulerStatus
    (snd (Scheduler.startScheduler None (fun _ _ => None)
            (Some (lit "*/5 * * * *")) Scheduler.initial))
  = (true, Some (lit "0 9 * * *")).
Proof.
  exact (proj1 (@status_names_the_default None (fun _ _ => None)
                  (lit "*/5 * * * *") Scheduler.initial 0%nat eq_refl)).
Defined.

(* ================================================================== *)
(** * The collection script *)
(* ================================================================== *)

Section SeedFacts.
Import Script.
Variable toLowerCase : jsstring -> jsstring.

(** The loop of the script, for the lower-cased names it has read. *)
Local Abbreviation seedLoop existing :=
  (fold_left (fun w kw =>
                if existsb (jsstring_eqb (toLowerCase (fst kw))) existing then w
                else
                  match insertKeyword (fst kw) (snd kw) w with
                  | Normal w' => w'
                  | Throw _ => w
                  end)).

Lemma existsb_name_In name ks :
  existsb (fun k => jsstring_eqb (Keyword.name k) name) ks = true
  <-> In name (map Keyword.name ks).
Proof.
  rewrite existsb_exists, in_map_iff. split.
  - intros (k & Hin & E). apply jsstring_eqb_eq in E. eauto.
  - intros (k & E & Hin). exists k. split; [exact Hin | apply jsstring_eqb_eq, E].
Qed.

Lemma existsb_eqb_In (x : jsstring) l : existsb (jsstring_eqb x) l = true <-> In x l.
Proof.
  rewrite existsb_exists. split.
  - intros (y & Hin & E). apply jsstring_eqb_eq in E. subst. exact Hin.
  - intros Hin. exists x. split; [exact Hin | apply jsstring_eqb_eq; reflexivity].
Qed.

Local Abbreviation missing := (missing toLowerCase).

Lemma seedLoop_rows existing initial : forall w,
  NoDup (map fst initial) ->
  (forall kw, In kw initial ->
     existsb (jsstring_eqb (toLowerCase (fst kw))) existing = false ->
     ~ In (fst kw) (map Keyword.name (keywords (db w)))) ->
  exists rows,
    db (seedLoop existing initial w)
    = {| keywords := keywords (db w) ++ rows;
         Collector.videos := Collector.videos (db w);
         trends := trends (db w);
         collectionLogs := collectionLogs (db w) |}
    /\ map (fun r => (Keyword.name r, Keyword.category r)) rows
       = map (fun kw => (fst kw, Some (snd kw))) (missing existing initial)
    /\ Forall (fun r => Keyword.isActive r = Some true) rows
    /\ now (seedLoop existing initial w) = now w
    /\ spawned (seedLoop existing initial w) = spawned w.
Proof.
  induction initial as [|kw rest IH]; intros w Hnd Hnew; unfold Notions.missing; cbn [fold_left filter].
  - exists []. rewrite app_nil_r. destruct w as [[ks vs ts ls] n s]. cbn. auto.
  - inversion Hnd as [|? ? Hfresh Hnd']; subst.
    destruct (existsb (jsstring_eqb (toLowerCase (fst kw))) existing) eqn:Eskip; cbn [negb].
    + apply IH; [exact Hnd'|]. intros kw' Hin. apply Hnew. right. exact Hin.
    + assert (Ein : existsb (fun k => jsstring_eqb (Keyword.name k) (fst kw))
                            (keywords (db w)) = false).
      { apply not_true_iff_false. rewrite existsb_name_In.
        apply Hnew; [left; reflexivity | exact Eskip]. }
      assert (Eins : insertKeyword (fst kw) (snd kw) w
                = Normal (withDb w
                  {| keywords :=
                       keywords (db w) ++
                       [{| Keyword.id := nextId (map Keyword.id (keywords (db w)));
                           Keyword.name := fst kw;
                           Keyword.category := Some (snd kw);
                           Keyword.isActive := Some true;
                           Keyword.createdAt := Some (timestamp (now w)) |}];
                     Collector.videos := Collector.videos (db w);
                     trends := trends (db w);
                     collectionLogs := collectionLogs (db w) |}))
        by (unfold insertKeyword; rewrite Ein; reflexivity).
      rewrite Eins.
      destruct (IH (withDb w
                  {| keywords :=
                       keywords (db w) ++
                       [{| Keyword.id := nextId (map Keyword.id (keywords (db w)));
                           Keyword.name := fst kw;
                           Keyword.category := Some (snd kw);
                           Keyword.isActive := Some true;
                           Keyword.createdAt := Some (timestamp (now w)) |}];
                     Collector.videos := Collector.videos (db w);
                     trends := trends (db w);
                     collectionLogs := collectionLogs (db w) |}) Hnd')
        as (rows & Hdb & Hrows & Hact & Hnow & Hsp).
      { intros kw' Hin Hs. cbn [db withDb keywords]. rewrite map_app, in_app_iff.
        intros [H|[H|[]]].
        - exact (Hnew kw' (or_intror Hin) Hs H).
        - cbn in H. apply Hfresh. rewrite H. apply in_map, Hin. }
      cbn [db withDb keywords Collector.videos trends collectionLogs now spawned] in *.
      eexists. rewrite Hdb, <- app_assoc. split; [reflexivity|].
      cbn [map app]. rewrite Hrows. split; [reflexivity|].
      split; [constructor; [reflexivity | exact Hact]|]. auto.
Qed.

Lemma initial_names_distinct : NoDup (map fst INITIAL_KEYWORDS).
Proof.
  assert (H : forall l : list jsstring,
            (fix distinct (l : list jsstring) : bool :=
               match l with
               | [] => true
               | x :: r => negb (existsb (jsstring_eqb x) r) && distinct r
               end) l = true -> NoDup l).
  { induction l as [|x r IH]; intros E; constructor.
    - apply andb_prop in E. destruct E as [E _].
      rewrite <- existsb_eqb_In. destruct (existsb _ r); [discriminate | congruence].
    - apply IH. apply andb_prop in E. tauto. }
  apply H. vm_compute. reflexivity.
Qed.

Lemma seed_rows w :
  exists rows,
    db (seed toLowerCase w)
    = {| keywords := keywords (db w) ++ rows;
         Collector.videos := Collector.videos (db w);
         trends := trends (db w);
         collectionLogs := collectionLogs (db w) |}
    /\ map (fun r => (Keyword.name r, Keyword.category r)) rows
       = map (fun kw => (fst kw, Some (snd kw)))
             (missing (map (fun k => toLowerCase (Keyword.name k)) (keywords (db w)))
                      INITIAL_KEYWORDS)
    /\ Forall (fun r => Keyword.isActive r = Some true) rows
    /\ now (seed toLowerCase w) = now w
    /\ spawned (seed toLowerCase w) = spawned w.
Proof.
  apply seedLoop_rows; [exact initial_names_distinct|].
  intros kw _ Hskip Hin. apply not_true_iff_false in Hskip. apply Hskip.
  apply existsb_eqb_In. rewrite in_map_iff in *.
  destruct Hin as (k & E & Hk). exists k. split; [rewrite E; reflexivity | exact Hk].
Qed.

(** X28.  The script registers exactly the initial keywords that are
    missing: those whose lower-cased name no keyword of the table has, in
    the order of the list, each active and with its category, after the rows
    that were there.  No insert fails on the unique name; nothing else is
    written, and nothing is spawned. *)
Theorem seed_registers_the_missing (w : World) :
  exists rows,
    db (seed toLowerCase w)
    = {| keywords := keywords (db w) ++ rows;
         Collector.videos := Collector.videos (db w);
         trends := trends (db w);
         collectionLogs := collectionLogs (db w) |}
    /\ map (fun r => (Keyword.name r, Keyword.category r)) rows
       = map (fun kw => (fst kw, Some (snd kw)))
             (missing (map (fun k => toLowerCase (Keyword.name k)) (keywords (db w)))
                      INITIAL_KEYWORDS)
    /\ Forall (fun r => Keyword.isActive r = Some true) rows
    /\ spawned (seed toLowerCase w) = spawned w.
Proof.
  destruct (seed_rows w) as (rows & H1 & H2 & H3 & _ & H5).
  exists rows. auto.
Qed.

Lemma seedLoop_all_known existing initial : forall w,
  (forall kw, In kw initial ->
     existsb (jsstring_eqb (toLowerCase (fst kw))) existing = true) ->
  seedLoop existing initial w = w.
Proof.
  induction initial as [|kw rest IH]; intros w H; cbn [fold_left]; [reflexivity|].
  rewrite (H kw (or_introl eq_refl)). apply IH. intros kw' Hin. apply H. right. exact Hin.
Qed.

(** X29.  Running the registration again changes nothing: after it every
    initial keyword has its lower-cased name in the table, so a second run
    skips them all. *)
Theorem seed_is_idempotent (w : World) :
  seed toLowerCase (seed toLowerCase w) = seed toLowerCase w.
Proof.
  destruct (seed_rows w) as (rows & Hdb & Hrows & _).
  unfold seed at 1. unfold seedWith. apply seedLoop_all_known.
  intros kw Hin. rewrite Hdb. cbn [keywords]. apply existsb_eqb_In.
  rewrite map_app, in_app_iff.
  destruct (existsb (jsstring_eqb (toLowerCase (fst kw)))
              (map (fun k => toLowerCase (Keyword.name k)) (keywords (db w)))) eqn:E.
  - left. apply existsb_eqb_In, E.
  - right.
    assert (Hm : In kw (missing (map (fun k => toLowerCase (Keyword.name k))
                                     (keywords (db w))) INITIAL_KEYWORDS)).
    { apply filter_In. rewrite E. auto. }
    apply (in_map (fun kw => (fst kw, Some (snd kw)))) in Hm.
    rewrite <- Hrows in Hm. apply in_map_iff in Hm. destruct Hm as (r & Er & Hr).
    injection Er as Er _. apply in_map_iff. exists r. split; [rewrite Er; reflexivity | exact Hr].
Qed.

End SeedFacts.
